(** * MagicMirror / mmm-infomirror: the sensor manager, the GPIO controller,
      the configuration server and the display module, embedded in Rocq.

    Conventions of the embedding.
    - A JavaScript number is a rational [Q]: finite values with exact
      arithmetic.  NaN and rounding are outside the model; comparisons and
      the truthiness test are the boolean functions of [QArith] ([x || y]
      keeps [x] unless [x] is zero).  The infinities are modelled where an
      input can bring them in: [JSON.parse] yields [Infinity] for [1e999],
      so that a JSON value, and the presence timeout that a posted
      configuration sets, may be infinite.
    - 32-bit integer operators ([<<], [|]) are written on [Z] with the
      wrap-around of ToInt32 spelled out.
    - Objects used as records are records; objects used as dictionaries
      (JSON bodies, the stored configuration) are [gmap string _].
    - A method that mutates [this] takes the state and returns the new state,
      together with the list of events it emitted.
    - [console.log] calls are not modelled. *)

From Stdlib Require Import ZArith QArith Qround Qminmax Qabs Lqa Lia Bool Ascii.
From stdpp Require Import gmap strings list pretty.

Local Open Scope Q_scope.

(** ** JavaScript operators *)

Module JS.

(** [x < y] and [x <= y] on numbers. *)
Definition lt (x y : Q) : bool := negb (Qle_bool y x).
Definition le (x y : Q) : bool := Qle_bool x y.

(** ToBoolean on a number: only zero is falsy. *)
Definition truthy (x : Q) : bool := negb (Qeq_bool x 0).

(** [x || y] on numbers. *)
Definition or (x y : Q) : Q := if truthy x then x else y.

(** [o.f || d] where the property [f] may be absent ([undefined]). *)
Definition or_default (f : option Q) (d : Q) : Q :=
  match f with
  | Some x => or x d
  | None => d
  end.

(** [o.f || d] for a boolean property that may be absent. *)
Definition or_flag (f : option bool) (d : bool) : bool :=
  match f with
  | Some true => true
  | Some false => d
  | None => d
  end.

(** [Math.max], [Math.min], [Math.round] (halves round up). *)
Definition Math_max (x y : Q) : Q := Qmax x y.
Definition Math_min (x y : Q) : Q := Qmin x y.
Definition Math_round (x : Q) : Z := Qfloor (x + (1 # 2)).

(** ToInt32: reduce modulo 2^32 into [-2^31, 2^31). *)
Definition ToInt32 (n : Z) : Z :=
  let m := (n mod 2 ^ 32)%Z in
  if (m <? 2 ^ 31)%Z then m else (m - 2 ^ 32)%Z.

(** [a << b]: the shift count is taken modulo 32. *)
Definition shl (a b : Z) : Z :=
  ToInt32 (Z.shiftl (ToInt32 a) (Z.land b 31)).

(** [a | b] on 32-bit integers. *)
Definition bor (a b : Z) : Z :=
  ToInt32 (Z.lor (ToInt32 a) (ToInt32 b)).

(** A number that may be infinite. *)
Inductive number :=
| Finite (q : Q)
| Infinite (negative : bool).

(** [Math.max(x, y)] for a finite [x]. *)
Definition Math_max_number (x : Q) (y : number) : number :=
  match y with
  | Finite q => Finite (Math_max x q)
  | Infinite false => Infinite false
  | Infinite true => Finite x
  end.

(** The delay after which Node runs the callback of
    [setTimeout(callback, after)]: [after] in whole milliseconds, and 1 ms
    when [after] is not between 1 and [TIMEOUT_MAX] = 2^31 - 1 (the
    constructor of [Timeout] sets it to 1 then, and [insert] truncates). *)
Definition TIMEOUT_MAX : Q := 2147483647.

Definition timerDelay (after : number) : Q :=
  match after with
  | Finite q =>
      if le 1 q && le q TIMEOUT_MAX then inject_Z (Qfloor q) else 1
  | Infinite _ => 1
  end.

(** The number is at most [TIMEOUT_MAX]. *)
Definition fitsTimer (n : number) : bool :=
  match n with
  | Finite q => le q TIMEOUT_MAX
  | Infinite negative => negative
  end.

End JS.

(** ** lib/sensor_manager.js *)

Module SensorManager.

(** The object handed to the constructor: every property may be absent. *)
Record options := {
  o_detectionDistance : option Q;
  o_presenceTimeout : option Q;
  o_distanceCheckInterval : option Q;
  o_potentiometerPollingInterval : option Q;
  o_potentiometerThreshold : option Q;
  o_distanceSmoothing : option bool;
  o_smoothingFactor : option Q;
  o_minValidDistance : option Q;
  o_maxValidDistance : option Q;
  o_debugMode : option bool
}.

(** [this.config]. *)
Record config := {
  detectionDistance : Q;
  presenceTimeout : JS.number;
  distanceCheckInterval : Q;
  potentiometerPollingInterval : Q;
  potentiometerThreshold : Q;
  distanceSmoothing : bool;
  smoothingFactor : Q;
  minValidDistance : Q;
  maxValidDistance : Q;
  debugMode : bool
}.

(** A timer armed by [setTimeout]: the time of the call and the delay it
    was given.  The field [presenceTimer] holds the armed timer; a timer
    that was cleared or has fired is [None] ([clearTimeout] of a handle
    that has fired does nothing, so the code cannot tell the two apart). *)
Record timer := { armedAt : Q; delay : JS.number }.

(** The time at which the timer is due: Node takes the delay in whole
    milliseconds, and as 1 ms when it is out of range. *)
Definition deadline (tm : timer) : Q := armedAt tm + JS.timerDelay (delay tm).

Record t := {
  cfg : config;
  presenceTimer : option timer;
  currentDistance : Q;
  smoothedDistance : Q;
  lastPotentiometerValue : Q;
  objectPresent : bool;
  initialized : bool;
  distanceHistory : list Q
}.

(** [this.maxHistoryLength], assigned once by the constructor. *)
Definition maxHistoryLength : nat := 5.

Inductive event :=
| DistanceUpdate (raw smoothed : Q) (withinRange : bool)
| PresenceDetected (distance detection : Q) (forced : bool)
| PresenceTimeout (forced : bool)
| DetectionDistanceChanged (distance : Q)
| PresenceTimeoutChanged (timeout : JS.number).

Definition mkConfig (o : options) : config := {|
  detectionDistance := JS.or_default (o_detectionDistance o) 100;
  presenceTimeout := JS.Finite (JS.or_default (o_presenceTimeout o) 30000);
  distanceCheckInterval := JS.or_default (o_distanceCheckInterval o) 500;
  potentiometerPollingInterval :=
    JS.or_default (o_potentiometerPollingInterval o) 1000;
  potentiometerThreshold := JS.or_default (o_potentiometerThreshold o) 5;
  distanceSmoothing := JS.or_flag (o_distanceSmoothing o) true;
  smoothingFactor := JS.or_default (o_smoothingFactor o) (3 # 10);
  minValidDistance := JS.or_default (o_minValidDistance o) 10;
  maxValidDistance := JS.or_default (o_maxValidDistance o) 300;
  debugMode := JS.or_flag (o_debugMode o) false
|}.

(** [new SensorManager(config)]. *)
Definition new (o : options) : t := {|
  cfg := mkConfig o;
  presenceTimer := None;
  currentDistance := 999;
  smoothedDistance := 999;
  lastPotentiometerValue := 50;
  objectPresent := false;
  initialized := false;
  distanceHistory := []
|}.

(** Field updates. *)
Definition set_cfg (c : config) (s : t) : t :=
  {| cfg := c; presenceTimer := presenceTimer s;
     currentDistance := currentDistance s;
     smoothedDistance := smoothedDistance s;
     lastPotentiometerValue := lastPotentiometerValue s;
     objectPresent := objectPresent s; initialized := initialized s;
     distanceHistory := distanceHistory s |}.

Definition set_presenceTimer (tm : option timer) (s : t) : t :=
  {| cfg := cfg s; presenceTimer := tm;
     currentDistance := currentDistance s;
     smoothedDistance := smoothedDistance s;
     lastPotentiometerValue := lastPotentiometerValue s;
     objectPresent := objectPresent s; initialized := initialized s;
     distanceHistory := distanceHistory s |}.

Definition set_currentDistance (d : Q) (s : t) : t :=
  {| cfg := cfg s; presenceTimer := presenceTimer s;
     currentDistance := d;
     smoothedDistance := smoothedDistance s;
     lastPotentiometerValue := lastPotentiometerValue s;
     objectPresent := objectPresent s; initialized := initialized s;
     distanceHistory := distanceHistory s |}.

Definition set_smoothedDistance (d : Q) (s : t) : t :=
  {| cfg := cfg s; presenceTimer := presenceTimer s;
     currentDistance := currentDistance s;
     smoothedDistance := d;
     lastPotentiometerValue := lastPotentiometerValue s;
     objectPresent := objectPresent s; initialized := initialized s;
     distanceHistory := distanceHistory s |}.

Definition set_objectPresent (b : bool) (s : t) : t :=
  {| cfg := cfg s; presenceTimer := presenceTimer s;
     currentDistance := currentDistance s;
     smoothedDistance := smoothedDistance s;
     lastPotentiometerValue := lastPotentiometerValue s;
     objectPresent := b; initialized := initialized s;
     distanceHistory := distanceHistory s |}.

Definition set_distanceHistory (h : list Q) (s : t) : t :=
  {| cfg := cfg s; presenceTimer := presenceTimer s;
     currentDistance := currentDistance s;
     smoothedDistance := smoothedDistance s;
     lastPotentiometerValue := lastPotentiometerValue s;
     objectPresent := objectPresent s; initialized := initialized s;
     distanceHistory := h |}.

(** [applySmoothingFilter(newDistance)]: pushes onto the history, drops
    the oldest entry beyond [maxHistoryLength], and returns the filtered
    value. *)
Definition applySmoothingFilter (newDistance : Q) (s : t) : t * Q :=
  let pushed := distanceHistory s ++ [newDistance] in
  let history :=
    if (maxHistoryLength <? length pushed)%nat then tail pushed
    else pushed in
  let s' := set_distanceHistory history s in
  if (length history =? 1)%nat then (s', newDistance)
  else
    let factor := smoothingFactor (cfg s) in
    let previousSmoothed := JS.or (smoothedDistance s) newDistance in
    (s', factor * newDistance + (1 - factor) * previousSmoothed).

(** [handleDistanceChange(rawDistance)]. *)
Definition handleDistanceChange (rawDistance : Q) (s : t) : t * list event :=
  if JS.lt rawDistance (minValidDistance (cfg s))
     || JS.lt (maxValidDistance (cfg s)) rawDistance
  then (s, [])
  else
    let s1 := set_currentDistance rawDistance s in
    let s2 :=
      if distanceSmoothing (cfg s1) then
        let '(s', v) := applySmoothingFilter rawDistance s1 in
        set_smoothedDistance v s'
      else set_smoothedDistance rawDistance s1 in
    (s2, [DistanceUpdate rawDistance (smoothedDistance s2)
            (JS.le (smoothedDistance s2) (detectionDistance (cfg s2)))]).

(** [resetPresenceTimer()], called at time [now]: the armed timer, if any,
    is cleared and a new one is armed for [presenceTimeout] ms. *)
Definition resetPresenceTimer (now : Q) (s : t) : t :=
  set_presenceTimer
    (Some {| armedAt := now; delay := presenceTimeout (cfg s) |}) s.

(** [checkPresenceLogic()], called at time [now]. *)
Definition checkPresenceLogic (now : Q) (s : t) : t * list event :=
  let isWithinRange :=
    JS.le (smoothedDistance s) (detectionDistance (cfg s)) in
  if isWithinRange && negb (objectPresent s) then
    let s1 := set_objectPresent true s in
    (resetPresenceTimer now s1,
     [PresenceDetected (smoothedDistance s1) (detectionDistance (cfg s1))
        false])
  else if isWithinRange && objectPresent s then
    (resetPresenceTimer now s, [])
  else (s, []).

(** The callback armed by [resetPresenceTimer]. *)
Definition presenceTimerFired (s : t) : t * list event :=
  (set_presenceTimer None (set_objectPresent false s),
   [PresenceTimeout false]).

(** [forcePresenceDetection()]. *)
Definition forcePresenceDetection (now : Q) (s : t) : t * list event :=
  if negb (objectPresent s) then
    let s1 := set_objectPresent true s in
    (resetPresenceTimer now s1,
     [PresenceDetected (smoothedDistance s1) (detectionDistance (cfg s1))
        true])
  else (s, []).

(** [forcePresenceTimeout()]. *)
Definition forcePresenceTimeout (s : t) : t * list event :=
  if objectPresent s then
    (set_presenceTimer None (set_objectPresent false s),
     [PresenceTimeout true])
  else (s, []).

Definition with_detectionDistance (d : Q) (c : config) : config := {|
  detectionDistance := d;
  presenceTimeout := presenceTimeout c;
  distanceCheckInterval := distanceCheckInterval c;
  potentiometerPollingInterval := potentiometerPollingInterval c;
  potentiometerThreshold := potentiometerThreshold c;
  distanceSmoothing := distanceSmoothing c;
  smoothingFactor := smoothingFactor c;
  minValidDistance := minValidDistance c;
  maxValidDistance := maxValidDistance c;
  debugMode := debugMode c
|}.

Definition with_presenceTimeout (ms : JS.number) (c : config) : config := {|
  detectionDistance := detectionDistance c;
  presenceTimeout := ms;
  distanceCheckInterval := distanceCheckInterval c;
  potentiometerPollingInterval := potentiometerPollingInterval c;
  potentiometerThreshold := potentiometerThreshold c;
  distanceSmoothing := distanceSmoothing c;
  smoothingFactor := smoothingFactor c;
  minValidDistance := minValidDistance c;
  maxValidDistance := maxValidDistance c;
  debugMode := debugMode c
|}.

(** [setDetectionDistance(distance)].  The call it makes on the GPIO
    controller it was initialized with is made by the caller's model, which
    holds that controller. *)
Definition setDetectionDistance (distance : Q) (s : t) : t * list event :=
  let d := JS.Math_max 10 (JS.Math_min 400 distance) in
  (set_cfg (with_detectionDistance d (cfg s)) s,
   [DetectionDistanceChanged d]).

(** [setPresenceTimeout(timeout)]. *)
Definition setPresenceTimeout (timeout : JS.number) (s : t)
  : t * list event :=
  let ms := JS.Math_max_number 1000 timeout in
  (set_cfg (with_presenceTimeout ms (cfg s)) s,
   [PresenceTimeoutChanged ms]).

(** The configuration but for the two properties that have a setter. *)
Definition fixedPart (c : config) : config :=
  with_presenceTimeout (JS.Finite 0) (with_detectionDistance 0 c).

(** *** The sensor manager on the event loop

    What reaches a sensor manager: a [distanceChanged] event of the GPIO
    controller, a tick of the [setInterval] that calls
    [checkPresenceLogic], time passing (during which the armed presence
    timer may come due and run its callback), the two test hooks, and the
    two setters. *)
Inductive input :=
| Reading (rawDistance : Q)
| Check
| Elapse (dt : Q)
| ForceDetection
| ForceTimeout
| SetDetectionDistance (distance : Q)
| SetPresenceTimeout (timeout : JS.number).

(** The clock (ms), the manager, and the events emitted so far, each with
    the time of its emission. *)
Record world := {
  clock : Q;
  sm : t;
  emitted : list (Q * event)
}.

Definition stamp (now : Q) (evs : list event) : list (Q * event) :=
  map (fun e => (now, e)) evs.

Definition after (w : world) (now : Q) (r : t * list event) : world :=
  {| clock := now; sm := fst r;
     emitted := emitted w ++ stamp now (snd r) |}.

Definition step (w : world) (i : input) : world :=
  match i with
  | Reading d => after w (clock w) (handleDistanceChange d (sm w))
  | Check => after w (clock w) (checkPresenceLogic (clock w) (sm w))
  | ForceDetection =>
      after w (clock w) (forcePresenceDetection (clock w) (sm w))
  | ForceTimeout => after w (clock w) (forcePresenceTimeout (sm w))
  | SetDetectionDistance distance =>
      after w (clock w) (setDetectionDistance distance (sm w))
  | SetPresenceTimeout timeout =>
      after w (clock w) (setPresenceTimeout timeout (sm w))
  | Elapse dt =>
      let now := clock w + dt in
      match presenceTimer (sm w) with
      | Some tm =>
          if JS.le (deadline tm) now then
            {| clock := now;
               sm := fst (presenceTimerFired (sm w));
               emitted :=
                 emitted w
                 ++ stamp (Qmax (clock w) (deadline tm))
                      (snd (presenceTimerFired (sm w))) |}
          else {| clock := now; sm := sm w; emitted := emitted w |}
      | None => {| clock := now; sm := sm w; emitted := emitted w |}
      end
  end.

Definition run (w : world) (ins : list input) : world :=
  fold_left step ins w.

(** A freshly constructed manager at time 0. *)
Definition boot (o : options) : world :=
  {| clock := 0; sm := new o; emitted := [] |}.

(** The options object [{}]. *)
Definition no_options : options := {|
  o_detectionDistance := None; o_presenceTimeout := None;
  o_distanceCheckInterval := None;
  o_potentiometerPollingInterval := None;
  o_potentiometerThreshold := None; o_distanceSmoothing := None;
  o_smoothingFactor := None; o_minValidDistance := None;
  o_maxValidDistance := None; o_debugMode := None
|}.

(** Observers used in the statements. *)

(** [valid s d]: the reading [d] passes the range test of
    [handleDistanceChange]. *)
Definition valid (s : t) (d : Q) : Prop :=
  minValidDistance (cfg s) <= d /\ d <= maxValidDistance (cfg s).

Definition isPresenceDetected (e : event) : bool :=
  match e with PresenceDetected _ _ _ => true | _ => false end.

Definition isPresenceTimeout (e : event) : bool :=
  match e with PresenceTimeout _ => true | _ => false end.

Definition emitsPresenceDetected (evs : list event) : Prop :=
  existsb isPresenceDetected evs = true.

(** No [presenceTimeout] among time-stamped events. *)
Definition noPresenceTimeout (evs : list (Q * event)) : bool :=
  forallb (fun p => negb (isPresenceTimeout (snd p))) evs.

Definition withinRange (s : t) : bool :=
  JS.le (smoothedDistance s) (detectionDistance (cfg s)).

(** What [resetPresenceTimer] does when it runs at the state [w]: the
    timer it arms. *)
Definition armed (w : world) : timer :=
  {| armedAt := clock w; delay := presenceTimeout (cfg (sm w)) |}.

(** The timer that [resetPresenceTimer] armed when it last ran along a
    run: at an in-range [Check], or at a [ForceDetection] that took
    effect. *)
Fixpoint lastReset (w : world) (ins : list input) (acc : option timer)
  : option timer :=
  match ins with
  | [] => acc
  | i :: rest =>
      let acc' :=
        match i with
        | Check => if withinRange (sm w) then Some (armed w) else acc
        | ForceDetection =>
            if objectPresent (sm w) then acc else Some (armed w)
        | _ => acc
        end in
      lastReset (step w i) rest acc'
  end.

(** Pacing of a run from the state [w] on: each presence check comes
    before the timer armed at the check before it is due.  [P] is the delay
    of that timer as Node takes it, [since] the time elapsed since that
    check; the elapsed time must stay below [P], and time never runs
    backwards.  A [Check] starts anew, with the delay of the timeout
    configured at that moment.  [forcePresenceTimeout] does not occur. *)
Fixpoint paced (P since : Q) (w : world) (ins : list input) : bool :=
  match ins with
  | [] => true
  | i :: rest =>
      match i with
      | Elapse dt =>
          JS.le 0 dt && JS.lt (since + dt) P
          && paced P (since + dt) (step w i) rest
      | Check =>
          paced (JS.timerDelay (presenceTimeout (cfg (sm w)))) 0
            (step w i) rest
      | ForceTimeout => false
      | _ => paced P since (step w i) rest
      end
  end.

(** Checks less than [P] ms apart: only readings, checks and the passing
    of time occur, [since] is the time elapsed since the last check, and
    time never runs backwards. *)
Fixpoint checksWithin (P since : Q) (ins : list input) : bool :=
  match ins with
  | [] => true
  | Reading _ :: rest => checksWithin P since rest
  | Check :: rest => checksWithin P 0 rest
  | Elapse dt :: rest =>
      JS.le 0 dt && JS.lt (since + dt) P
      && checksWithin P (since + dt) rest
  | _ => false
  end.

(** No [setPresenceTimeout] among the inputs. *)
Definition keepsPresenceTimeout (ins : list input) : bool :=
  forallb
    (fun i => match i with SetPresenceTimeout _ => false | _ => true end)
    ins.

(** The object is present and the presence timer is armed, with at least
    [P - since] ms left. *)
Definition armedFor (P since : Q) (w : world) : Prop :=
  objectPresent (sm w) = true
  /\ exists tm, presenceTimer (sm w) = Some tm
               /\ clock w + (P - since) <= deadline tm.

(** The armed timer, if any, is the one armed at the last reset. *)
Definition timerTracks (w : world) (acc : option timer) : Prop :=
  forall tm, presenceTimer (sm w) = Some tm -> acc = Some tm.

(** The smoothed distance is within the detection distance in every
    state the run goes through. *)
Fixpoint staysWithinRange (w : world) (ins : list input) : bool :=
  withinRange (sm w)
  && match ins with
     | [] => true
     | i :: rest => staysWithinRange (step w i) rest
     end.

(** The number of emitted events that satisfy [p]. *)
Definition countEvents (p : event -> bool) (evs : list (Q * event)) : nat :=
  length (List.filter (fun e => p (snd e)) evs).

(** The presence is on exactly while the timer is armed, and as many
    detections have been emitted as timeouts, plus one while the presence
    is on. *)
Definition presenceBalanced (w : world) : Prop :=
  (objectPresent (sm w) = true <-> presenceTimer (sm w) <> None)
  /\ countEvents isPresenceDetected (emitted w)
     = (countEvents isPresenceTimeout (emitted w)
        + if objectPresent (sm w) then 1 else 0)%nat.

(** A method called at the current time of the world. *)
Definition call (f : t -> t * list event) (w : world) : world :=
  after w (clock w) (f (sm w)).

End SensorManager.

(** ** lib/gpio_controller.js, the HC-SR04 and NeoPixel version
       (rpi-ws281x-native, pixels in a [Uint32Array]) *)

Module GPIOController.

(** The fields the distance and LED methods read or write, and the
    detection distance of [this.config].  Ticks of the
    echo pin are integers (pigpio counts microseconds in 32 bits);
    [rendered] lists the frames handed to [ws281x.render], the latest last;
    [renderThrows] tells whether that library call throws. *)
Record t := {
  detectionDistance : Q;
  neopixelCount : nat;
  debugMode : bool;
  initialized : bool;
  mockMode : bool;
  currentLedIntensity : Q;
  currentDistance : Q;
  startTime : Z;
  endTime : Z;
  pixels : list Z;
  rendered : list (list Z);
  renderThrows : bool
}.

Inductive event :=
| DistanceChanged (distance : Q)
| Error.

Definition set_distance (d : Q) (g : t) : t :=
  {| detectionDistance := detectionDistance g;
     neopixelCount := neopixelCount g; debugMode := debugMode g;
     initialized := initialized g; mockMode := mockMode g;
     currentLedIntensity := currentLedIntensity g;
     currentDistance := d;
     startTime := startTime g; endTime := endTime g;
     pixels := pixels g; rendered := rendered g;
     renderThrows := renderThrows g |}.

Definition set_ticks (st en : Z) (g : t) : t :=
  {| detectionDistance := detectionDistance g;
     neopixelCount := neopixelCount g; debugMode := debugMode g;
     initialized := initialized g; mockMode := mockMode g;
     currentLedIntensity := currentLedIntensity g;
     currentDistance := currentDistance g;
     startTime := st; endTime := en;
     pixels := pixels g; rendered := rendered g;
     renderThrows := renderThrows g |}.

Definition set_intensity (x : Q) (g : t) : t :=
  {| detectionDistance := detectionDistance g;
     neopixelCount := neopixelCount g; debugMode := debugMode g;
     initialized := initialized g; mockMode := mockMode g;
     currentLedIntensity := x;
     currentDistance := currentDistance g;
     startTime := startTime g; endTime := endTime g;
     pixels := pixels g; rendered := rendered g;
     renderThrows := renderThrows g |}.

Definition set_pixels (px : list Z) (g : t) : t :=
  {| detectionDistance := detectionDistance g;
     neopixelCount := neopixelCount g; debugMode := debugMode g;
     initialized := initialized g; mockMode := mockMode g;
     currentLedIntensity := currentLedIntensity g;
     currentDistance := currentDistance g;
     startTime := startTime g; endTime := endTime g;
     pixels := px; rendered := rendered g;
     renderThrows := renderThrows g |}.

Definition set_detectionDistance (d : Q) (g : t) : t :=
  {| detectionDistance := d;
     neopixelCount := neopixelCount g; debugMode := debugMode g;
     initialized := initialized g; mockMode := mockMode g;
     currentLedIntensity := currentLedIntensity g;
     currentDistance := currentDistance g;
     startTime := startTime g; endTime := endTime g;
     pixels := pixels g; rendered := rendered g;
     renderThrows := renderThrows g |}.

Definition set_rendered (fr : list (list Z)) (g : t) : t :=
  {| detectionDistance := detectionDistance g;
     neopixelCount := neopixelCount g; debugMode := debugMode g;
     initialized := initialized g; mockMode := mockMode g;
     currentLedIntensity := currentLedIntensity g;
     currentDistance := currentDistance g;
     startTime := startTime g; endTime := endTime g;
     pixels := pixels g; rendered := fr;
     renderThrows := renderThrows g |}.

(** ToBoolean on an integer-valued number. *)
Definition truthyZ (n : Z) : bool := negb (n =? 0)%Z.

(** [(timeDiff * 34300) / (2 * 1000000)]. *)
Definition toCentimetres (timeDiff : Z) : Q :=
  inject_Z (timeDiff * 34300) / inject_Z (2 * 1000000).

(** [calculateDistance()], run by the echo interrupt at the falling edge. *)
Definition calculateDistance (g : t) : t * list event :=
  if truthyZ (startTime g) && truthyZ (endTime g) then
    let timeDiff := (endTime g - startTime g)%Z in
    let timeDiff :=
      if (timeDiff <? 0)%Z then (timeDiff + JS.shl 1 32)%Z else timeDiff in
    let distance := toCentimetres timeDiff in
    let '(g1, evs) :=
      if JS.le 2 distance && JS.le distance 400 then
        (set_distance distance g, [DistanceChanged distance])
      else (g, []) in
    (set_ticks 0 0 g1, evs)
  else (g, []).

(** The distance C8 gives for a pair of ticks: the difference taken
    modulo 2^32. *)
Definition wrappedDistance (st en : Z) : Q :=
  inject_Z (((en - st) mod 2 ^ 32) * 34300) / inject_Z 2000000.

(** [ws281x.render(this.pixels)]: [None] when the call throws. *)
Definition render (g : t) : option t :=
  if renderThrows g then None
  else Some (set_rendered (rendered g ++ [pixels g]) g).

(** A store into a [Uint32Array]: the value is reduced modulo 2^32 and a
    store past the end is ignored. *)
Definition typed_set (i : nat) (v : Z) (px : list Z) : list Z :=
  <[i := (v mod 2 ^ 32)%Z]> px.

(** [clearAllLEDs()]: [this.pixels.fill(0)], then render; an exception is
    logged only. *)
Definition clearAllLEDs (g : t) : t :=
  if negb (initialized g) || mockMode g then g
  else
    let g1 := set_pixels (replicate (length (pixels g)) 0%Z) g in
    match render g1 with
    | Some g2 => g2
    | None => g1
    end.

(** The colour word [(r << 16) | (g << 8) | b]. *)
Definition colorWord (r g b : Z) : Z :=
  JS.bor (JS.bor (JS.shl r 16) (JS.shl g 8)) b.

(** [Math.round((channel * intensity) / 100)]. *)
Definition scaled (channel : Z) (intensity : Q) : Z :=
  JS.Math_round (inject_Z channel * intensity / 100).

(** [setStripColor(red, green, blue, intensity)]. *)
Definition setStripColor (red green blue : Z) (intensity : Q) (g : t)
  : t * list event :=
  if negb (initialized g) || mockMode g then (g, [])
  else
    let color :=
      colorWord (scaled red intensity) (scaled green intensity)
        (scaled blue intensity) in
    let px :=
      fold_left (fun px i => typed_set i color px)
        (seq 0 (neopixelCount g)) (pixels g) in
    let g1 := set_pixels px g in
    match render g1 with
    | Some g2 => (g2, [])
    | None => (g1, [Error])
    end.

(** [setLEDIntensity(intensity)]. *)
Definition setLEDIntensity (intensity : Q) (g : t) : t * list event :=
  if negb (initialized g) then (g, [])
  else
    let clampedIntensity := JS.Math_max 0 (JS.Math_min 100 intensity) in
    let g1 := set_intensity clampedIntensity g in
    if mockMode g1 then (g1, [])
    else if Qeq_bool clampedIntensity 0 then (clearAllLEDs g1, [])
    else setStripColor 255 255 255 clampedIntensity g1.

(** [setDetectionDistance(distance)]. *)
Definition setDetectionDistance (distance : Q) (g : t) : t :=
  set_detectionDistance (JS.Math_max 10 (JS.Math_min 400 distance)) g.

(** [isObjectDetected()]. *)
Definition isObjectDetected (g : t) : bool :=
  JS.le (currentDistance g) (detectionDistance g).

(** [turnOffLEDs()]. *)
Definition turnOffLEDs (g : t) : t * list event := setLEDIntensity 0 g.

(** The pixel array [setupNeoPixelStrip] creates:
    [new Uint32Array(neopixelCount)]. *)
Definition stripSetUp (g : t) : Prop :=
  length (pixels g) = neopixelCount g.

(** The handler of the echo pin's interrupt, [(level, tick)]: a rising edge
    notes the tick, a falling edge notes it and computes the distance. *)
Definition onEchoInterrupt (level tick : Z) (g : t) : t * list event :=
  if (level =? 1)%Z then (set_ticks tick (endTime g) g, [])
  else calculateDistance (set_ticks (startTime g) tick g).

(** [testLEDs(intensity, duration)], with nothing else running between its
    steps: red, green, blue, white, then off.  The waits of
    [duration / 5] ms between the steps are not modelled. *)
Definition testLEDs (intensity : Q) (g : t) : t * list event :=
  if mockMode g then (g, [])
  else
    let '(g1, e1) := setStripColor 255 0 0 intensity g in
    let '(g2, e2) := setStripColor 0 255 0 intensity g1 in
    let '(g3, e3) := setStripColor 0 0 255 intensity g2 in
    let '(g4, e4) := setStripColor 255 255 255 intensity g3 in
    (clearAllLEDs g4, e1 ++ e2 ++ e3 ++ e4).

(** The calls that drive the strip. *)
Inductive ledCall :=
| SetLEDIntensity (intensity : Q)
| SetStripColor (red green blue : Z) (intensity : Q)
| ClearAllLEDs
| TurnOffLEDs
| TestLEDs (intensity : Q).

Definition ledStep (g : t) (c : ledCall) : t :=
  match c with
  | SetLEDIntensity x => fst (setLEDIntensity x g)
  | SetStripColor r gr b x => fst (setStripColor r gr b x g)
  | ClearAllLEDs => clearAllLEDs g
  | TurnOffLEDs => fst (turnOffLEDs g)
  | TestLEDs x => fst (testLEDs x g)
  end.

Definition ledRun (g : t) (cs : list ledCall) : t := fold_left ledStep cs g.

(** The strip shows the pixel array: the last frame rendered, if any frame
    was, is the array as it is now. *)
Definition stripInSync (g : t) : Prop :=
  rendered g = [] \/ last (rendered g) = Some (pixels g).

(** What a call that drives the strip keeps: the flags, the number of
    pixels, the length of the array, and, when rendering does not throw,
    the strip in sync with the array. *)
Definition ledKeeps (g g' : t) : Prop :=
  initialized g' = initialized g
  /\ mockMode g' = mockMode g
  /\ neopixelCount g' = neopixelCount g
  /\ renderThrows g' = renderThrows g
  /\ length (pixels g') = length (pixels g)
  /\ (renderThrows g = false -> stripInSync g -> stripInSync g').

(** [setupNeoPixelStrip()]: the array is created, zeroed, and
    [clearAllLEDs()] is called.  ([ws281x.init] is taken not to throw.) *)
Definition setupNeoPixelStrip (g : t) : t :=
  clearAllLEDs (set_pixels (replicate (neopixelCount g) 0%Z) g).

Definition set_initialized (b : bool) (g : t) : t :=
  {| detectionDistance := detectionDistance g;
     neopixelCount := neopixelCount g; debugMode := debugMode g;
     initialized := b; mockMode := mockMode g;
     currentLedIntensity := currentLedIntensity g;
     currentDistance := currentDistance g;
     startTime := startTime g; endTime := endTime g;
     pixels := pixels g; rendered := rendered g;
     renderThrows := renderThrows g |}.

(** [initialize()], when the hardware set-up does not throw: in mock mode
    only the flag is set (the interval that emits mock readings is not
    modelled); otherwise the sensor, the strip and the ADC are set up
    first. *)
Definition initialize (g : t) : t :=
  if mockMode g then set_initialized true g
  else set_initialized true (setupNeoPixelStrip g).

End GPIOController.

(** ** lib/gpio_controller.js, the version for the new rpi-ws281x API
       (pixels in an [Array] of [{r, g, b}] objects) *)

Module GPIOControllerV2.

(** An entry of [this.pixels]: the number the mock strip is filled with, or
    a colour object. *)
Inductive pixel :=
| Num (n : Z)
| Rgb (r g b : Z).

Record t := {
  neopixelCount : nat;
  debugMode : bool;
  initialized : bool;
  mockMode : bool;
  neopixelMockMode : bool;
  currentLedIntensity : Q;
  currentDistance : Q;
  startTime : Z;
  endTime : Z;
  pixels : list pixel;
  rendered : list (list pixel);
  renderThrows : bool
}.

Inductive event :=
| DistanceChanged (distance : Q)
| Error.

Definition set_distance (d : Q) (g : t) : t :=
  {| neopixelCount := neopixelCount g; debugMode := debugMode g;
     initialized := initialized g; mockMode := mockMode g;
     neopixelMockMode := neopixelMockMode g;
     currentLedIntensity := currentLedIntensity g;
     currentDistance := d;
     startTime := startTime g; endTime := endTime g;
     pixels := pixels g; rendered := rendered g;
     renderThrows := renderThrows g |}.

Definition set_ticks (st en : Z) (g : t) : t :=
  {| neopixelCount := neopixelCount g; debugMode := debugMode g;
     initialized := initialized g; mockMode := mockMode g;
     neopixelMockMode := neopixelMockMode g;
     currentLedIntensity := currentLedIntensity g;
     currentDistance := currentDistance g;
     startTime := st; endTime := en;
     pixels := pixels g; rendered := rendered g;
     renderThrows := renderThrows g |}.

Definition set_intensity (x : Q) (g : t) : t :=
  {| neopixelCount := neopixelCount g; debugMode := debugMode g;
     initialized := initialized g; mockMode := mockMode g;
     neopixelMockMode := neopixelMockMode g;
     currentLedIntensity := x;
     currentDistance := currentDistance g;
     startTime := startTime g; endTime := endTime g;
     pixels := pixels g; rendered := rendered g;
     renderThrows := renderThrows g |}.

Definition set_pixels (px : list pixel) (g : t) : t :=
  {| neopixelCount := neopixelCount g; debugMode := debugMode g;
     initialized := initialized g; mockMode := mockMode g;
     neopixelMockMode := neopixelMockMode g;
     currentLedIntensity := currentLedIntensity g;
     currentDistance := currentDistance g;
     startTime := startTime g; endTime := endTime g;
     pixels := px; rendered := rendered g;
     renderThrows := renderThrows g |}.

Definition set_rendered (fr : list (list pixel)) (g : t) : t :=
  {| neopixelCount := neopixelCount g; debugMode := debugMode g;
     initialized := initialized g; mockMode := mockMode g;
     neopixelMockMode := neopixelMockMode g;
     currentLedIntensity := currentLedIntensity g;
     currentDistance := currentDistance g;
     startTime := startTime g; endTime := endTime g;
     pixels := pixels g; rendered := fr;
     renderThrows := renderThrows g |}.

(** [calculateDistance()]: the same text as in the other version. *)
Definition calculateDistance (g : t) : t * list event :=
  if GPIOController.truthyZ (startTime g)
     && GPIOController.truthyZ (endTime g) then
    let timeDiff := (endTime g - startTime g)%Z in
    let timeDiff :=
      if (timeDiff <? 0)%Z then (timeDiff + JS.shl 1 32)%Z else timeDiff in
    let distance := GPIOController.toCentimetres timeDiff in
    let '(g1, evs) :=
      if JS.le 2 distance && JS.le distance 400 then
        (set_distance distance g, [DistanceChanged distance])
      else (g, []) in
    (set_ticks 0 0 g1, evs)
  else (g, []).

Definition render (g : t) : option t :=
  if renderThrows g then None
  else Some (set_rendered (rendered g ++ [pixels g]) g).

(** [a[i] = v] on an [Array]: a store at the index [length] appends.  (A
    store further out would leave holes; the loops below store at 0, 1, 2,
    ... in turn, so that they never do.) *)
Definition array_set {A : Type} (i : nat) (v : A) (a : list A) : list A :=
  if (i <? length a)%nat then <[i := v]> a else a ++ [v].

(** The loop [for (i = 0; i < neopixelCount; i++) this.pixels[i] = v]. *)
Definition fillStrip (v : pixel) (g : t) : list pixel :=
  fold_left (fun px i => array_set i v px) (seq 0 (neopixelCount g))
    (pixels g).

(** [clearAllLEDs()]. *)
Definition clearAllLEDs (g : t) : t :=
  if negb (initialized g) || neopixelMockMode g then g
  else
    let g1 := set_pixels (fillStrip (Rgb 0 0 0) g) g in
    match render g1 with
    | Some g2 => g2
    | None => g1
    end.

(** [setStripColor(red, green, blue, intensity)]. *)
Definition setStripColor (red green blue : Z) (intensity : Q) (g : t)
  : t * list event :=
  if negb (initialized g) || neopixelMockMode g then (g, [])
  else
    let actual :=
      Rgb (GPIOController.scaled red intensity)
        (GPIOController.scaled green intensity)
        (GPIOController.scaled blue intensity) in
    let g1 := set_pixels (fillStrip actual g) g in
    match render g1 with
    | Some g2 => (g2, [])
    | None => (g1, [Error])
    end.

(** [setLEDIntensity(intensity)]. *)
Definition setLEDIntensity (intensity : Q) (g : t) : t * list event :=
  if negb (initialized g) then (g, [])
  else
    let clampedIntensity := JS.Math_max 0 (JS.Math_min 100 intensity) in
    let g1 := set_intensity clampedIntensity g in
    if neopixelMockMode g1 then (g1, [])
    else if Qeq_bool clampedIntensity 0 then (clearAllLEDs g1, [])
    else setStripColor 255 255 255 clampedIntensity g1.

(** [turnOffLEDs()]. *)
Definition turnOffLEDs (g : t) : t * list event := setLEDIntensity 0 g.

(** The pixel array [setupNeoPixelStrip] or [setupMockNeoPixelStrip]
    creates has [neopixelCount] entries. *)
Definition stripSetUp (g : t) : Prop :=
  length (pixels g) = neopixelCount g.

End GPIOControllerV2.

(** ** JSON values, and the configuration file *)

Module JSON.

(** What [JSON.parse] can return, and what [express.json()] puts in
    [req.body].  [JNum] is a finite number; [JInfinity] is [Infinity] or
    [-Infinity], which [JSON.parse] returns for a literal beyond the range
    of the doubles, such as [1e999]. *)
#[warnings="-register-all"] Inductive json :=
| JNull
| JBool (b : bool)
| JNum (n : Q)
| JInfinity (negative : bool)
| JStr (s : string)
| JArr (l : list json)
| JObj (m : gmap string json).

(** The result of a call that may throw; [Throw] carries [error.message]. *)
Inductive outcome (A : Type) :=
| Return (a : A)
| Throw (message : string).
Arguments Return {A} a.
Arguments Throw {A} message.

(** A text, as [JSON.parse] sees it: the value it denotes, or a syntax
    error. *)
Inductive text :=
| JsonText (j : json)
| Malformed.

(** The value that the text written by [JSON.stringify] denotes: the
    value itself, with [null] in the place of every infinite number. *)
Fixpoint written (j : json) : json :=
  match j with
  | JInfinity _ => JNull
  | JArr l => JArr (map written l)
  | JObj m => JObj (written <$> m)
  | _ => j
  end.

Definition stringify (j : json) : text := JsonText (written j).

(** The value holds no infinite number. *)
Fixpoint finite (j : json) : bool :=
  match j with
  | JInfinity _ => false
  | JArr l => forallb finite l
  | JObj m => map_fold (fun _ v acc => finite v && acc) true m
  | _ => true
  end.

(** The number of nodes of a value. *)
Fixpoint size (j : json) : nat :=
  match j with
  | JArr l => S (fold_right (fun v acc => (size v + acc)%nat) 0%nat l)
  | JObj m => S (map_fold (fun _ v acc => (size v + acc)%nat) 0%nat m)
  | _ => 1%nat
  end.

Definition parse (s : text) : outcome json :=
  match s with
  | JsonText j => Return j
  | Malformed => Throw "Unexpected token in JSON"
  end.

(** [typeof v], with [None] for [undefined]. *)
Definition typeof (v : option json) : string :=
  match v with
  | None => "undefined"
  | Some (JBool _) => "boolean"
  | Some (JNum _) => "number"
  | Some (JInfinity _) => "number"
  | Some (JStr _) => "string"
  | Some JNull => "object"
  | Some (JArr _) => "object"
  | Some (JObj _) => "object"
  end.

(** The own enumerable properties of a value, which is what the spread
    [{...v}] copies: the entries of an object, the elements of an array
    under their indices, nothing for [null], a boolean or a number.  (A
    string would spread into its characters; no string reaches a spread
    here.) *)
Definition ownProperties (v : json) : gmap string json :=
  match v with
  | JObj m => m
  | JArr l => list_to_map (imap (fun i x => (pretty i, x)) l)
  | _ => ∅
  end.

(** [v.hasOwnProperty(field)] for a field other than [length].  The
    method is found on the prototype, unless the value is
    [null] or an object with a property of that name of its own (parsed
    JSON holds no function): then the call throws. *)
Definition hasOwnProperty (v : json) (field : string) : outcome bool :=
  match v with
  | JNull =>
      Throw "Cannot read properties of null (reading 'hasOwnProperty')"
  | JObj m =>
      match m !! "hasOwnProperty" with
      | Some _ => Throw "config.hasOwnProperty is not a function"
      | None => Return (bool_decide (is_Some (m !! field)))
      end
  | _ => Return (bool_decide (is_Some (ownProperties v !! field)))
  end.

(** [v[field]], for a field that no prototype defines: the own property,
    or [undefined]. *)
Definition get (v : json) (field : string) : option json :=
  ownProperties v !! field.

End JSON.

(** ** The potentiometer: reading it, and the sensor manager's polling *)

Module Potentiometer.
Import JSON.

(** [GPIOController.readPotentiometer()] of the Uint32Array version:
    [random] is what [Math.random()] returns; [adc] is absent when there is
    no [adcController], and otherwise holds what its [read] calls back with,
    [reading.value] or an error. *)
Definition readPotentiometer (g : GPIOController.t) (random : Q)
    (adc : option (outcome Q)) : outcome Z :=
  if GPIOController.mockMode g then Return (Qfloor (random * 100))
  else
    match adc with
    | None => Return 50%Z
    | Some (Return value) => Return (JS.Math_round (value * 100))
    | Some (Throw msg) => Throw msg
    end.

Inductive event :=
| PotentiometerChanged (value : Q).





(** The potentiometer fields of the Array version of the controller. *)
Record adc := {
  mockMode : bool;
  neopixelMockMode : bool;
  adcReady : bool;
  adcType : string;
  lastPotValue : option json
}.

Inductive arduinoEvent :=
| ArduinoPotentiometerChanged (value : option json).

(** [handleArduinoData(data)]: a line from the Arduino.  A line that does
    not parse, or that is not an object, is ignored. *)
Definition handleArduinoData (data : text) (a : adc)
  : adc * list arduinoEvent :=
  match parse data with
  | Throw _ => (a, [])
  | Return message =>
      match get message "type" with
      | Some (JStr "potentiometer") =>
          ({| mockMode := mockMode a;
              neopixelMockMode := neopixelMockMode a;
              adcReady := adcReady a; adcType := adcType a;
              lastPotValue := get message "value" |},
           [ArduinoPotentiometerChanged (get message "value")])
      | _ => (a, [])
      end
  end.

(** ToBoolean on a JSON value ([None] is [undefined]). *)
Definition truthy (v : option json) : bool :=
  match v with
  | None => false
  | Some JNull => false
  | Some (JBool b) => b
  | Some (JNum n) => JS.truthy n
  | Some (JInfinity _) => true
  | Some (JStr s) => negb (String.eqb s "")
  | Some (JArr _) => true
  | Some (JObj _) => true
  end.

(** [readPotentiometer()] of the Array version: [python] is what
    [readADCValue()] resolved to, or the error it was rejected with. *)
Definition readPotentiometerV2 (a : adc) (random : Q) (python : outcome Q)
  : json :=
  if mockMode a || neopixelMockMode a
  then JNum (inject_Z (Qfloor (random * 100)))
  else if negb (adcReady a) then JNum 50
  else if String.eqb (adcType a) "arduino" then
    if truthy (lastPotValue a)
    then match lastPotValue a with Some v => v | None => JNum 50 end
    else JNum 50
  else
    match python with
    | Return value => JNum (inject_Z (JS.Math_round (value * 100)))
    | Throw _ => JNum 50
    end.

End Potentiometer.

(** ** node-helper.js: the configuration file and the POST /api/config
       handler *)

Module NodeHelper.
Import JSON.

(** The file at [this.configPath]. *)
Inductive file :=
| Missing
| Unreadable
| Readable (content : text).

(** How [fs.writeFileSync] fails, if it does, with the message of the
    error it throws.  It opens the file with the flag [w], which truncates
    it, and then writes: when the opening fails (EACCES, EISDIR) the file is
    left as it was; when the writing fails (ENOSPC, EIO) the file is left
    empty or with a part of the text. *)
Inductive writeFailure :=
| OpenFails (message : string)
| WriteFails (message : string).

(** [writeError]: the failure of [fs.writeFileSync], if it fails.  A file
    the process has written is one it can read. *)
Record disk := {
  configFile : file;
  writeError : option writeFailure
}.

Definition existsSync (d : disk) : bool :=
  match configFile d with
  | Missing => false
  | _ => true
  end.

Definition readFileSync (d : disk) : outcome text :=
  match configFile d with
  | Readable s => Return s
  | Unreadable => Throw "EACCES: permission denied"
  | Missing => Throw "ENOENT: no such file or directory"
  end.

(** [fs.writeFileSync(configPath, s)]: the disk it leaves, and whether it
    throws.  The texts written here are those of objects: no proper
    part of such a text, the empty one included, is a JSON text. *)
Definition writeFileSync (s : text) (d : disk) : disk * outcome unit :=
  match writeError d with
  | None => ({| configFile := Readable s; writeError := None |}, Return tt)
  | Some (OpenFails msg) => (d, Throw msg)
  | Some (WriteFails msg) =>
      ({| configFile := Readable Malformed; writeError := writeError d |},
       Throw msg)
  end.

(** The default configuration for the HC-SR04 setup. *)
Definition defaultConfiguration : json :=
  JObj (list_to_map [
    ("showWeather", JBool true);
    ("showTime", JBool true);
    ("showCalendar", JBool true);
    ("showCompliments", JBool false);
    ("ledIntensity", JNum 50);
    ("motionTimeout", JNum 30000);
    ("detectionDistance", JNum 100);
    ("distanceSmoothing", JBool true);
    ("debugMode", JBool false)]).

(** [loadConfiguration()]. *)
Definition loadConfiguration (d : disk) : json :=
  if existsSync d then
    match readFileSync d with
    | Return configData =>
        match parse configData with
        | Return config => config
        | Throw _ => defaultConfiguration
        end
    | Throw _ => defaultConfiguration
    end
  else defaultConfiguration.

(** [saveConfiguration(config)], at the time [now] (as
    [new Date().toISOString()] prints it). *)
Definition saveConfiguration (now : string) (config : json) (d : disk)
  : disk * outcome unit :=
  let configToSave :=
    JObj (<["lastUpdated" := JStr now]> (ownProperties config)) in
  writeFileSync (stringify configToSave) d.

(** The body of a [for (let field of fields)] loop that returns [false]
    from the function at the first own property failing [ok]:
    [Return true] means that the loop ran to its end. *)
Fixpoint checkFields (ok : json -> bool) (config : json)
    (fields : list string) : outcome bool :=
  match fields with
  | [] => Return true
  | field :: rest =>
      match hasOwnProperty config field with
      | Throw msg => Throw msg
      | Return false => checkFields ok config rest
      | Return true =>
          match get config field with
          | Some v =>
              if ok v then checkFields ok config rest else Return false
          | None => checkFields ok config rest
          end
      end
  end.

Definition isBoolean (v : json) : bool :=
  match v with JBool _ => true | _ => false end.

(** [typeof value === 'number' && !isNaN(value)]: no number of the model
    is NaN, and an infinite number is a number. *)
Definition isNumber (v : json) : bool :=
  match v with JNum _ => true | JInfinity _ => true | _ => false end.

(** [config.field !== undefined && (config.field < lo || config.field > hi)].
    (A property that is not a number never reaches this test: the loop
    over the numeric fields has returned.) *)
Definition outOfRange (config : json) (field : string) (lo hi : Q) : bool :=
  match get config field with
  | Some (JNum n) => JS.lt n lo || JS.lt hi n
  | Some (JInfinity _) => true
  | _ => false
  end.

Definition booleanFields : list string :=
  ["showWeather"; "showTime"; "showCalendar"; "showCompliments";
   "debugMode"].

Definition numericFields : list string :=
  ["ledIntensity"; "motionTimeout"; "detectionDistance"].

(** [validateConfiguration(config)]; [None] is [undefined]. *)
Definition validateConfiguration (config : option json) : outcome bool :=
  match config with
  | None => Return false
  | Some c =>
      if negb (String.eqb (typeof config) "object") then Return false
      else
        match checkFields isBoolean c booleanFields with
        | Throw msg => Throw msg
        | Return false => Return false
        | Return true =>
            match checkFields isNumber c numericFields with
            | Throw msg => Throw msg
            | Return false => Return false
            | Return true =>
                if outOfRange c "ledIntensity" 0 100 then Return false
                else if outOfRange c "detectionDistance" 10 400
                     then Return false
                     else Return true
            end
        end
  end.

Inductive notification :=
| CONFIG_UPDATED (config : json) (identifier : string)
| DETECTION_DISTANCE_CHANGED (distance : Q) (identifier : string)
| HARDWARE_ERROR (identifier : string).

(** The helper: the disk, the two hardware objects (absent until
    [initializeHardware]), the keys of [moduleInstances], the identifier
    the event listeners were set up with, and the notifications sent. *)
Record t := {
  fs : disk;
  sensorManager : option SensorManager.t;
  gpioController : option GPIOController.t;
  moduleInstances : list string;
  listenerIdentifier : string;
  objectPresent : bool;
  currentLedIntensity : Q;
  sent : list notification
}.

Record response := {
  status : nat;
  success : bool;
  message : string
}.

Definition set_fs (d : disk) (h : t) : t :=
  {| fs := d; sensorManager := sensorManager h;
     gpioController := gpioController h;
     moduleInstances := moduleInstances h;
     listenerIdentifier := listenerIdentifier h;
     objectPresent := objectPresent h;
     currentLedIntensity := currentLedIntensity h; sent := sent h |}.

Definition set_hardware (s : SensorManager.t) (g : GPIOController.t)
    (h : t) : t :=
  {| fs := fs h; sensorManager := Some s; gpioController := Some g;
     moduleInstances := moduleInstances h;
     listenerIdentifier := listenerIdentifier h;
     objectPresent := objectPresent h;
     currentLedIntensity := currentLedIntensity h; sent := sent h |}.

Definition set_currentLedIntensity (x : Q) (h : t) : t :=
  {| fs := fs h; sensorManager := sensorManager h;
     gpioController := gpioController h;
     moduleInstances := moduleInstances h;
     listenerIdentifier := listenerIdentifier h;
     objectPresent := objectPresent h;
     currentLedIntensity := x; sent := sent h |}.

Definition send (ns : list notification) (h : t) : t :=
  {| fs := fs h; sensorManager := sensorManager h;
     gpioController := gpioController h;
     moduleInstances := moduleInstances h;
     listenerIdentifier := listenerIdentifier h;
     objectPresent := objectPresent h;
     currentLedIntensity := currentLedIntensity h;
     sent := sent h ++ ns |}.

(** The listeners of [setupEventListeners] that the calls below can
    trigger. *)
Definition onSensorEvent (id : string) (e : SensorManager.event)
  : list notification :=
  match e with
  | SensorManager.DetectionDistanceChanged d =>
      [DETECTION_DISTANCE_CHANGED d id]
  | _ => []
  end.

(** An [error] of the GPIO controller reaches the helper's listener on
    the controller and, once [sensorManager.initialize] has installed the
    manager's own listener there ([reemitted]), which emits the error
    again on the manager, the helper's listener on the manager as well. *)
Definition onGpioEvent (id : string) (reemitted : bool)
    (e : GPIOController.event) : list notification :=
  match e with
  | GPIOController.Error =>
      HARDWARE_ERROR id :: (if reemitted then [HARDWARE_ERROR id] else [])
  | _ => []
  end.

(** [applyHardwareConfiguration(config)], for a configuration that has
    passed [validateConfiguration]: the three properties, when present, are
    numbers.  The sensor manager forwards the detection distance to the
    GPIO controller once it has been initialized with it. *)
Definition applyHardwareConfiguration (config : json) (h : t) : t :=
  match sensorManager h, gpioController h with
  | Some s, Some g =>
      let '(s1, g1, n1) :=
        match get config "detectionDistance" with
        | Some (JNum d) =>
            let '(s', evs) := SensorManager.setDetectionDistance d s in
            (s',
             if SensorManager.initialized s then
               GPIOController.setDetectionDistance
                 (SensorManager.detectionDistance (SensorManager.cfg s')) g
             else g,
             flat_map (onSensorEvent (listenerIdentifier h)) evs)
        | _ => (s, g, [])
        end in
      let '(s2, n2) :=
        match get config "motionTimeout" with
        | Some (JNum ms) =>
            let '(s', evs) :=
              SensorManager.setPresenceTimeout (JS.Finite ms) s1 in
            (s', flat_map (onSensorEvent (listenerIdentifier h)) evs)
        | Some (JInfinity negative) =>
            let '(s', evs) :=
              SensorManager.setPresenceTimeout (JS.Infinite negative) s1 in
            (s', flat_map (onSensorEvent (listenerIdentifier h)) evs)
        | _ => (s1, [])
        end in
      match get config "ledIntensity" with
      | Some (JNum x) =>
          let h1 := set_currentLedIntensity x h in
          if objectPresent h then
            let '(g2, evs) := GPIOController.setLEDIntensity x g1 in
            send (n1 ++ n2
                  ++ flat_map (onGpioEvent (listenerIdentifier h)
                                 (SensorManager.initialized s))
                       evs)
              (set_hardware s2 g2 h1)
          else send (n1 ++ n2) (set_hardware s2 g1 h1)
      | _ => send (n1 ++ n2) (set_hardware s2 g1 h)
      end
  | _, _ => h
  end.

(** The handler of [POST /api/config]: [body] is [req.body], [now] the
    time of the request. *)
Definition postConfig (now : string) (body : option json) (h : t)
  : t * response :=
  match validateConfiguration body with
  | Throw msg => (h, {| status := 500; success := false; message := msg |})
  | Return false =>
      (h, {| status := 400; success := false;
             message := "Invalid configuration format" |})
  | Return true =>
      match body with
      | None =>
          (* not reached: [undefined] does not validate *)
          (h, {| status := 400; success := false;
                 message := "Invalid configuration format" |})
      | Some newConfig =>
          match saveConfiguration now newConfig (fs h) with
          | (d, Throw msg) =>
              (set_fs d h,
               {| status := 500; success := false; message := msg |})
          | (d, Return _) =>
              let h1 := applyHardwareConfiguration newConfig (set_fs d h) in
              let h2 :=
                send (map (CONFIG_UPDATED newConfig) (moduleInstances h1))
                  h1 in
              (h2, {| status := 200; success := true;
                      message := "Configuration updated successfully" |})
          end
      end
  end.

End NodeHelper.

(** ** node_helper.js (the Python version): messages to the helper
       process *)

Module PythonHelper.
Import JSON.

(** What [stdin.write] was given: a JSON text followed by a newline. *)
Inductive chunk :=
| Line (s : text).

(** The child process, as far as the helper writes to it: the chunks
    written to its stdin, the latest last, and whether a write throws. *)
Record process := {
  stdin : list chunk;
  writeThrows : bool
}.

Record t := {
  pythonProcess : option process;
  pythonAppReady : bool
}.

(** The message: [data] is left out by [JSON.stringify] when [config] is
    [undefined]. *)
Definition configUpdate (now : string) (config : option json) : json :=
  JObj (list_to_map
          ([("type", JStr "config_update")]
           ++ match config with
              | Some c => [("data", c)]
              | None => []
              end
           ++ [("timestamp", JStr now)])).

(** [sendConfigurationToPython(config, identifier)] at the time [now]. *)
Definition sendConfigurationToPython (now : string) (config : option json)
    (h : t) : t * bool :=
  match pythonProcess h with
  | None => (h, false)
  | Some p =>
      if negb (pythonAppReady h) then (h, false)
      else if writeThrows p then (h, false)
      else
        ({| pythonProcess :=
              Some {| stdin :=
                        stdin p ++ [Line (stringify (configUpdate now config))];
                      writeThrows := writeThrows p |};
            pythonAppReady := pythonAppReady h |},
         true)
  end.

End PythonHelper.

(** ** mmm-infomirror.js: the module's DOM *)

Module InfoMirror.

(** The file exists in two versions with the same [getDom] up to the
    texts: the one that drives the hardware through the node helper, and
    the display-only one. *)
Inductive variant :=
| Hardware
| DisplayOnly.

(** An interpolated value of a template literal. *)
Inductive piece :=
| PStr (s : string)
| PNum (n : Q)
| PInt (z : Z).

(** The DOM.  Markup assigned to [innerHTML] is kept as the elements it
    parses to (white space between tags left out); interpolated strings are
    taken to hold no markup. *)
#[warnings="-register-all"] Inductive node :=
| Element (tag className : string) (display : option string)
    (children : list node)
| Text (content : list piece).

Definition el (tag className : string) (children : list node) : node :=
  Element tag className None children.

Definition txt (s : string) : node := Text [PStr s].

Record config := {
  showWeather : bool;
  showTime : bool;
  showCalendar : bool;
  showCompliments : bool;
  displayEnabled : bool;
  ready : bool;
  ledIntensity : Q;
  configPort : Q;
  debugMode : bool
}.

Record currentWeather := {
  condition : string;
  temperature : Q;
  humidity : Q;
  windSpeed : Q
}.

(** A truthy [weatherData]: its [current] may be missing. *)
Record weather := { current : option currentWeather }.

(** A calendar event: its title, and its start as [toLocaleTimeString]
    prints it. *)
Record calendarEvent := {
  title : string;
  startTime : string
}.

(** [this.currentTime], as its two formatting calls print it. *)
Record date := {
  localeTime : string;
  localeDate : string
}.

Record t := {
  cfg : config;
  loaded : bool;
  weatherData : option weather;
  calendarEvents : list calendarEvent;
  currentTime : date
}.

(** [createTimeDisplay()]. *)
Definition createTimeDisplay (m : t) : node :=
  el "div" "time-display"
    [el "div" "time" [txt (localeTime (currentTime m))];
     el "div" "date" [txt (localeDate (currentTime m))]].

Definition lowerChar (c : ascii) : ascii :=
  let n := nat_of_ascii c in
  if (65 <=? n)%nat && (n <=? 90)%nat then ascii_of_nat (n + 32) else c.

(** [toLowerCase()], on ASCII. *)
Fixpoint toLowerCase (s : string) : string :=
  match s with
  | EmptyString => EmptyString
  | String c rest => String (lowerChar c) (toLowerCase rest)
  end.

Definition iconMap (v : variant) : gmap string string :=
  list_to_map
    ([("clear", "wi-day-sunny"); ("sunny", "wi-day-sunny");
      ("cloudy", "wi-cloudy"); ("partly-cloudy", "wi-day-cloudy");
      ("rain", "wi-rain"); ("snow", "wi-snow"); ("fog", "wi-fog");
      ("wind", "wi-windy")]
     ++ match v with
        | Hardware => []
        | DisplayOnly =>
            [("thunderstorm", "wi-thunderstorm"); ("drizzle", "wi-sprinkle")]
        end).

(** [getWeatherIcon(condition)], as the template of
    [createWeatherDisplay] prints what it returns.  [iconMap] is an object
    literal: a name that it does not have is looked up in
    [Object.prototype], which has two properties with a name in lower
    case. *)
Definition getWeatherIcon (v : variant) (condition : string) : string :=
  let key := toLowerCase condition in
  match iconMap v !! key with
  | Some icon => icon
  | None =>
      if String.eqb key "constructor"
      then "function Object() { [native code] }"
      else if String.eqb key "__proto__" then "[object Object]"
      else "wi-day-sunny"
  end.

(** [createWeatherDisplay()]. *)
Definition createWeatherDisplay (v : variant) (m : t) : node :=
  el "div" "weather-display"
    match weatherData m with
    | Some {| current := Some c |} =>
        [el "div" "weather-icon"
           [el "i" ("wi " ++ getWeatherIcon v (condition c)) []];
         el "div" "weather-info"
           [el "div" "temperature"
              [Text [PInt (JS.Math_round (temperature c)); PStr "Â°"]];
            el "div" "condition" [txt (condition c)];
            el "div" "details"
              [Text [PStr "Humidity: "; PNum (humidity c);
                     PStr "% | Wind: "; PNum (windSpeed c);
                     PStr " km/h"]]]]
    | _ =>
        [el "div" "weather-loading"
           [el "i" "fa fa-cloud" []; el "div" "" [txt "Loading weather..."]]]
    end.

(** [createCalendarDisplay()]: at most three events. *)
Definition createCalendarDisplay (m : t) : node :=
  let upcomingEvents := take 3 (calendarEvents m) in
  el "div" "calendar-display"
    match upcomingEvents with
    | [] => []
    | _ =>
        el "div" "calendar-header" [txt "Upcoming Events"]
        :: map (fun event =>
                  el "div" "calendar-event"
                    [el "div" "event-time" [txt (startTime event)];
                     el "div" "event-title" [txt (title event)]])
             upcomingEvents
    end.

Definition compliments (v : variant) : list string :=
  ["You look great today!"; "Have a wonderful day!"; "You're amazing!";
   "Stay positive!"; "You've got this!"]
  ++ match v with
     | Hardware => []
     | DisplayOnly =>
         ["Ready to conquer the day!"; "You're unstoppable!";
          "Believe in yourself!"]
     end.

(** [createComplimentsDisplay()]; [random] is what [Math.random()] returns,
    a number in [0, 1). *)
Definition createComplimentsDisplay (v : variant) (random : Q) : node :=
  let index :=
    Qfloor (random * inject_Z (Z.of_nat (length (compliments v)))) in
  let randomCompliment :=
    match compliments v !! Z.to_nat index with
    | Some c => c
    | None => "undefined"
    end in
  el "div" "compliments-display" [el "div" "compliment" [txt randomCompliment]].

(** [createStatusDisplay()]. *)
Definition createStatusDisplay (v : variant) (m : t) : node :=
  el "div" "status-display"
    match v with
    | Hardware =>
        [el "div" "status-item"
           [Text [PStr "Hardware: ";
                  PStr (if ready (cfg m) then "Ready" else "Not Ready")]];
         el "div" "status-item"
           [Text [PStr "Motion: ";
                  PStr (if displayEnabled (cfg m) then "Active"
                        else "Inactive")]];
         el "div" "status-item"
           [Text [PStr "LED Intensity: "; PNum (ledIntensity (cfg m));
                  PStr "%"]]]
    | DisplayOnly =>
        [el "div" "status-item"
           [Text [PStr "System: ";
                  PStr (if ready (cfg m) then "Ready" else "Not Ready")]];
         el "div" "status-item"
           [Text [PStr "Display: ";
                  PStr (if displayEnabled (cfg m) then "Active"
                        else "Disabled")]];
         el "div" "status-item"
           [Text [PStr "Config Port: "; PNum (configPort (cfg m))]];
         el "div" "status-item" [txt "Hardware: Arduino Independent"]]
    end.

(** The markup shown while the module is not loaded. *)
Definition loadingMarkup (v : variant) : list node :=
  [el "div" "loading"
     ([el "i" "fa fa-cog fa-spin" [];
       el "div" "" [txt "Initializing InfoMirror..."]]
      ++ match v with
         | Hardware => []
         | DisplayOnly =>
             [el "small" ""
                [txt "Hardware controlled by Arduino independently"]]
         end)].

(** The markup the display-only module shows when the display is
    disabled. *)
Definition disabledMarkup : list node :=
  [el "div" "loading"
     [el "i" "fa fa-moon-o" [];
      el "div" "" [txt "Display Disabled"];
      el "small" "" [txt "Enable via configuration API"]]].

(** [getDom()]. *)
Definition getDom (v : variant) (random : Q) (m : t) : node :=
  if negb (loaded m) then
    Element "div" "mmm-infomirror" None (loadingMarkup v)
  else if negb (displayEnabled (cfg m)) then
    match v with
    | Hardware => Element "div" "mmm-infomirror" (Some "none") []
    | DisplayOnly => Element "div" "mmm-infomirror" None disabledMarkup
    end
  else
    let contentContainer :=
      el "div" "content-container"
        ((if showTime (cfg m) then [createTimeDisplay m] else [])
         ++ (if showWeather (cfg m)
                && bool_decide (is_Some (weatherData m))
             then [createWeatherDisplay v m] else [])
         ++ (if showCalendar (cfg m)
                && (0 <? length (calendarEvents m))%nat
             then [createCalendarDisplay m] else [])
         ++ (if showCompliments (cfg m)
             then [createComplimentsDisplay v random] else [])
         ++ (if debugMode (cfg m) then [createStatusDisplay v m] else []))
    in
    Element "div" "mmm-infomirror" None [contentContainer].

(** An element of the class [cls] occurs in the tree. *)
Fixpoint hasClass (cls : string) (n : node) : bool :=
  match n with
  | Element _ c _ children =>
      String.eqb c cls || existsb (hasClass cls) children
  | Text _ => false
  end.




(** Assignments to [this.config] and [this.loaded]. *)
Definition set_displayEnabled (b : bool) (c : config) : config := {|
  showWeather := showWeather c; showTime := showTime c;
  showCalendar := showCalendar c; showCompliments := showCompliments c;
  displayEnabled := b; ready := ready c;
  ledIntensity := ledIntensity c; configPort := configPort c;
  debugMode := debugMode c
|}.

Definition set_ready (b : bool) (c : config) : config := {|
  showWeather := showWeather c; showTime := showTime c;
  showCalendar := showCalendar c; showCompliments := showCompliments c;
  displayEnabled := displayEnabled c; ready := b;
  ledIntensity := ledIntensity c; configPort := configPort c;
  debugMode := debugMode c
|}.

Definition set_ledIntensity (x : Q) (c : config) : config := {|
  showWeather := showWeather c; showTime := showTime c;
  showCalendar := showCalendar c; showCompliments := showCompliments c;
  displayEnabled := displayEnabled c; ready := ready c;
  ledIntensity := x; configPort := configPort c;
  debugMode := debugMode c
|}.

Definition set_cfg (c : config) (m : t) : t :=
  {| cfg := c; loaded := loaded m; weatherData := weatherData m;
     calendarEvents := calendarEvents m; currentTime := currentTime m |}.

Definition set_loaded (b : bool) (m : t) : t :=
  {| cfg := cfg m; loaded := b; weatherData := weatherData m;
     calendarEvents := calendarEvents m; currentTime := currentTime m |}.

(** The socket notifications of the hardware helper that take part in the
    presence loop ([CONFIG_UPDATED], which copies arbitrary properties into
    [this.config], is left out); [OTHER] is any notification the [switch]
    has no case for, [DISTANCE_CHANGED] among them. *)
Inductive socketNotification :=
| HARDWARE_READY
| MOTION_DETECTED
| MOTION_TIMEOUT
| LIGHT_INTENSITY_CHANGED (intensity : Q)
| OTHER.

(** What the module sends to its helper in answer. *)
Inductive request :=
| UPDATE_LEDS (enabled : bool) (intensity : Q) (identifier : string).

(** [socketNotificationReceived(notification, payload)] of the module
    that drives the hardware, for the module instance [identifier];
    [payloadIdentifier] is [payload.identifier], [None] when it is
    [undefined]. *)
Definition socketNotificationReceived (identifier : string)
    (n : socketNotification) (payloadIdentifier : option string) (m : t)
  : t * list request :=
  let foreign :=
    match payloadIdentifier with
    | Some id => negb (String.eqb id identifier)
    | None => false
    end in
  if foreign then (m, [])
  else
    match n with
    | HARDWARE_READY =>
        (set_loaded true (set_cfg (set_ready true (cfg m)) m), [])
    | MOTION_DETECTED =>
        (set_cfg (set_displayEnabled true (cfg m)) m,
         [UPDATE_LEDS true (ledIntensity (cfg m)) identifier])
    | MOTION_TIMEOUT =>
        (set_cfg (set_displayEnabled false (cfg m)) m,
         [UPDATE_LEDS false 0 identifier])
    | LIGHT_INTENSITY_CHANGED intensity =>
        (set_cfg (set_ledIntensity intensity (cfg m)) m,
         if displayEnabled (cfg m)
         then [UPDATE_LEDS true intensity identifier] else [])
    | OTHER => (m, [])
    end.

End InfoMirror.

(** ** The presence loop: the helper's sensor listeners, the module's
       answer, and the helper's [updateLEDs] *)

Module PresenceLoop.

(** The notifications the sensor listeners of [setupEventListeners]
    send. *)
Inductive notification :=
| MOTION_DETECTED (identifier : string) (distance detectionDistance : Q)
| MOTION_TIMEOUT (identifier : string)
| DISTANCE_CHANGED (identifier : string) (rawDistance smoothedDistance : Q)
    (withinRange : bool)
| DETECTION_DISTANCE_CHANGED (distance : Q) (identifier : string).

(** The two fields of the helper that these listeners assign. *)
Record presence := {
  objectPresent : bool;
  currentDistance : Q
}.


(** The listeners that [setupEventListeners(identifier)] installs on the
    sensor manager, by event; [presenceTimeoutChanged] has none.  (The
    listeners for [potentiometerChanged] and [error] write neither of the
    two fields.) *)
Definition onSensorEvent (identifier : string) (e : SensorManager.event)
    (p : presence) : presence * list notification :=
  match e with
  | SensorManager.PresenceDetected distance detection _ =>
      ({| objectPresent := true; currentDistance := distance |},
       [MOTION_DETECTED identifier distance detection])
  | SensorManager.PresenceTimeout _ =>
      ({| objectPresent := false; currentDistance := currentDistance p |},
       [MOTION_TIMEOUT identifier])
  | SensorManager.DistanceUpdate raw smoothed withinRange =>
      ({| objectPresent := objectPresent p; currentDistance := smoothed |},
       if JS.lt 5 (Qabs (raw - smoothed))
       then [DISTANCE_CHANGED identifier raw smoothed withinRange]
       else [])
  | SensorManager.DetectionDistanceChanged distance =>
      (p, [DETECTION_DISTANCE_CHANGED distance identifier])
  | SensorManager.PresenceTimeoutChanged _ => (p, [])
  end.


Definition set_gpioController (g : GPIOController.t) (h : NodeHelper.t)
  : NodeHelper.t :=
  {| NodeHelper.fs := NodeHelper.fs h;
     NodeHelper.sensorManager := NodeHelper.sensorManager h;
     NodeHelper.gpioController := Some g;
     NodeHelper.moduleInstances := NodeHelper.moduleInstances h;
     NodeHelper.listenerIdentifier := NodeHelper.listenerIdentifier h;
     NodeHelper.objectPresent := NodeHelper.objectPresent h;
     NodeHelper.currentLedIntensity := NodeHelper.currentLedIntensity h;
     NodeHelper.sent := NodeHelper.sent h |}.

(** [updateLEDs(payload)] of the helper, with [payload.enabled] and
    [payload.intensity]. *)
Definition updateLEDs (enabled : bool) (intensity : Q) (h : NodeHelper.t)
  : NodeHelper.t :=
  match NodeHelper.gpioController h with
  | None => h
  | Some g =>
      let '(g', evs) :=
        if enabled then GPIOController.setLEDIntensity intensity g
        else GPIOController.turnOffLEDs g in
      NodeHelper.send
        (flat_map
           (NodeHelper.onGpioEvent (NodeHelper.listenerIdentifier h)
              (match NodeHelper.sensorManager h with
               | Some s => SensorManager.initialized s
               | None => false
               end))
           evs)
        (NodeHelper.set_currentLedIntensity
           (if enabled then intensity else 0)
           (set_gpioController g' h))
  end.

(** A notification as the module's handler sees it. *)
Definition toModule (n : notification)
  : InfoMirror.socketNotification * option string :=
  match n with
  | MOTION_DETECTED id _ _ => (InfoMirror.MOTION_DETECTED, Some id)
  | MOTION_TIMEOUT id => (InfoMirror.MOTION_TIMEOUT, Some id)
  | DISTANCE_CHANGED id _ _ _ => (InfoMirror.OTHER, Some id)
  | DETECTION_DISTANCE_CHANGED _ id => (InfoMirror.OTHER, Some id)
  end.

(** The helper's [socketNotificationReceived] on a request of the
    module. *)
Definition onRequest (h : NodeHelper.t) (r : InfoMirror.request)
  : NodeHelper.t :=
  match r with
  | InfoMirror.UPDATE_LEDS enabled intensity _ =>
      updateLEDs enabled intensity h
  end.

(** One notification goes to the module instance [identifier], and the
    requests it answers with go back to the helper. *)
Definition deliver (identifier : string) (n : notification)
    (mh : InfoMirror.t * NodeHelper.t) : InfoMirror.t * NodeHelper.t :=
  let '(m', requests) :=
    InfoMirror.socketNotificationReceived identifier (fst (toModule n))
      (snd (toModule n)) (fst mh) in
  (m', fold_left onRequest requests (snd mh)).

End PresenceLoop.

(** ** node_helper.js (the Python version): the configuration server *)

Module PythonServer.
Import JSON.

Inductive notification :=
| CONFIG_UPDATED (config : json) (identifier : string).

(** The helper: the child process and its readiness, [this.currentConfig],
    the disk, the keys of [moduleInstances], and the notifications sent. *)
Record t := {
  helper : PythonHelper.t;
  currentConfig : json;
  fs : NodeHelper.disk;
  moduleInstances : list string;
  sent : list notification
}.

Definition set_helper (p : PythonHelper.t) (h : t) : t :=
  {| helper := p; currentConfig := currentConfig h; fs := fs h;
     moduleInstances := moduleInstances h; sent := sent h |}.

Definition set_currentConfig (c : json) (h : t) : t :=
  {| helper := helper h; currentConfig := c; fs := fs h;
     moduleInstances := moduleInstances h; sent := sent h |}.

Definition set_fs (d : NodeHelper.disk) (h : t) : t :=
  {| helper := helper h; currentConfig := currentConfig h; fs := d;
     moduleInstances := moduleInstances h; sent := sent h |}.

Definition send (ns : list notification) (h : t) : t :=
  {| helper := helper h; currentConfig := currentConfig h; fs := fs h;
     moduleInstances := moduleInstances h; sent := sent h ++ ns |}.

(** The default configuration of this helper; [pythonAppPath] is
    [path.join(__dirname, 'python_app.py')]. *)
Definition defaultConfiguration (pythonAppPath : string) : json :=
  JObj (list_to_map [
    ("showWeather", JBool true);
    ("showTime", JBool true);
    ("showCalendar", JBool true);
    ("showCompliments", JBool false);
    ("ledIntensity", JNum 50);
    ("motionTimeout", JNum 30000);
    ("detectionDistance", JNum 100);
    ("debugMode", JBool false);
    ("pythonAppPath", JStr pythonAppPath);
    ("arduinoPort", JStr "/dev/ttyACM0")]).

(** [loadConfiguration()]. *)
Definition loadConfiguration (pythonAppPath : string) (d : NodeHelper.disk)
  : json :=
  if NodeHelper.existsSync d then
    match NodeHelper.readFileSync d with
    | Return configData =>
        match parse configData with
        | Return config => config
        | Throw _ => defaultConfiguration pythonAppPath
        end
    | Throw _ => defaultConfiguration pythonAppPath
    end
  else defaultConfiguration pythonAppPath.

(** [{ ...current, ...newConfig }]: the properties of [newConfig], and
    those of [current] that [newConfig] does not have.  ([current] is what
    [loadConfiguration] parsed or the result of an earlier merge; were it a
    string, the spread would copy its characters, which [ownProperties]
    leaves out.) *)
Definition merge (current newConfig : json) : json :=
  JObj (ownProperties newConfig ∪ ownProperties current).

(** The handler of [POST /api/config]: [body] is [req.body], [savedAt] and
    [sentAt] are the times at which the file is written and the message to
    the Python application is made.  [validateConfiguration] and
    [saveConfiguration] are, word for word, those of the hardware
    helper. *)
Definition postConfig (savedAt sentAt : string) (body : option json)
    (h : t) : t * NodeHelper.response :=
  match NodeHelper.validateConfiguration body with
  | Throw msg =>
      (h, {| NodeHelper.status := 500; NodeHelper.success := false;
             NodeHelper.message := msg |})
  | Return false =>
      (h, {| NodeHelper.status := 400; NodeHelper.success := false;
             NodeHelper.message := "Invalid configuration format" |})
  | Return true =>
      match body with
      | None =>
          (* not reached: [undefined] does not validate *)
          (h, {| NodeHelper.status := 400; NodeHelper.success := false;
                 NodeHelper.message := "Invalid configuration format" |})
      | Some newConfig =>
          let h1 :=
            set_currentConfig (merge (currentConfig h) newConfig) h in
          match NodeHelper.saveConfiguration savedAt (currentConfig h1)
                  (fs h1) with
          | (d, Throw msg) =>
              (set_fs d h1,
               {| NodeHelper.status := 500; NodeHelper.success := false;
                  NodeHelper.message := msg |})
          | (d, Return _) =>
              let h2 := set_fs d h1 in
              let h3 :=
                if PythonHelper.pythonAppReady (helper h2) then
                  set_helper
                    (fst (PythonHelper.sendConfigurationToPython sentAt
                            (Some newConfig) (helper h2)))
                    h2
                else h2 in
              (send (map (CONFIG_UPDATED newConfig) (moduleInstances h3)) h3,
               {| NodeHelper.status := 200; NodeHelper.success := true;
                  NodeHelper.message :=
                    "Configuration updated successfully" |})
          end
      end
  end.

End PythonServer.

(** * Properties *)

(** ** Sensor manager: smoothing *)

Section SensorManagerSmoothing.
Import SensorManager.

Lemma lt_false_iff (x y : Q) : JS.lt x y = false <-> y <= x.
Proof.
  unfold JS.lt. rewrite negb_false_iff. apply Qle_bool_iff.
Qed.

Lemma le_true_iff (x y : Q) : JS.le x y = true <-> x <= y.
Proof. apply Qle_bool_iff. Qed.

Lemma lt_true_iff (x y : Q) : JS.lt x y = true <-> x < y.
Proof.
  split.
  - intros H. apply Qnot_le_lt. intros Hle.
    apply lt_false_iff in Hle. congruence.
  - intros H. destruct (JS.lt x y) eqn:E; [reflexivity|].
    apply lt_false_iff in E. lra.
Qed.

Lemma valid_passes (s : t) (d : Q) :
  valid s d ->
  JS.lt d (minValidDistance (cfg s))
  || JS.lt (maxValidDistance (cfg s)) d = false.
Proof.
  intros [Hlo Hhi]. apply orb_false_iff. split; now apply lt_false_iff.
Qed.

(** An input changes the configuration only through the two setters:
    [setDetectionDistance] changes [detectionDistance],
    [setPresenceTimeout] changes [presenceTimeout]. *)
Lemma step_cfg (w : world) (i : input) :
  cfg (sm (step w i))
  = match i with
    | SetDetectionDistance d =>
        with_detectionDistance (JS.Math_max 10 (JS.Math_min 400 d))
          (cfg (sm w))
    | SetPresenceTimeout timeout =>
        with_presenceTimeout (JS.Math_max_number 1000 timeout) (cfg (sm w))
    | _ => cfg (sm w)
    end.
Proof.
  destruct i as [d| |dt| | |d|timeout]; cbn.
  - unfold handleDistanceChange.
    destruct (_ || _); [reflexivity|]. cbn.
    destruct (distanceSmoothing (cfg (sm w))); [|reflexivity].
    unfold applySmoothingFilter. cbn.
    now destruct (_ =? 1)%nat.
  - unfold checkPresenceLogic.
    destruct (_ && negb _); [reflexivity|].
    now destruct (_ && _).
  - destruct (presenceTimer (sm w)) as [tm|]; [|reflexivity].
    now destruct (JS.le _ _).
  - unfold forcePresenceDetection. now destruct (negb _).
  - unfold forcePresenceTimeout. now destruct (objectPresent _).
  - reflexivity.
  - reflexivity.
Qed.

Lemma step_fixedPart (w : world) (i : input) :
  fixedPart (cfg (sm (step w i))) = fixedPart (cfg (sm w)).
Proof. rewrite step_cfg. now destruct i. Qed.

Lemma run_fixedPart (ins : list input) (w : world) :
  fixedPart (cfg (sm (run w ins))) = fixedPart (cfg (sm w)).
Proof.
  revert w. induction ins as [|i ins IH]; intros w; [reflexivity|].
  cbn. unfold run in IH. rewrite IH. apply step_fixedPart.
Qed.

(** No input but [setPresenceTimeout] changes the presence timeout. *)
Lemma step_presenceTimeout (w : world) (i : input) :
  (forall timeout, i <> SetPresenceTimeout timeout) ->
  presenceTimeout (cfg (sm (step w i))) = presenceTimeout (cfg (sm w)).
Proof.
  intros H. rewrite step_cfg. destruct i; try reflexivity.
  now destruct (H timeout).
Qed.

Lemma new_distanceSmoothing (o : options) :
  distanceSmoothing (cfg (new o)) = true.
Proof. cbn. now destruct (o_distanceSmoothing o) as [[|]|]. Qed.

(** After a push onto a non-empty history, and the shift that may follow,
    the history never has length 1. *)
Lemma pushed_history_length (h : list Q) (d : Q) :
  h <> [] ->
  let pushed := h ++ [d] in
  (length (if (maxHistoryLength <? length pushed)%nat
           then tail pushed else pushed) =? 1)%nat = false.
Proof.
  intros Hne. cbn zeta. apply Nat.eqb_neq.
  destruct h as [|x h]; [congruence|].
  unfold maxHistoryLength. cbn [app tail length].
  destruct (5 <? S (length (h ++ [d])))%nat eqn:E.
  - apply Nat.ltb_lt in E. lia.
  - cbn. rewrite length_app. cbn. lia.
Qed.

(** A constructed manager keeps [distanceSmoothing] on through every run. *)
Lemma run_distanceSmoothing (o : options) (ins : list input) :
  distanceSmoothing (cfg (sm (run (boot o) ins))) = true.
Proof.
  change (distanceSmoothing
            (fixedPart (cfg (sm (run (boot o) ins)))) = true).
  rewrite run_fixedPart. apply new_distanceSmoothing.
Qed.

(** What [handleDistanceChange] does with a valid reading when smoothing
    is on. *)
Lemma handleDistanceChange_valid (s : t) (d : Q) :
  valid s d ->
  distanceSmoothing (cfg s) = true ->
  fst (handleDistanceChange d s)
  = set_smoothedDistance
      (snd (applySmoothingFilter d (set_currentDistance d s)))
      (fst (applySmoothingFilter d (set_currentDistance d s))).
Proof.
  intros Hv Hs. unfold handleDistanceChange.
  rewrite (valid_passes _ _ Hv). cbn [set_currentDistance cfg].
  rewrite Hs. now destruct (applySmoothingFilter _ _).
Qed.

Lemma applySmoothingFilter_first (s : t) (d : Q) :
  distanceHistory s = [] -> snd (applySmoothingFilter d s) = d.
Proof. intros H. unfold applySmoothingFilter. now rewrite H. Qed.

Lemma applySmoothingFilter_next (s : t) (d : Q) :
  distanceHistory s <> [] ->
  snd (applySmoothingFilter d s)
  = smoothingFactor (cfg s) * d
    + (1 - smoothingFactor (cfg s)) * JS.or (smoothedDistance s) d.
Proof.
  intros H. unfold applySmoothingFilter.
  now rewrite (pushed_history_length _ d H).
Qed.

Lemma or_nonzero (x y : Q) : ~ x == 0 -> JS.or x y = x.
Proof.
  intros H. unfold JS.or, JS.truthy.
  destruct (Qeq_bool x 0) eqn:E; [|reflexivity].
  now apply Qeq_bool_iff in E.
Qed.

Lemma or_zero (x y : Q) : x == 0 -> JS.or x y = y.
Proof.
  intros H. unfold JS.or, JS.truthy.
  now rewrite (Qeq_eq_bool _ _ H).
Qed.

(** C1, as the code has it.  With [distanceSmoothing] on (as it is in every
    constructed manager), [handleDistanceChange] treats a valid reading [d]
    as follows: the first reading of the history becomes the smoothed
    distance as it is; every later one gives
    [factor * d + (1 - factor) * previous], where [factor] is the configured
    [smoothingFactor] (0.3 when the constructor was given none) and
    [previous] is the smoothed distance before the call, unless that one is
    zero, in which case [d] stands in for it. *)
Theorem handleDistanceChange_smooths (s : t) (d : Q) :
  let s' := fst (handleDistanceChange d s) in
  let factor := smoothingFactor (cfg s) in
  valid s d ->
  distanceSmoothing (cfg s) = true ->
  (distanceHistory s = [] -> smoothedDistance s' = d)
  /\ (distanceHistory s <> [] -> ~ smoothedDistance s == 0 ->
      smoothedDistance s'
      = factor * d + (1 - factor) * smoothedDistance s)
  /\ (distanceHistory s <> [] -> smoothedDistance s == 0 ->
      smoothedDistance s' = factor * d + (1 - factor) * d)
  /\ (forall o : options,
        distanceSmoothing (cfg (new o)) = true
        /\ (o_smoothingFactor o = None ->
            smoothingFactor (cfg (new o)) = 3 # 10)).
Proof.
  intros s' factor Hv Hs. subst s'.
  rewrite (handleDistanceChange_valid _ _ Hv Hs).
  cbn [smoothedDistance set_smoothedDistance].
  split; [|split; [|split]].
  - intros H. now apply applySmoothingFilter_first.
  - intros H Hnz. rewrite applySmoothingFilter_next by exact H.
    cbn [set_currentDistance smoothedDistance cfg].
    now rewrite or_nonzero.
  - intros H Hz. rewrite applySmoothingFilter_next by exact H.
    cbn [set_currentDistance smoothedDistance cfg].
    now rewrite or_zero.
  - intros o. split; [apply new_distanceSmoothing|].
    intros H. cbn. now rewrite H.
Qed.

(** The theorem at work: default options, readings 80 then 50. *)
Lemma handleDistanceChange_smooths_witness :
  smoothedDistance
    (fst (handleDistanceChange 50
            (sm (run (boot no_options) [Reading 80]))))
  = (3 # 10) * 50 + (1 - (3 # 10)) * 80.
Proof.
  refine (proj1 (proj2
    (handleDistanceChange_smooths
       (sm (run (boot no_options) [Reading 80])) 50 _ _)) _ _).
  - split; vm_compute; discriminate.
  - reflexivity.
  - vm_compute. discriminate.
  - vm_compute. discriminate.
Defined.

(** C1 fails as it is worded.  With [minValidDistance: -10] a reading of 0
    is valid and becomes the smoothed distance; the next valid reading,
    100, is not the first of the history, yet the result is 100 and not
    0.3 * 100 + 0.7 * 0: the zero is replaced by the new reading. *)
Lemma smoothing_replaces_zero_previous :
  let o := {|
    o_detectionDistance := None; o_presenceTimeout := None;
    o_distanceCheckInterval := None;
    o_potentiometerPollingInterval := None;
    o_potentiometerThreshold := None; o_distanceSmoothing := None;
    o_smoothingFactor := None; o_minValidDistance := Some (- (10));
    o_maxValidDistance := None; o_debugMode := None |} in
  let s := sm (run (boot o) [Reading 0]) in
  let s' := fst (handleDistanceChange 100 s) in
  valid s 100
  /\ distanceHistory s = [0]
  /\ smoothedDistance s == 0
  /\ smoothedDistance s' == 100
  /\ ~ smoothedDistance s'
       == smoothingFactor (cfg s) * 100
          + (1 - smoothingFactor (cfg s)) * smoothedDistance s.
Proof.
  cbv zeta. repeat split; try (vm_compute; congruence).
Qed.

(** C9.  Whatever the options given to the constructor, also
    [distanceSmoothing: false], the setting the manager works with is
    [true]; it stays so through every run, so that a valid reading always
    goes through [applySmoothingFilter], and once the history is not empty
    the smoothed distance is the weighted sum and not the plain reading. *)
Theorem distanceSmoothing_cannot_be_disabled
    (o : options) (ins : list input) (d : Q) :
  distanceSmoothing (cfg (new o)) = true
  /\ let s := sm (run (boot o) ins) in
     distanceSmoothing (cfg s) = true
     /\ (valid s d ->
         fst (handleDistanceChange d s)
         = set_smoothedDistance
             (snd (applySmoothingFilter d (set_currentDistance d s)))
             (fst (applySmoothingFilter d (set_currentDistance d s))))
     /\ (valid s d -> distanceHistory s <> [] ->
         smoothedDistance (fst (handleDistanceChange d s))
         = smoothingFactor (cfg s) * d
           + (1 - smoothingFactor (cfg s))
             * JS.or (smoothedDistance s) d).
Proof.
  split; [apply new_distanceSmoothing|]. cbv zeta.
  pose proof (run_distanceSmoothing o ins) as Hs.
  split; [exact Hs|]. split.
  - intros Hv. now apply handleDistanceChange_valid.
  - intros Hv Hne. rewrite handleDistanceChange_valid by assumption.
    cbn [smoothedDistance set_smoothedDistance].
    now rewrite applySmoothingFilter_next.
Qed.

(** The option set to [false], and a reading after the first one. *)
Lemma distanceSmoothing_cannot_be_disabled_witness :
  let o := {|
    o_detectionDistance := None; o_presenceTimeout := None;
    o_distanceCheckInterval := None;
    o_potentiometerPollingInterval := None;
    o_potentiometerThreshold := None; o_distanceSmoothing := Some false;
    o_smoothingFactor := None; o_minValidDistance := None;
    o_maxValidDistance := None; o_debugMode := None |} in
  distanceSmoothing (cfg (new o)) = true
  /\ smoothedDistance
       (fst (handleDistanceChange 50 (sm (run (boot o) [Reading 80]))))
     = (3 # 10) * 50 + (1 - (3 # 10)) * JS.or 80 50.
Proof.
  cbv zeta.
  match goal with
  | |- distanceSmoothing (cfg (new ?o)) = _ /\ _ =>
      pose proof (distanceSmoothing_cannot_be_disabled
                    o [Reading 80] 50) as [H0 [_ [_ H]]]
  end.
  split; [exact H0|]. apply H.
  - split; vm_compute; discriminate.
  - vm_compute. discriminate.
Defined.

End SensorManagerSmoothing.

(** ** Sensor manager: presence *)

Section SensorManagerPresence.
Import SensorManager.

(** C2.  [checkPresenceLogic] emits [presenceDetected] exactly when the
    smoothed distance is at most [detectionDistance] and [objectPresent]
    was false; after such a call [objectPresent] is true and the presence
    timer is armed anew, for [presenceTimeout] ms from the time of the
    call. *)
Theorem checkPresenceLogic_presenceDetected (now : Q) (s : t) :
  let s' := fst (checkPresenceLogic now s) in
  let evs := snd (checkPresenceLogic now s) in
  (emitsPresenceDetected evs
   <-> smoothedDistance s <= detectionDistance (cfg s)
       /\ objectPresent s = false)
  /\ (emitsPresenceDetected evs ->
      evs = [PresenceDetected (smoothedDistance s)
               (detectionDistance (cfg s)) false]
      /\ objectPresent s' = true
      /\ presenceTimer s'
         = Some {| armedAt := now; delay := presenceTimeout (cfg s) |}).
Proof.
  cbv zeta. unfold checkPresenceLogic, emitsPresenceDetected.
  destruct (JS.le (smoothedDistance s) (detectionDistance (cfg s))) eqn:E;
    destruct (objectPresent s) eqn:P; cbn.
  - split; [split|]; try discriminate. intros [_ H]. discriminate.
  - apply le_true_iff in E. repeat split; auto.
  - split; [split|]; try discriminate. intros [_ H]. discriminate.
  - split; [split|]; try discriminate. intros [H _].
    apply le_true_iff in H. congruence.
Qed.

Lemma step_reading_presence (w : world) (d : Q) :
  objectPresent (sm (step w (Reading d))) = objectPresent (sm w)
  /\ presenceTimer (sm (step w (Reading d))) = presenceTimer (sm w)
  /\ clock (step w (Reading d)) = clock w
  /\ exists evs, emitted (step w (Reading d)) = emitted w ++ evs
                /\ noPresenceTimeout evs = true.
Proof.
  cbn. unfold handleDistanceChange.
  destruct (_ || _); cbn.
  - repeat split. exists []. now rewrite app_nil_r.
  - destruct (distanceSmoothing (cfg (sm w))); cbn.
    + unfold applySmoothingFilter. destruct (_ =? 1)%nat; cbn;
        repeat split; eexists; split; reflexivity.
    + repeat split; eexists; split; reflexivity.
Qed.

Lemma step_check_in_range (w : world) :
  withinRange (sm w) = true ->
  objectPresent (sm (step w Check)) = true
  /\ presenceTimer (sm (step w Check))
     = Some {| armedAt := clock w; delay := presenceTimeout (cfg (sm w)) |}
  /\ clock (step w Check) = clock w
  /\ exists evs, emitted (step w Check) = emitted w ++ evs
                /\ noPresenceTimeout evs = true.
Proof.
  intros H. cbn. unfold checkPresenceLogic. unfold withinRange in H.
  rewrite H. destruct (objectPresent (sm w)) eqn:E; cbn.
  - repeat split; auto. exists []. now rewrite app_nil_r.
  - repeat split. eexists; split; reflexivity.
Qed.

Lemma step_elapse_before_deadline (w : world) (dt : Q) (tm : timer) :
  presenceTimer (sm w) = Some tm ->
  clock w + dt < deadline tm ->
  step w (Elapse dt)
  = {| clock := clock w + dt; sm := sm w; emitted := emitted w |}.
Proof.
  intros Htm Hlt. cbn. rewrite Htm.
  destruct (JS.le (deadline tm) (clock w + dt)) eqn:E; [|reflexivity].
  apply le_true_iff in E. lra.
Qed.

Lemma noPresenceTimeout_app (a b : list (Q * event)) :
  noPresenceTimeout a = true -> noPresenceTimeout b = true ->
  noPresenceTimeout (a ++ b) = true.
Proof.
  unfold noPresenceTimeout. rewrite forallb_app. now intros -> ->.
Qed.

(** The inputs that, with the object present, leave the presence and
    its timer alone: a reading, a forced detection, the two setters. *)
Lemma step_quiet (w : world) (i : input) :
  objectPresent (sm w) = true ->
  match i with
  | Reading _ | ForceDetection | SetDetectionDistance _
  | SetPresenceTimeout _ => True
  | _ => False
  end ->
  objectPresent (sm (step w i)) = true
  /\ presenceTimer (sm (step w i)) = presenceTimer (sm w)
  /\ clock (step w i) = clock w
  /\ exists evs, emitted (step w i) = emitted w ++ evs
                /\ noPresenceTimeout evs = true.
Proof.
  intros Hp Hi. destruct i as [d| |dt| | |d|timeout]; try destruct Hi.
  - destruct (step_reading_presence w d) as (Eo & Et & Ec & He).
    rewrite Eo. auto.
  - cbn. unfold forcePresenceDetection. rewrite Hp. cbn.
    repeat split; auto. exists []. now rewrite app_nil_r.
  - cbn. repeat split; auto. eexists. split; reflexivity.
  - cbn. repeat split; auto. eexists. split; reflexivity.
Qed.

(** The invariant of a well-paced run that stays within range. *)
Lemma armedFor_run (ins : list input) (w : world) (P since : Q) :
  armedFor P since w ->
  staysWithinRange w ins = true ->
  paced P since w ins = true ->
  objectPresent (sm (run w ins)) = true
  /\ exists evs, emitted (run w ins) = emitted w ++ evs
                /\ noPresenceTimeout evs = true.
Proof.
  revert w P since.
  induction ins as [|i ins IH]; intros w P since Harm Hin Hp.
  - cbn. split; [apply Harm|]. exists []. now rewrite app_nil_r.
  - cbn [staysWithinRange] in Hin. apply andb_true_iff in Hin as [Hw Hin].
    destruct Harm as (Hobj & tm & Htm & Hleft).
    change (run w (i :: ins)) with (run (step w i) ins).
    assert (Hquiet :
      match i with
      | Reading _ | ForceDetection | SetDetectionDistance _
      | SetPresenceTimeout _ => True
      | _ => False
      end ->
      paced P since (step w i) ins = true ->
      objectPresent (sm (run (step w i) ins)) = true
      /\ exists evs, emitted (run (step w i) ins) = emitted w ++ evs
                    /\ noPresenceTimeout evs = true).
    { intros Hi Hp'.
      destruct (step_quiet w i Hobj Hi) as (Eo & Et & Ec & evs & Ee & Hn).
      destruct (IH (step w i) P since) as (Ho' & evs' & Ee' & Hn'); auto.
      { split; [exact Eo|]. exists tm. rewrite Et, Ec. auto. }
      split; [exact Ho'|]. exists (evs ++ evs').
      rewrite Ee', Ee, <- app_assoc. split; [reflexivity|].
      now apply noPresenceTimeout_app. }
    destruct i as [d| |dt| | |d|timeout]; cbn [paced] in Hp;
      try discriminate; try (apply Hquiet; [exact I|exact Hp]).
    + destruct (step_check_in_range w Hw) as (Eo & Et & Ec & evs & Ee & Hn).
      destruct (IH (step w Check)
                  (JS.timerDelay (presenceTimeout (cfg (sm w)))) 0)
        as (Ho' & evs' & Ee' & Hn'); auto.
      { split; [exact Eo|].
        eexists. split; [exact Et|]. unfold deadline. cbn [armedAt delay].
        rewrite Ec. lra. }
      split; [exact Ho'|]. exists (evs ++ evs').
      rewrite Ee', Ee, <- app_assoc. split; [reflexivity|].
      now apply noPresenceTimeout_app.
    + apply andb_true_iff in Hp as [Hp Hrest].
      apply andb_true_iff in Hp as [Hdt Hlt].
      apply le_true_iff in Hdt. unfold JS.lt in Hlt.
      apply negb_true_iff in Hlt.
      assert (Hlt' : since + dt < P).
      { destruct (Qlt_le_dec (since + dt) P) as [|Hle]; [assumption|].
        apply Qle_bool_iff in Hle. congruence. }
      assert (Hbefore : clock w + dt < deadline tm) by lra.
      rewrite (step_elapse_before_deadline w dt tm Htm Hbefore) in *.
      apply (IH {| clock := clock w + dt; sm := sm w;
                   emitted := emitted w |} P (since + dt)); auto.
      split; [assumption|].
      exists tm. split; [assumption|]. cbn [clock]. lra.
Qed.

(** How one input can take [objectPresent] from true to false. *)
Lemma step_loses_presence (w : world) (i : input) :
  objectPresent (sm w) = true ->
  objectPresent (sm (step w i)) = false ->
  i = ForceTimeout
  \/ exists dt tm, i = Elapse dt
       /\ presenceTimer (sm w) = Some tm
       /\ deadline tm <= clock w + dt
       /\ emitted (step w i)
          = emitted w
            ++ [(Qmax (clock w) (deadline tm), PresenceTimeout false)].
Proof.
  intros Hp Hl. destruct i as [d| |dt| | |d|timeout].
  - destruct (step_reading_presence w d) as (Eo & _). congruence.
  - exfalso. revert Hl. cbn. unfold checkPresenceLogic. rewrite Hp.
    destruct (JS.le _ _); cbn; congruence.
  - right. revert Hl. cbn.
    destruct (presenceTimer (sm w)) as [tm|] eqn:Etm; [|cbn; congruence].
    destruct (JS.le (deadline tm) (clock w + dt)) eqn:E; [|cbn; congruence].
    intros _. exists dt, tm. apply le_true_iff in E. now repeat split.
  - exfalso. revert Hl. cbn. unfold forcePresenceDetection. rewrite Hp.
    cbn. congruence.
  - now left.
  - exfalso. revert Hl. cbn. congruence.
  - exfalso. revert Hl. cbn. congruence.
Qed.

Lemma step_timerTracks (w : world) (i : input) (acc : option timer) :
  timerTracks w acc ->
  timerTracks (step w i) (lastReset w [i] acc).
Proof.
  intros H tm. destruct i as [d| |dt| | |d|timeout]; cbn [lastReset].
  - destruct (step_reading_presence w d) as (_ & Et & _). rewrite Et.
    apply H.
  - cbn. unfold checkPresenceLogic, withinRange.
    destruct (JS.le _ _); cbn.
    + destruct (objectPresent (sm w)); cbn; intros [= <-]; reflexivity.
    + apply H.
  - cbn. destruct (presenceTimer (sm w)) as [tm'|] eqn:Etm;
      [|cbn; congruence].
    destruct (JS.le _ _); cbn; [congruence|apply H].
  - cbn. unfold forcePresenceDetection.
    destruct (objectPresent (sm w)); cbn; [apply H|].
    intros [= <-]. reflexivity.
  - cbn. unfold forcePresenceTimeout.
    destruct (objectPresent (sm w)); cbn; [congruence|apply H].
  - cbn. apply H.
  - cbn. apply H.
Qed.

Lemma lastReset_cons (w : world) (i : input) (ins : list input)
    (acc : option timer) :
  lastReset w (i :: ins) acc = lastReset (step w i) ins (lastReset w [i] acc).
Proof. reflexivity. Qed.

Lemma run_timerTracks (ins : list input) (w : world) (acc : option timer) :
  timerTracks w acc ->
  timerTracks (run w ins) (lastReset w ins acc).
Proof.
  revert w acc. induction ins as [|i ins IH]; intros w acc H; [exact H|].
  rewrite lastReset_cons. change (run w (i :: ins)) with (run (step w i) ins).
  apply IH. now apply step_timerTracks.
Qed.

Lemma boot_timerTracks (o : options) : timerTracks (boot o) None.
Proof. intros tm. cbn. congruence. Qed.

(** C3, as the code has it.  The callback of the presence timer runs once
    the delay of the timer has passed, as Node's [setTimeout] takes it
    ([JS.timerDelay]): the delay in whole milliseconds, and 1 ms for a
    delay that is not between 1 and 2147483647.
    (1) An in-range presence check arms the timer anew, with the
        [presenceTimeout] configured at that moment, from the time of the
        check.
    (2) From an in-range check on, as long as the smoothed distance stays
        within [detectionDistance] and every check is followed by the next
        before the timer it armed is due, no [presenceTimeout] event is
        emitted and [objectPresent] stays true; readings, forced
        detections and the two setters may come in between.
    (3) In a run of a constructed manager, [objectPresent] goes from true
        to false only by [forcePresenceTimeout], or when time passes and
        the timer armed at the last reset (the last in-range check, or
        forced detection) is due: its delay, as Node takes it, lies between
        that reset and now.  A [setPresenceTimeout] after the reset does
        not change that timer. *)
Theorem presence_debounce :
  (forall w : world,
     withinRange (sm w) = true ->
     presenceTimer (sm (step w Check))
     = Some {| armedAt := clock w;
               delay := presenceTimeout (cfg (sm w)) |})
  /\ (forall (w : world) (ins : list input),
       staysWithinRange w (Check :: ins) = true ->
       paced (JS.timerDelay (presenceTimeout (cfg (sm w)))) 0
         (step w Check) ins = true ->
       objectPresent (sm (run w (Check :: ins))) = true
       /\ exists evs, emitted (run w (Check :: ins)) = emitted w ++ evs
                     /\ noPresenceTimeout evs = true)
  /\ (forall (o : options) (ins : list input) (i : input),
       let w := run (boot o) ins in
       objectPresent (sm w) = true ->
       objectPresent (sm (step w i)) = false ->
       i = ForceTimeout
       \/ exists dt tm, i = Elapse dt
            /\ lastReset (boot o) ins None = Some tm
            /\ presenceTimer (sm w) = Some tm
            /\ armedAt tm + JS.timerDelay (delay tm) <= clock w + dt).
Proof.
  split; [|split].
  - intros w H. now destruct (step_check_in_range w H) as (_ & Et & _).
  - intros w ins Hin Hp.
    pose proof Hin as Hin0. cbn [staysWithinRange] in Hin0.
    apply andb_true_iff in Hin0 as [Hw Hin'].
    destruct (step_check_in_range w Hw) as (Eo & Et & Ec & evs & Ee & Hn).
    change (run w (Check :: ins)) with (run (step w Check) ins).
    destruct (armedFor_run ins (step w Check)
                (JS.timerDelay (presenceTimeout (cfg (sm w)))) 0)
      as (Ho & evs' & Ee' & Hn'); auto.
    { split; [exact Eo|].
      eexists. split; [exact Et|]. unfold deadline. cbn [armedAt delay].
      rewrite Ec. lra. }
    split; [exact Ho|]. exists (evs ++ evs').
    rewrite Ee', Ee, <- app_assoc. split; [reflexivity|].
    now apply noPresenceTimeout_app.
  - intros o ins i w Hp Hl.
    destruct (step_loses_presence w i Hp Hl)
      as [->|(dt & tm & -> & Htm & Hdue & _)]; [now left|right].
    pose proof (run_timerTracks ins (boot o) None (boot_timerTracks o) tm Htm)
      as Hacc.
    exists dt, tm. split; [reflexivity|]. split; [exact Hacc|].
    split; [exact Htm|]. exact Hdue.
Qed.

(** The theorem at work with the default options: checks every 500 ms keep
    the presence, also when the timeout is set to 2000 ms in between;
    30000 ms without a check end it. *)
Lemma presence_debounce_witness :
  let w := run (boot no_options) [Reading 50] in
  let ins :=
    [Elapse 500; Check; Elapse 500; Reading 60;
     SetPresenceTimeout (JS.Finite 2000); Check; Elapse 1900] in
  objectPresent (sm (run w (Check :: ins))) = true
  /\ (Elapse 30000 = ForceTimeout
      \/ exists dt tm, Elapse 30000 = Elapse dt
           /\ lastReset (boot no_options) [Reading 50; Check] None = Some tm
           /\ presenceTimer (sm (run (boot no_options) [Reading 50; Check]))
              = Some tm
           /\ armedAt tm + JS.timerDelay (delay tm)
              <= clock (run (boot no_options) [Reading 50; Check]) + dt).
Proof.
  cbv zeta. split.
  - refine (proj1 (proj1 (proj2 presence_debounce) _ _ _ _));
      vm_compute; reflexivity.
  - refine (proj2 (proj2 presence_debounce) no_options
              [Reading 50; Check] (Elapse 30000) _ _);
      vm_compute; reflexivity.
Defined.

(** C3 fails as it is worded.  With [presenceTimeout: 100] and the checks
    500 ms apart, a reading of 50 cm and a check establish the presence and
    arm the timer for 100 ms; the timer fires at time 100, before the next
    check, although the smoothed distance (50) is within the detection
    distance (100) all the time. *)
Lemma presence_timeout_fires_within_range :
  let o := {|
    o_detectionDistance := None; o_presenceTimeout := Some 100;
    o_distanceCheckInterval := None;
    o_potentiometerPollingInterval := None;
    o_potentiometerThreshold := None; o_distanceSmoothing := None;
    o_smoothingFactor := None; o_minValidDistance := None;
    o_maxValidDistance := None; o_debugMode := None |} in
  let w := run (boot o) [Reading 50; Check] in
  objectPresent (sm w) = true
  /\ distanceCheckInterval (cfg (sm w)) = 500
  /\ staysWithinRange w [Elapse 500] = true
  /\ emitted (step w (Elapse 500))
     = emitted w ++ [(100, PresenceTimeout false)]
  /\ objectPresent (sm (step w (Elapse 500))) = false.
Proof.
  cbv zeta. repeat split; vm_compute; reflexivity.
Qed.

(** The same with a timeout too large for a timer: with
    [presenceTimeout: 3000000000] the timer armed by the check runs for
    1 ms, and the timeout is announced at time 1. *)
Example presence_timeout_overflows :
  let o := {|
    o_detectionDistance := None; o_presenceTimeout := Some 3000000000;
    o_distanceCheckInterval := None;
    o_potentiometerPollingInterval := None;
    o_potentiometerThreshold := None; o_distanceSmoothing := None;
    o_smoothingFactor := None; o_minValidDistance := None;
    o_maxValidDistance := None; o_debugMode := None |} in
  let w := run (boot o) [Reading 50; Check] in
  objectPresent (sm w) = true
  /\ staysWithinRange w [Elapse 500] = true
  /\ emitted (step w (Elapse 500))
     = emitted w ++ [(1, PresenceTimeout false)]
  /\ objectPresent (sm (step w (Elapse 500))) = false.
Proof.
  cbv zeta. repeat split; vm_compute; reflexivity.
Qed.

(** A timer keeps the delay it was armed with: a check arms it for
    30000 ms, [setPresenceTimeout(60000)] follows, and the timeout is
    announced at time 30000 all the same. *)
Example presence_timer_keeps_its_delay :
  let w :=
    run (boot no_options)
      [Reading 50; Check; SetPresenceTimeout (JS.Finite 60000)] in
  presenceTimeout (cfg (sm w)) = JS.Finite 60000
  /\ emitted (step w (Elapse 30000))
     = emitted w ++ [(30000, PresenceTimeout false)].
Proof.
  cbv zeta. split; vm_compute; reflexivity.
Qed.

End SensorManagerPresence.

(** ** GPIO controller: the distance from the echo ticks *)

Section GPIODistance.
Import GPIOController.

(** [1 << 32] is 1: the shift count is taken modulo 32. *)
Lemma shl_1_32 : JS.shl 1 32 = 1%Z.
Proof. reflexivity. Qed.

(** Without a rollover the distance is the one C8 gives. *)
Lemma toCentimetres_wrapped (st en : Z) :
  (0 <= en - st < 2 ^ 32)%Z ->
  toCentimetres (en - st) = wrappedDistance st en.
Proof.
  intros H. unfold toCentimetres, wrappedDistance.
  now rewrite Z.mod_small.
Qed.

(** Without a rollover, and with both ticks set, the code computes the
    distance C8 gives and takes it over exactly when it lies in [2, 400]. *)
Lemma calculateDistance_no_rollover (g : t) :
  startTime g <> 0%Z -> endTime g <> 0%Z ->
  (0 <= endTime g - startTime g < 2 ^ 32)%Z ->
  let d := wrappedDistance (startTime g) (endTime g) in
  calculateDistance g
  = if JS.le 2 d && JS.le d 400
    then (set_ticks 0 0 (set_distance d g), [DistanceChanged d])
    else (set_ticks 0 0 g, []).
Proof.
  intros Hs He Hd. cbv zeta. unfold calculateDistance, truthyZ.
  destruct (Z.eqb_spec (startTime g) 0) as [|_]; [contradiction|].
  destruct (Z.eqb_spec (endTime g) 0) as [|_]; [contradiction|].
  cbn [negb andb].
  destruct (Z.ltb_spec (endTime g - startTime g) 0) as [Hneg|_]; [lia|].
  rewrite (toCentimetres_wrapped _ _ Hd).
  now destruct (JS.le 2 _ && JS.le _ 400).
Qed.

(** [currentDistance] changes, and [distanceChanged] is emitted, only with
    a distance in [2, 400]. *)
Lemma calculateDistance_range (g : t) :
  let g' := fst (calculateDistance g) in
  let evs := snd (calculateDistance g) in
  (evs = [] /\ currentDistance g' = currentDistance g)
  \/ exists d, evs = [DistanceChanged d] /\ currentDistance g' = d
               /\ 2 <= d /\ d <= 400.
Proof.
  cbv zeta. unfold calculateDistance.
  destruct (truthyZ (startTime g) && truthyZ (endTime g));
    [|left; now split].
  match goal with
  | |- context [JS.le 2 ?d && JS.le ?d 400] =>
      destruct (JS.le 2 d) eqn:E1; destruct (JS.le d 400) eqn:E2; cbn;
        try (left; now split);
        right; exists d; repeat split; now apply Qle_bool_iff
  end.
Qed.

(** C8, on a rollover.  The rising edge comes at tick 4294967000 and the
    falling edge, after the 32-bit counter has wrapped, at tick 500: an echo
    of 796 microseconds.  C8 gives 796 * 34300 / 2000000 = 13.6514 cm, within
    [2, 400]; the code adds [1 << 32], which is 1, to the negative
    difference, gets a negative distance, and neither updates
    [currentDistance] nor emits [distanceChanged].  Both versions of the
    controller do the same. *)
Theorem calculateDistance_rollover :
  let g := {|
    detectionDistance := 100;
    neopixelCount := 30; debugMode := false; initialized := true;
    mockMode := false; currentLedIntensity := 0; currentDistance := 999;
    startTime := 4294967000; endTime := 500; pixels := replicate 30 0%Z;
    rendered := []; renderThrows := false |} in
  let g2 := {|
    GPIOControllerV2.neopixelCount := 10;
    GPIOControllerV2.debugMode := false;
    GPIOControllerV2.initialized := true;
    GPIOControllerV2.mockMode := false;
    GPIOControllerV2.neopixelMockMode := false;
    GPIOControllerV2.currentLedIntensity := 0;
    GPIOControllerV2.currentDistance := 999;
    GPIOControllerV2.startTime := 4294967000;
    GPIOControllerV2.endTime := 500;
    GPIOControllerV2.pixels := replicate 10 (GPIOControllerV2.Rgb 0 0 0);
    GPIOControllerV2.rendered := [];
    GPIOControllerV2.renderThrows := false |} in
  wrappedDistance 4294967000 500 == 136514 # 10000
  /\ 2 <= wrappedDistance 4294967000 500 <= 400
  /\ toCentimetres (500 - 4294967000 + JS.shl 1 32) < 0
  /\ calculateDistance g = (set_ticks 0 0 g, [])
  /\ currentDistance (fst (calculateDistance g)) = 999
  /\ GPIOControllerV2.calculateDistance g2
     = (GPIOControllerV2.set_ticks 0 0 g2, [])
  /\ GPIOControllerV2.currentDistance
       (fst (GPIOControllerV2.calculateDistance g2)) = 999.
Proof.
  cbv zeta. repeat split; vm_compute; congruence.
Qed.

End GPIODistance.

(** ** GPIO controller: the LED intensity *)

Section GPIOLeds.
Import GPIOController.

Ltac compare_cases :=
  repeat match goal with
    | H : (_ ?= _) = Eq |- _ => apply Qeq_alt in H
    | H : (_ ?= _) = Lt |- _ => apply Qlt_alt in H
    | H : (_ ?= _) = Gt |- _ => apply Qgt_alt in H
    end.

(** [Math.max(0, Math.min(100, x))] is [min(100, max(0, x))]. *)
Lemma clamp_min_max (x : Q) :
  JS.Math_max 0 (JS.Math_min 100 x) = Qmin 100 (Qmax 0 x).
Proof.
  unfold JS.Math_max, JS.Math_min, Qmax, Qmin,
    GenericMinMax.gmax, GenericMinMax.gmin.
  destruct (0 ?= x) eqn:E2; cbv iota;
    destruct (100 ?= x) eqn:E1; cbv iota; rewrite ?E2;
    try reflexivity; compare_cases; lra.
Qed.

Lemma clamp_range (x : Q) :
  0 <= JS.Math_max 0 (JS.Math_min 100 x) <= 100.
Proof.
  unfold JS.Math_max, JS.Math_min.
  split.
  - apply Q.le_max_l.
  - apply Q.max_lub; [lra|apply Q.le_min_l].
Qed.

(** The loop over a [Uint32Array]: the first [n] entries that exist are
    overwritten. *)
Lemma typed_fill (c : Z) (n : nat) (px : list Z) :
  fold_left (fun px i => typed_set i c px) (seq 0 n) px
  = replicate (n `min` length px) (c mod 2 ^ 32)%Z ++ drop n px.
Proof.
  induction n as [|n IH]; [now rewrite drop_0|].
  rewrite seq_S, fold_left_app, IH. cbn [fold_left Nat.add].
  unfold typed_set.
  destruct (Nat.lt_ge_cases n (length px)) as [Hlt|Hge].
  - rewrite (Nat.min_l n), (Nat.min_l (S n)) by lia.
    destruct (lookup_lt_is_Some_2 px n Hlt) as [y Hy].
    rewrite (drop_S _ _ _ Hy).
    rewrite insert_app_r_alt by (rewrite length_replicate; lia).
    rewrite length_replicate, Nat.sub_diag.
    now rewrite replicate_S_end, <- app_assoc.
  - rewrite (Nat.min_r n), (Nat.min_r (S n)) by lia.
    rewrite !drop_ge by lia. rewrite !app_nil_r.
    apply list_insert_ge. rewrite length_replicate. lia.
Qed.

(** The loop over an [Array]: the first [n] entries are overwritten, or
    created. *)
Lemma array_fill {A : Type} (v : A) (n : nat) (px : list A) :
  fold_left (fun px i => GPIOControllerV2.array_set i v px) (seq 0 n) px
  = replicate n v ++ drop n px.
Proof.
  induction n as [|n IH]; [now rewrite drop_0|].
  rewrite seq_S, fold_left_app, IH. cbn [fold_left Nat.add].
  unfold GPIOControllerV2.array_set.
  rewrite length_app, length_replicate, length_drop.
  destruct (Nat.lt_ge_cases n (length px)) as [Hlt|Hge].
  - replace (n <? n + (length px - n))%nat with true
      by (symmetry; apply Nat.ltb_lt; lia).
    destruct (lookup_lt_is_Some_2 px n Hlt) as [y Hy].
    rewrite (drop_S _ _ _ Hy).
    rewrite insert_app_r_alt by (rewrite length_replicate; lia).
    rewrite length_replicate, Nat.sub_diag.
    now rewrite replicate_S_end, <- app_assoc.
  - replace (n <? n + (length px - n))%nat with false
      by (symmetry; apply Nat.ltb_ge; lia).
    rewrite !drop_ge by lia. rewrite !app_nil_r.
    now rewrite replicate_S_end.
Qed.

Lemma typed_fill_strip (c : Z) (px : list Z) :
  fold_left (fun px i => typed_set i c px) (seq 0 (length px)) px
  = replicate (length px) (c mod 2 ^ 32)%Z.
Proof.
  rewrite typed_fill, Nat.min_id, drop_ge by lia. apply app_nil_r.
Qed.

Lemma array_fill_strip {A : Type} (v : A) (px : list A) :
  fold_left (fun px i => GPIOControllerV2.array_set i v px)
    (seq 0 (length px)) px
  = replicate (length px) v.
Proof. rewrite array_fill, drop_ge by lia. apply app_nil_r. Qed.

(** A channel of white at a percentage in [0, 100] stays within a byte. *)
Lemma scaled_white_range (x : Q) :
  0 <= x <= 100 -> (0 <= scaled 255 x <= 255)%Z.
Proof.
  intros [H0 H1]. unfold scaled, JS.Math_round. split.
  - apply (Qfloor_resp_le 0). unfold Qdiv.
    change (inject_Z 255) with 255. change (/ 100) with (1 # 100). lra.
  - apply (Qfloor_resp_le _ (255 + (1 # 2))). unfold Qdiv.
    change (inject_Z 255) with 255. change (/ 100) with (1 # 100). lra.
Qed.

(** The colour word of a grey: the three bytes side by side; it fits an
    unsigned 32-bit entry as it is. *)
Lemma colorWord_grey (c : Z) :
  (0 <= c <= 255)%Z ->
  colorWord c c c = (c * 65536 + c * 256 + c)%Z
  /\ (colorWord c c c mod 2 ^ 32 = colorWord c c c)%Z.
Proof.
  intros Hc.
  assert (H : forallb
                (fun n => let c := Z.of_nat n in
                          (colorWord c c c =? c * 65536 + c * 256 + c)%Z
                          && (colorWord c c c mod 2 ^ 32
                              =? colorWord c c c)%Z)
                (seq 0 256) = true) by (vm_compute; reflexivity).
  rewrite forallb_forall in H.
  specialize (H (Z.to_nat c)). rewrite Z2Nat.id in H by lia.
  cbv zeta in H.
  assert (Hin : In (Z.to_nat c) (seq 0 256)) by (apply in_seq; lia).
  apply H in Hin. apply andb_true_iff in Hin as [H1 H2].
  split; now apply Z.eqb_eq.
Qed.

Lemma clearAllLEDs_intensity (g : t) :
  currentLedIntensity (clearAllLEDs g) = currentLedIntensity g.
Proof.
  unfold clearAllLEDs, render.
  destruct (negb (initialized g) || mockMode g); [reflexivity|].
  cbn. now destruct (renderThrows g).
Qed.

Lemma clearAllLEDs_pixels (g : t) :
  initialized g = true -> mockMode g = false ->
  pixels (clearAllLEDs g) = replicate (length (pixels g)) 0%Z.
Proof.
  intros Hi Hm. unfold clearAllLEDs, render. rewrite Hi, Hm. cbn.
  now destruct (renderThrows g).
Qed.

Lemma setStripColor_intensity (r gr b : Z) (x : Q) (g : t) :
  currentLedIntensity (fst (setStripColor r gr b x g))
  = currentLedIntensity g.
Proof.
  unfold setStripColor, render.
  destruct (negb (initialized g) || mockMode g); [reflexivity|].
  cbn. now destruct (renderThrows g).
Qed.

Lemma setStripColor_pixels (r gr b : Z) (x : Q) (g : t) :
  initialized g = true -> mockMode g = false ->
  pixels (fst (setStripColor r gr b x g))
  = fold_left
      (fun px i =>
         typed_set i (colorWord (scaled r x) (scaled gr x) (scaled b x)) px)
      (seq 0 (neopixelCount g)) (pixels g).
Proof.
  intros Hi Hm. unfold setStripColor, render. rewrite Hi, Hm. cbn.
  now destruct (renderThrows g).
Qed.

Lemma clearAllLEDs_intensity_v2 (g : GPIOControllerV2.t) :
  GPIOControllerV2.currentLedIntensity (GPIOControllerV2.clearAllLEDs g)
  = GPIOControllerV2.currentLedIntensity g.
Proof.
  unfold GPIOControllerV2.clearAllLEDs, GPIOControllerV2.render.
  destruct (negb _ || _); [reflexivity|].
  cbn. now destruct (GPIOControllerV2.renderThrows g).
Qed.

Lemma clearAllLEDs_pixels_v2 (g : GPIOControllerV2.t) :
  GPIOControllerV2.initialized g = true ->
  GPIOControllerV2.neopixelMockMode g = false ->
  GPIOControllerV2.pixels (GPIOControllerV2.clearAllLEDs g)
  = GPIOControllerV2.fillStrip (GPIOControllerV2.Rgb 0 0 0) g.
Proof.
  intros Hi Hm. unfold GPIOControllerV2.clearAllLEDs, GPIOControllerV2.render.
  rewrite Hi, Hm. cbn. now destruct (GPIOControllerV2.renderThrows g).
Qed.

Lemma setStripColor_intensity_v2 (r gr b : Z) (x : Q)
    (g : GPIOControllerV2.t) :
  GPIOControllerV2.currentLedIntensity
    (fst (GPIOControllerV2.setStripColor r gr b x g))
  = GPIOControllerV2.currentLedIntensity g.
Proof.
  unfold GPIOControllerV2.setStripColor, GPIOControllerV2.render.
  destruct (negb _ || _); [reflexivity|].
  cbn. now destruct (GPIOControllerV2.renderThrows g).
Qed.

Lemma setStripColor_pixels_v2 (r gr b : Z) (x : Q) (g : GPIOControllerV2.t) :
  GPIOControllerV2.initialized g = true ->
  GPIOControllerV2.neopixelMockMode g = false ->
  GPIOControllerV2.pixels (fst (GPIOControllerV2.setStripColor r gr b x g))
  = GPIOControllerV2.fillStrip
      (GPIOControllerV2.Rgb (scaled r x) (scaled gr x) (scaled b x)) g.
Proof.
  intros Hi Hm.
  unfold GPIOControllerV2.setStripColor, GPIOControllerV2.render.
  rewrite Hi, Hm. cbn. now destruct (GPIOControllerV2.renderThrows g).
Qed.

(** [setLEDIntensity] on an initialized controller, Uint32Array version. *)
Lemma setLEDIntensity_native (g : t) (x : Q) :
  initialized g = true ->
  let g' := fst (setLEDIntensity x g) in
  let c := Qmin 100 (Qmax 0 x) in
  let w := scaled 255 c in
  currentLedIntensity g' = c
  /\ 0 <= currentLedIntensity g' <= 100
  /\ (mockMode g = true ->
      pixels g' = pixels g /\ rendered g' = rendered g)
  /\ (mockMode g = false -> stripSetUp g ->
      (c == 0 -> pixels g' = replicate (neopixelCount g) 0%Z)
      /\ (~ c == 0 ->
          pixels g'
          = replicate (neopixelCount g) (w * 65536 + w * 256 + w)%Z
          /\ (0 <= w <= 255)%Z)).
Proof.
  intros Hi. cbv zeta. unfold setLEDIntensity. rewrite Hi. cbn [negb].
  rewrite <- clamp_min_max.
  set (c := JS.Math_max 0 (JS.Math_min 100 x)).
  pose proof (clamp_range x) as Hc. fold c in Hc.
  assert (Hint : currentLedIntensity
                   (fst (if mockMode (set_intensity c g)
                         then (set_intensity c g, [])
                         else if Qeq_bool c 0
                              then (clearAllLEDs (set_intensity c g), [])
                              else setStripColor 255 255 255 c
                                     (set_intensity c g))) = c).
  { cbn [mockMode set_intensity]. destruct (mockMode g); [reflexivity|].
    destruct (Qeq_bool c 0); cbn [fst].
    - now rewrite clearAllLEDs_intensity.
    - now rewrite setStripColor_intensity. }
  split; [exact Hint|]. split; [now rewrite Hint|].
  cbn [mockMode set_intensity]. split.
  - intros ->. now split.
  - intros Hm Hlen. rewrite Hm. unfold stripSetUp in Hlen. split.
    + intros Hz. rewrite (Qeq_eq_bool _ _ Hz). cbn [fst].
      rewrite clearAllLEDs_pixels by assumption. cbn [pixels set_intensity].
      now rewrite Hlen.
    + intros Hnz. destruct (Qeq_bool c 0) eqn:E;
        [now apply Qeq_bool_iff in E|].
      rewrite setStripColor_pixels by assumption.
      cbn [pixels neopixelCount set_intensity].
      pose proof (scaled_white_range c Hc) as Hw.
      destruct (colorWord_grey _ Hw) as [Hgrey Hfit].
      rewrite <- Hlen, typed_fill_strip, Hfit, Hgrey. now split.
Qed.

(** [setLEDIntensity] on an initialized controller, Array version. *)
Lemma setLEDIntensity_v2 (g : GPIOControllerV2.t) (x : Q) :
  GPIOControllerV2.initialized g = true ->
  let g' := fst (GPIOControllerV2.setLEDIntensity x g) in
  let c := Qmin 100 (Qmax 0 x) in
  let w := scaled 255 c in
  GPIOControllerV2.currentLedIntensity g' = c
  /\ 0 <= GPIOControllerV2.currentLedIntensity g' <= 100
  /\ (GPIOControllerV2.neopixelMockMode g = true ->
      GPIOControllerV2.pixels g' = GPIOControllerV2.pixels g
      /\ GPIOControllerV2.rendered g' = GPIOControllerV2.rendered g)
  /\ (GPIOControllerV2.neopixelMockMode g = false ->
      GPIOControllerV2.stripSetUp g ->
      (c == 0 ->
       GPIOControllerV2.pixels g'
       = replicate (GPIOControllerV2.neopixelCount g)
           (GPIOControllerV2.Rgb 0 0 0))
      /\ (~ c == 0 ->
          GPIOControllerV2.pixels g'
          = replicate (GPIOControllerV2.neopixelCount g)
              (GPIOControllerV2.Rgb w w w)
          /\ (0 <= w <= 255)%Z)).
Proof.
  intros Hi. cbv zeta. unfold GPIOControllerV2.setLEDIntensity.
  rewrite Hi. cbn [negb]. rewrite <- clamp_min_max.
  set (c := JS.Math_max 0 (JS.Math_min 100 x)).
  pose proof (clamp_range x) as Hc. fold c in Hc.
  set (g1 := GPIOControllerV2.set_intensity c g).
  assert (Hint : GPIOControllerV2.currentLedIntensity
                   (fst (if GPIOControllerV2.neopixelMockMode g1
                         then (g1, [])
                         else if Qeq_bool c 0
                              then (GPIOControllerV2.clearAllLEDs g1, [])
                              else GPIOControllerV2.setStripColor
                                     255 255 255 c g1)) = c).
  { destruct (GPIOControllerV2.neopixelMockMode g1); [reflexivity|].
    destruct (Qeq_bool c 0); cbn [fst].
    - now rewrite clearAllLEDs_intensity_v2.
    - now rewrite setStripColor_intensity_v2. }
  split; [exact Hint|]. split; [now rewrite Hint|].
  change (GPIOControllerV2.neopixelMockMode g1)
    with (GPIOControllerV2.neopixelMockMode g).
  split.
  - intros ->. now split.
  - intros Hm Hlen. rewrite Hm. unfold GPIOControllerV2.stripSetUp in Hlen.
    split.
    + intros Hz. rewrite (Qeq_eq_bool _ _ Hz). cbn [fst].
      rewrite clearAllLEDs_pixels_v2 by assumption.
      unfold GPIOControllerV2.fillStrip. subst g1.
      cbn [GPIOControllerV2.pixels GPIOControllerV2.neopixelCount
           GPIOControllerV2.set_intensity].
      rewrite <- Hlen. apply array_fill_strip.
    + intros Hnz. destruct (Qeq_bool c 0) eqn:E;
        [now apply Qeq_bool_iff in E|].
      rewrite setStripColor_pixels_v2 by assumption.
      unfold GPIOControllerV2.fillStrip. subst g1.
      cbn [GPIOControllerV2.pixels GPIOControllerV2.neopixelCount
           GPIOControllerV2.set_intensity].
      split; [|apply (scaled_white_range c Hc)].
      rewrite <- Hlen. apply array_fill_strip.
Qed.

(** C10, as the code has it.  On an initialized controller of either
    version, [setLEDIntensity(x)] leaves [currentLedIntensity] equal to
    [min(100, max(0, x))], which lies in [0, 100].  In mock mode nothing
    else happens: the pixels are left as they are and nothing is rendered.
    Out of mock mode, with the strip as it was set up, a clamped value of 0
    turns every pixel off, and any other clamped value [c] sets every pixel
    to white scaled by [c] percent, each channel being
    [round(255 * c / 100)], a byte.  [turnOffLEDs()] is
    [setLEDIntensity(0)]. *)
Theorem setLEDIntensity_clamps :
  (forall (g : t) (x : Q),
     initialized g = true ->
     let g' := fst (setLEDIntensity x g) in
     let c := Qmin 100 (Qmax 0 x) in
     let w := scaled 255 c in
     currentLedIntensity g' = c
     /\ 0 <= currentLedIntensity g' <= 100
     /\ (mockMode g = true ->
         pixels g' = pixels g /\ rendered g' = rendered g)
     /\ (mockMode g = false -> stripSetUp g ->
         (c == 0 -> pixels g' = replicate (neopixelCount g) 0%Z)
         /\ (~ c == 0 ->
             pixels g'
             = replicate (neopixelCount g) (w * 65536 + w * 256 + w)%Z
             /\ (0 <= w <= 255)%Z)))
  /\ (forall (g : GPIOControllerV2.t) (x : Q),
       GPIOControllerV2.initialized g = true ->
       let g' := fst (GPIOControllerV2.setLEDIntensity x g) in
       let c := Qmin 100 (Qmax 0 x) in
       let w := scaled 255 c in
       GPIOControllerV2.currentLedIntensity g' = c
       /\ 0 <= GPIOControllerV2.currentLedIntensity g' <= 100
       /\ (GPIOControllerV2.neopixelMockMode g = true ->
           GPIOControllerV2.pixels g' = GPIOControllerV2.pixels g
           /\ GPIOControllerV2.rendered g' = GPIOControllerV2.rendered g)
       /\ (GPIOControllerV2.neopixelMockMode g = false ->
           GPIOControllerV2.stripSetUp g ->
           (c == 0 ->
            GPIOControllerV2.pixels g'
            = replicate (GPIOControllerV2.neopixelCount g)
                (GPIOControllerV2.Rgb 0 0 0))
           /\ (~ c == 0 ->
               GPIOControllerV2.pixels g'
               = replicate (GPIOControllerV2.neopixelCount g)
                   (GPIOControllerV2.Rgb w w w)
               /\ (0 <= w <= 255)%Z)))
  /\ (forall g : t, turnOffLEDs g = setLEDIntensity 0 g)
  /\ (forall g : GPIOControllerV2.t,
       GPIOControllerV2.turnOffLEDs g
       = GPIOControllerV2.setLEDIntensity 0 g).
Proof.
  split; [exact setLEDIntensity_native|].
  split; [exact setLEDIntensity_v2|].
  split; reflexivity.
Qed.

(** The theorem at work: 150 is clamped to 100 and gives full white on a
    strip of three pixels; 50 gives half white, 128 on each channel. *)
Lemma setLEDIntensity_clamps_witness :
  let g := {|
    detectionDistance := 100;
    neopixelCount := 3; debugMode := false; initialized := true;
    mockMode := false; currentLedIntensity := 0; currentDistance := 999;
    startTime := 0; endTime := 0; pixels := [0; 0; 0]%Z;
    rendered := []; renderThrows := false |} in
  let g2 := {|
    GPIOControllerV2.neopixelCount := 2;
    GPIOControllerV2.debugMode := false;
    GPIOControllerV2.initialized := true;
    GPIOControllerV2.mockMode := false;
    GPIOControllerV2.neopixelMockMode := false;
    GPIOControllerV2.currentLedIntensity := 0;
    GPIOControllerV2.currentDistance := 999;
    GPIOControllerV2.startTime := 0;
    GPIOControllerV2.endTime := 0;
    GPIOControllerV2.pixels :=
      [GPIOControllerV2.Rgb 0 0 0; GPIOControllerV2.Rgb 0 0 0];
    GPIOControllerV2.rendered := [];
    GPIOControllerV2.renderThrows := false |} in
  (currentLedIntensity (fst (setLEDIntensity 150 g)) = 100
   /\ pixels (fst (setLEDIntensity 150 g))
      = [16777215; 16777215; 16777215]%Z)
  /\ (GPIOControllerV2.currentLedIntensity
        (fst (GPIOControllerV2.setLEDIntensity 50 g2)) = 50
      /\ GPIOControllerV2.pixels
           (fst (GPIOControllerV2.setLEDIntensity 50 g2))
         = [GPIOControllerV2.Rgb 128 128 128;
            GPIOControllerV2.Rgb 128 128 128]).
Proof.
  cbv zeta. split.
  - match goal with
    | |- currentLedIntensity (fst (setLEDIntensity ?x ?g)) = _ /\ _ =>
        destruct (proj1 setLEDIntensity_clamps g x eq_refl)
          as (H1 & _ & _ & H2)
    end.
    split; [exact H1|].
    destruct (H2 eq_refl eq_refl) as [_ H3].
    refine (proj1 (H3 _)). vm_compute. discriminate.
  - match goal with
    | |- GPIOControllerV2.currentLedIntensity
           (fst (GPIOControllerV2.setLEDIntensity ?x ?g)) = _ /\ _ =>
        destruct (proj1 (proj2 setLEDIntensity_clamps) g x eq_refl)
          as (H1 & _ & _ & H2)
    end.
    split; [exact H1|].
    destruct (H2 eq_refl eq_refl) as [_ H3].
    refine (proj1 (H3 _)). vm_compute. discriminate.
Defined.

(** C10 fails as it is worded.  The Array version, initialized with the
    mock strip ([rpi-ws281x] missing): [setLEDIntensity(50)] records 50 and
    returns; the ten entries of the strip stay 0 and nothing is rendered,
    where C10 has every pixel set to white at 50 percent. *)
Lemma setLEDIntensity_mock_leaves_pixels :
  let g := {|
    GPIOControllerV2.neopixelCount := 10;
    GPIOControllerV2.debugMode := false;
    GPIOControllerV2.initialized := true;
    GPIOControllerV2.mockMode := false;
    GPIOControllerV2.neopixelMockMode := true;
    GPIOControllerV2.currentLedIntensity := 0;
    GPIOControllerV2.currentDistance := 999;
    GPIOControllerV2.startTime := 0;
    GPIOControllerV2.endTime := 0;
    GPIOControllerV2.pixels := replicate 10 (GPIOControllerV2.Num 0);
    GPIOControllerV2.rendered := [];
    GPIOControllerV2.renderThrows := false |} in
  let g' := fst (GPIOControllerV2.setLEDIntensity 50 g) in
  GPIOControllerV2.currentLedIntensity g' = 50
  /\ GPIOControllerV2.pixels g' = replicate 10 (GPIOControllerV2.Num 0)
  /\ GPIOControllerV2.pixels g'
     <> replicate 10 (GPIOControllerV2.Rgb 128 128 128)
  /\ GPIOControllerV2.rendered g' = [].
Proof.
  cbv zeta. repeat split; vm_compute; congruence.
Qed.

End GPIOLeds.

(** ** Configuration server: validation and the configuration file *)

Section ConfigurationServer.
Import JSON NodeHelper.

(** C4.  A body that [validateConfiguration] rejects is answered with
    status 400 and [success: false]; the handler returns before anything is
    saved, so the configuration file, and the whole helper, are as they
    were. *)
Theorem postConfig_invalid (now : string) (body : option json) (h : t) :
  validateConfiguration body = Return false ->
  status (snd (postConfig now body h)) = 400%nat
  /\ success (snd (postConfig now body h)) = false
  /\ fs (fst (postConfig now body h)) = fs h
  /\ fst (postConfig now body h) = h.
Proof.
  intros H. unfold postConfig. rewrite H. now repeat split.
Qed.

(** The theorem at work: [ledIntensity: 150] is out of range. *)
Lemma postConfig_invalid_witness :
  let body := Some (JObj (list_to_map [("ledIntensity", JNum 150)])) in
  let h := {|
    fs := {| configFile := Readable (JsonText defaultConfiguration);
             writeError := None |};
    sensorManager := None; gpioController := None;
    moduleInstances := []; listenerIdentifier := "module_1";
    objectPresent := false; currentLedIntensity := 0; sent := [] |} in
  status (snd (postConfig "2025-06-01T10:00:00.000Z" body h)) = 400%nat
  /\ success (snd (postConfig "2025-06-01T10:00:00.000Z" body h)) = false
  /\ fs (fst (postConfig "2025-06-01T10:00:00.000Z" body h)) = fs h
  /\ fst (postConfig "2025-06-01T10:00:00.000Z" body h) = h.
Proof.
  cbv zeta. apply postConfig_invalid. vm_compute. reflexivity.
Defined.

(** When [validateConfiguration] throws ([null], or an object with a
    property [hasOwnProperty] of its own), the answer is 500; nothing is
    saved either. *)
Lemma postConfig_validation_throws
    (now : string) (body : option json) (h : t) (msg : string) :
  validateConfiguration body = Throw msg ->
  postConfig now body h
  = (h, {| status := 500; success := false; message := msg |}).
Proof. intros H. unfold postConfig. now rewrite H. Qed.

(** Two such bodies. *)
Example validateConfiguration_throws :
  validateConfiguration (Some JNull)
  = Throw "Cannot read properties of null (reading 'hasOwnProperty')"
  /\ validateConfiguration
       (Some (JObj (list_to_map [("hasOwnProperty", JNum 1)])))
     = Throw "config.hasOwnProperty is not a function".
Proof. split; vm_compute; reflexivity. Qed.

(** A valid body, with the hardware running and an object present: the
    answer is 200, the file holds the body and the time, the sensor manager
    and the GPIO controller have the new detection distance, and the LEDs
    are lit at the new intensity. *)
Example postConfig_valid :
  let body :=
    Some (JObj (list_to_map [("detectionDistance", JNum 150);
                             ("ledIntensity", JNum 80)])) in
  let s := SensorManager.sm
             (SensorManager.run (SensorManager.boot SensorManager.no_options)
                [SensorManager.Reading 50; SensorManager.Check]) in
  let g := {|
    GPIOController.detectionDistance := 100;
    GPIOController.neopixelCount := 2;
    GPIOController.debugMode := false;
    GPIOController.initialized := true;
    GPIOController.mockMode := false;
    GPIOController.currentLedIntensity := 50;
    GPIOController.currentDistance := 50;
    GPIOController.startTime := 0;
    GPIOController.endTime := 0;
    GPIOController.pixels := [0; 0]%Z;
    GPIOController.rendered := [];
    GPIOController.renderThrows := false |} in
  let h := {|
    fs := {| configFile := Missing; writeError := None |};
    sensorManager := Some s; gpioController := Some g;
    moduleInstances := ["module_1"]; listenerIdentifier := "module_1";
    objectPresent := true; currentLedIntensity := 50; sent := [] |} in
  let h' := fst (postConfig "2025-06-01T10:00:00.000Z" body h) in
  status (snd (postConfig "2025-06-01T10:00:00.000Z" body h)) = 200%nat
  /\ get (loadConfiguration (fs h')) "ledIntensity" = Some (JNum 80)
  /\ get (loadConfiguration (fs h')) "lastUpdated"
     = Some (JStr "2025-06-01T10:00:00.000Z")
  /\ (SensorManager.detectionDistance
        <$> (SensorManager.cfg <$> sensorManager h')) = Some 150
  /\ (GPIOController.pixels <$> gpioController h')
     = Some [13421772; 13421772]%Z
  /\ length (sent h') = 2%nat.
Proof. cbv zeta. repeat split; vm_compute; reflexivity. Qed.

Lemma loadConfiguration_written (s : text) (d d' : disk) :
  writeFileSync s d = (d', Return tt) ->
  loadConfiguration d'
  = match s with JsonText j => j | Malformed => defaultConfiguration end.
Proof.
  unfold writeFileSync. destruct (writeError d) as [[msg|msg]|];
    try discriminate.
  intros [= <-]. now destruct s.
Qed.

Lemma size_lookup (m : gmap string json) (k : string) (v : json) :
  m !! k = Some v -> (size v < size (JObj m))%nat.
Proof.
  intros H. cbn [size]. rewrite <- (insert_delete_id m k v H).
  rewrite map_fold_insert_L.
  - lia.
  - intros. lia.
  - apply lookup_delete_eq.
Qed.

Lemma size_In (l : list json) (v : json) :
  In v l -> (size v < size (JArr l))%nat.
Proof.
  cbn [size]. induction l as [|x l IH]; intros H; [destruct H|].
  cbn [fold_right]. destruct H as [->|H]; [lia|]. specialize (IH H). lia.
Qed.

Lemma finite_lookup (m : gmap string json) (k : string) (v : json) :
  finite (JObj m) = true -> m !! k = Some v -> finite v = true.
Proof.
  cbn [finite]. intros Hf H. rewrite <- (insert_delete_id m k v H) in Hf.
  rewrite map_fold_insert_L in Hf.
  - now apply andb_true_iff in Hf.
  - intros. rewrite !andb_assoc. f_equal. apply andb_comm.
  - apply lookup_delete_eq.
Qed.

Lemma written_finite_below (n : nat) :
  forall j, (size j < n)%nat -> finite j = true -> written j = j.
Proof.
  induction n as [|n IH]; intros j Hs Hf; [lia|].
  destruct j as [|b|q|neg|s|l|m]; try reflexivity; try discriminate.
  - cbn [written]. f_equal.
    assert (H : forall v, In v l -> written v = v).
    { intros v Hv. apply IH.
      - pose proof (size_In l v Hv). lia.
      - cbn [finite] in Hf. rewrite forallb_forall in Hf. now apply Hf. }
    clear Hs Hf. induction l as [|x l IHl]; [reflexivity|].
    cbn [map]. rewrite (H x) by now left. f_equal. apply IHl.
    intros v Hv. apply H. now right.
  - cbn [written]. f_equal. apply map_eq. intros k.
    rewrite lookup_fmap. destruct (m !! k) as [v|] eqn:E; [|reflexivity].
    cbn. f_equal. apply IH.
    + pose proof (size_lookup m k v E). lia.
    + now apply (finite_lookup m k v).
Qed.

(** [JSON.stringify] writes a value that holds no infinite number as it
    is. *)
Lemma written_finite (j : json) : finite j = true -> written j = j.
Proof. apply (written_finite_below (S (size j))). lia. Qed.

(** What a successful [saveConfiguration] leaves for
    [loadConfiguration]. *)
Lemma saveConfiguration_saved (now : string) (c : json) (d d' : disk) :
  saveConfiguration now c d = (d', Return tt) ->
  loadConfiguration d'
  = JObj (<["lastUpdated" := JStr now]> (written <$> ownProperties c)).
Proof.
  intros H. unfold saveConfiguration in H.
  apply loadConfiguration_written in H. rewrite H. cbn.
  now rewrite fmap_insert.
Qed.

(** C5, as the code has it.  When [saveConfiguration(c)] succeeds for an
    object [c] of JSON values (as a parsed request body is), the next
    [loadConfiguration()] returns an object with the saving time under
    [lastUpdated] and, under every other name, what [c] has under it as
    [JSON.stringify] writes it, no more and no less: a value that holds no
    infinite number comes back as it is, an infinite number comes back as
    [null].  With the file absent, unreadable or not
    parsable, [loadConfiguration()] returns the default configuration. *)
Theorem configuration_round_trip :
  (forall (now : string) (c : gmap string json) (d d' : disk),
     saveConfiguration now (JObj c) d = (d', Return tt) ->
     exists c' : gmap string json,
       loadConfiguration d' = JObj c'
       /\ c' !! "lastUpdated" = Some (JStr now)
       /\ (forall field : string,
             field <> "lastUpdated" ->
             c' !! field = written <$> c !! field)
       /\ (forall (field : string) (v : json),
             field <> "lastUpdated" -> c !! field = Some v ->
             finite v = true -> c' !! field = Some v)
       /\ (forall (field : string) (negative : bool),
             field <> "lastUpdated" ->
             c !! field = Some (JInfinity negative) ->
             c' !! field = Some JNull))
  /\ (forall d : disk,
        configFile d = Missing
        \/ configFile d = Unreadable
        \/ configFile d = Readable Malformed ->
        loadConfiguration d = defaultConfiguration).
Proof.
  split.
  - intros now c d d' H. apply saveConfiguration_saved in H. cbn in H.
    eexists. split; [exact H|].
    assert (Hfield : forall field : string,
              field <> "lastUpdated" ->
              <["lastUpdated" := JStr now]> (written <$> c) !! field
              = written <$> c !! field).
    { intros field Hne. rewrite lookup_insert_ne by congruence.
      apply lookup_fmap. }
    split; [apply lookup_insert_eq|]. split; [exact Hfield|]. split.
    + intros field v Hne Hv Hf. rewrite (Hfield field Hne), Hv. cbn.
      now rewrite written_finite.
    + intros field negative Hne Hv. now rewrite (Hfield field Hne), Hv.
  - intros d [H|[H|H]]; unfold loadConfiguration, existsSync, readFileSync;
      now rewrite H.
Qed.

(** The theorem at work: a configuration is saved over a missing file and
    read back. *)
Lemma configuration_round_trip_witness :
  let c : gmap string json :=
    list_to_map [("showTime", JBool false); ("ledIntensity", JNum 80)] in
  let d := {| configFile := Missing; writeError := None |} in
  exists (d' : disk) (c' : gmap string json),
    saveConfiguration "2025-06-01T10:00:00.000Z" (JObj c) d
    = (d', Return tt)
    /\ loadConfiguration d' = JObj c'
    /\ c' !! "lastUpdated" = Some (JStr "2025-06-01T10:00:00.000Z")
    /\ c' !! "ledIntensity" = Some (JNum 80)
    /\ loadConfiguration d = defaultConfiguration.
Proof.
  intros c d.
  destruct (proj1 configuration_round_trip "2025-06-01T10:00:00.000Z" c d
              (fst (saveConfiguration "2025-06-01T10:00:00.000Z" (JObj c) d))
              eq_refl)
    as (c' & Hload & Hstamp & _ & Hrest & _).
  exists (fst (saveConfiguration "2025-06-01T10:00:00.000Z" (JObj c) d)), c'.
  split; [reflexivity|]. split; [exact Hload|]. split; [exact Hstamp|].
  split.
  - apply Hrest; [discriminate|reflexivity|reflexivity].
  - apply (proj2 configuration_round_trip). now left.
Defined.

(** C5 fails as it is worded.  A configuration that has a [lastUpdated]
    field of its own (as every configuration read back from the file has)
    does not keep it: the saved object carries the time of the save
    there. *)
Lemma saveConfiguration_overwrites_lastUpdated :
  let c : gmap string json :=
    list_to_map [("lastUpdated", JStr "2024-01-01T00:00:00.000Z");
                 ("ledIntensity", JNum 80)] in
  let d := {| configFile := Missing; writeError := None |} in
  exists (d' : disk) (c' : gmap string json),
    saveConfiguration "2025-06-01T10:00:00.000Z" (JObj c) d
    = (d', Return tt)
    /\ loadConfiguration d' = JObj c'
    /\ c !! "lastUpdated" = Some (JStr "2024-01-01T00:00:00.000Z")
    /\ c' !! "lastUpdated" = Some (JStr "2025-06-01T10:00:00.000Z")
    /\ c' !! "lastUpdated" <> c !! "lastUpdated".
Proof.
  cbv zeta. eexists. eexists.
  split; [reflexivity|]. split; [reflexivity|].
  split; [vm_compute; reflexivity|].
  split; [vm_compute; reflexivity|].
  vm_compute. congruence.
Qed.

(** Nor does an infinite number come back.  The body
    [{"motionTimeout": 1e999}] parses to an object with [motionTimeout]
    infinite, which passes [validateConfiguration]; [saveConfiguration]
    writes [null] for it, and that is what [loadConfiguration] returns. *)
Example saveConfiguration_writes_null_for_Infinity :
  let c := JObj (list_to_map [("motionTimeout", JInfinity false)]) in
  let d := {| configFile := Missing; writeError := None |} in
  validateConfiguration (Some c) = Return true
  /\ snd (saveConfiguration "2025-06-01T10:00:00.000Z" c d) = Return tt
  /\ get (loadConfiguration
            (fst (saveConfiguration "2025-06-01T10:00:00.000Z" c d)))
       "motionTimeout"
     = Some JNull.
Proof. cbv zeta. repeat split; vm_compute; reflexivity. Qed.

End ConfigurationServer.

(** ** Python helper: sending the configuration *)

Section PythonMessages.
Import JSON PythonHelper.

(** C7, as the code has it.  [sendConfigurationToPython(config)] returns
    true exactly when the Python process exists, has reported ready, and the
    write to its stdin does not throw; it has then written one chunk, the
    JSON text of the message (type [config_update], the configuration under
    [data], a timestamp) followed by a newline, and nothing else has
    changed.  When it returns false nothing has been written. *)
Theorem sendConfigurationToPython_result
    (now : string) (config : option json) (h : t) :
  let h' := fst (sendConfigurationToPython now config h) in
  let r := snd (sendConfigurationToPython now config h) in
  (r = true
   <-> exists p, pythonProcess h = Some p
                 /\ pythonAppReady h = true
                 /\ writeThrows p = false)
  /\ (r = true ->
      exists p, pythonProcess h = Some p
        /\ h' = {| pythonProcess :=
                     Some {| stdin :=
                               stdin p
                               ++ [Line (stringify (configUpdate now config))];
                             writeThrows := false |};
                   pythonAppReady := true |})
  /\ (r = false -> h' = h)
  /\ (forall c, get (configUpdate now (Some c)) "type"
                = Some (JStr "config_update")
                /\ get (configUpdate now (Some c)) "data" = Some c).
Proof.
  cbv zeta.
  assert (Hmsg : forall c, get (configUpdate now (Some c)) "type"
                           = Some (JStr "config_update")
                           /\ get (configUpdate now (Some c)) "data" = Some c).
  { intros c. split; vm_compute; reflexivity. }
  unfold sendConfigurationToPython.
  destruct (pythonProcess h) as [p|] eqn:Hp;
    [destruct (pythonAppReady h) eqn:Hr;
     [destruct (writeThrows p) eqn:Hw|]|]; cbn [negb fst snd].
  - split; [split; [discriminate|]|].
    + intros (p' & [= <-] & _ & Hw'). congruence.
    + split; [discriminate|]. now split.
  - split; [split|].
    + intros _. exists p. now repeat split.
    + reflexivity.
    + split; [|split; [discriminate|exact Hmsg]].
      intros _. exists p. split; [reflexivity|].
      destruct h; cbn in *. now subst.
  - split; [split; [discriminate|]|].
    + intros (p' & _ & Hr' & _). discriminate.
    + split; [discriminate|]. now split.
  - split; [split; [discriminate|]|].
    + intros (p' & Hp' & _). discriminate.
    + split; [discriminate|]. now split.
Qed.

(** The theorem at work: a ready process gets its line. *)
Lemma sendConfigurationToPython_result_witness :
  let h := {| pythonProcess := Some {| stdin := []; writeThrows := false |};
              pythonAppReady := true |} in
  let config := Some (JObj (list_to_map [("ledIntensity", JNum 80)])) in
  exists p,
    pythonProcess h = Some p
    /\ fst (sendConfigurationToPython "2025-06-01T10:00:00.000Z" config h)
       = {| pythonProcess :=
              Some {| stdin :=
                        stdin p
                        ++ [Line (stringify
                                    (configUpdate "2025-06-01T10:00:00.000Z"
                                       config))];
                      writeThrows := false |};
            pythonAppReady := true |}.
Proof.
  cbv zeta.
  refine (proj1 (proj2 (sendConfigurationToPython_result _ _ _)) _).
  reflexivity.
Defined.

(** C7 fails as it is worded.  The process exists and has reported ready,
    but the write to its stdin throws: the [catch] block returns false, and
    nothing has been written. *)
Lemma sendConfigurationToPython_write_throws :
  let h := {| pythonProcess := Some {| stdin := []; writeThrows := true |};
              pythonAppReady := true |} in
  let config := Some (JObj (list_to_map [("ledIntensity", JNum 80)])) in
  (exists p, pythonProcess h = Some p /\ pythonAppReady h = true)
  /\ sendConfigurationToPython "2025-06-01T10:00:00.000Z" config h
     = (h, false).
Proof.
  cbv zeta. split; [|reflexivity]. eexists. now split.
Qed.

End PythonMessages.

(** ** Display module: the blocks of the DOM *)

Section DisplayBlocks.
Import InfoMirror.

(** The classes of the four content blocks. *)
Lemma block_classes (cls : string) :
  In cls ["time-display"; "weather-display"; "calendar-display";
          "compliments-display"] ->
  cls = "time-display" \/ cls = "weather-display"
  \/ cls = "calendar-display" \/ cls = "compliments-display".
Proof. cbn. intuition. Qed.

Ltac each_class H :=
  apply block_classes in H; destruct H as [->|[->|[->| ->]]].

Lemma hasClass_time (cls : string) (m : t) :
  In cls ["time-display"; "weather-display"; "calendar-display";
          "compliments-display"] ->
  hasClass cls (createTimeDisplay m) = String.eqb "time-display" cls.
Proof. intros H. each_class H; reflexivity. Qed.

Lemma hasClass_weather (cls : string) (v : variant) (m : t) :
  In cls ["time-display"; "weather-display"; "calendar-display";
          "compliments-display"] ->
  hasClass cls (createWeatherDisplay v m) = String.eqb "weather-display" cls.
Proof.
  intros H. unfold createWeatherDisplay.
  destruct (weatherData m) as [[[c|]]|]; each_class H; reflexivity.
Qed.

Lemma hasClass_events (cls : string) (events : list calendarEvent) :
  In cls ["time-display"; "weather-display"; "calendar-display";
          "compliments-display"] ->
  existsb (hasClass cls)
    (map (fun event =>
            el "div" "calendar-event"
              [el "div" "event-time" [txt (startTime event)];
               el "div" "event-title" [txt (title event)]])
       events) = false.
Proof.
  intros H. induction events as [|e events IH]; [reflexivity|].
  cbn [map existsb]. rewrite IH. each_class H; reflexivity.
Qed.

Lemma hasClass_calendar (cls : string) (m : t) :
  In cls ["time-display"; "weather-display"; "calendar-display";
          "compliments-display"] ->
  hasClass cls (createCalendarDisplay m) = String.eqb "calendar-display" cls.
Proof.
  intros H. unfold createCalendarDisplay.
  destruct (take 3 (calendarEvents m)) as [|e events] eqn:E.
  - each_class H; reflexivity.
  - pose proof (hasClass_events cls (e :: events) H) as Hev.
    cbn [hasClass el existsb] in *. rewrite Hev.
    each_class H; reflexivity.
Qed.

Lemma hasClass_compliments (cls : string) (v : variant) (random : Q) :
  In cls ["time-display"; "weather-display"; "calendar-display";
          "compliments-display"] ->
  hasClass cls (createComplimentsDisplay v random)
  = String.eqb "compliments-display" cls.
Proof. intros H. each_class H; reflexivity. Qed.

Lemma hasClass_status (cls : string) (v : variant) (m : t) :
  In cls ["time-display"; "weather-display"; "calendar-display";
          "compliments-display"] ->
  hasClass cls (createStatusDisplay v m) = false.
Proof. intros H. destruct v; each_class H; reflexivity. Qed.

Ltac block_lemmas :=
  rewrite ?hasClass_time, ?hasClass_weather, ?hasClass_calendar,
    ?hasClass_compliments, ?hasClass_status by (cbn; tauto).

(** Which of the four blocks the DOM of a loaded, enabled module has. *)
Lemma getDom_content (cls : string) (v : variant) (random : Q) (m : t) :
  In cls ["time-display"; "weather-display"; "calendar-display";
          "compliments-display"] ->
  loaded m = true ->
  displayEnabled (cfg m) = true ->
  hasClass cls (getDom v random m)
  = (showTime (cfg m) && String.eqb "time-display" cls)
    || (showWeather (cfg m) && bool_decide (is_Some (weatherData m))
        && String.eqb "weather-display" cls)
    || (showCalendar (cfg m) && (0 <? length (calendarEvents m))%nat
        && String.eqb "calendar-display" cls)
    || (showCompliments (cfg m) && String.eqb "compliments-display" cls).
Proof.
  intros H Hl He. unfold getDom. rewrite Hl, He. cbn [negb].
  destruct (showTime (cfg m)); destruct (showWeather (cfg m));
    destruct (bool_decide (is_Some (weatherData m)));
    destruct (showCalendar (cfg m));
    destruct (0 <? length (calendarEvents m))%nat;
    destruct (showCompliments (cfg m)); destruct (debugMode (cfg m));
    cbn [andb app hasClass el existsb]; block_lemmas;
    each_class H; reflexivity.
Qed.

(** C6, as the code has it.  Until the module is loaded, and while
    [displayEnabled] is false, the DOM has none of the four content blocks.
    For a loaded module with [displayEnabled] true, it has the time block
    iff [showTime] is true, the weather block iff [showWeather] is true and
    weather data is present, the calendar block iff [showCalendar] is true
    and the list of events is not empty, and the compliments block iff
    [showCompliments] is true.  Both versions of the module. *)
Theorem getDom_blocks (v : variant) (random : Q) (m : t) :
  let dom := getDom v random m in
  (loaded m = false \/ displayEnabled (cfg m) = false ->
   hasClass "time-display" dom = false
   /\ hasClass "weather-display" dom = false
   /\ hasClass "calendar-display" dom = false
   /\ hasClass "compliments-display" dom = false)
  /\ (loaded m = true -> displayEnabled (cfg m) = true ->
      (hasClass "time-display" dom = true <-> showTime (cfg m) = true)
      /\ (hasClass "weather-display" dom = true
          <-> showWeather (cfg m) = true /\ weatherData m <> None)
      /\ (hasClass "calendar-display" dom = true
          <-> showCalendar (cfg m) = true /\ calendarEvents m <> [])
      /\ (hasClass "compliments-display" dom = true
          <-> showCompliments (cfg m) = true)).
Proof.
  cbv zeta. split.
  - intros H. unfold getDom.
    destruct (loaded m); cbn [negb].
    + destruct H as [H|H]; [discriminate|]. rewrite H. cbn [negb].
      destruct v; now repeat split.
    + destruct v; now repeat split.
  - intros Hl He.
    rewrite !getDom_content by (assumption || (cbn; tauto)).
    change (String.eqb "time-display" "time-display") with true.
    change (String.eqb "weather-display" "weather-display") with true.
    change (String.eqb "calendar-display" "calendar-display") with true.
    change (String.eqb "compliments-display" "compliments-display")
      with true.
    change (String.eqb "time-display" "weather-display") with false.
    change (String.eqb "time-display" "calendar-display") with false.
    change (String.eqb "time-display" "compliments-display") with false.
    change (String.eqb "weather-display" "time-display") with false.
    change (String.eqb "weather-display" "calendar-display") with false.
    change (String.eqb "weather-display" "compliments-display") with false.
    change (String.eqb "calendar-display" "time-display") with false.
    change (String.eqb "calendar-display" "weather-display") with false.
    change (String.eqb "calendar-display" "compliments-display") with false.
    change (String.eqb "compliments-display" "time-display") with false.
    change (String.eqb "compliments-display" "weather-display") with false.
    change (String.eqb "compliments-display" "calendar-display") with false.
    rewrite !andb_true_r, !andb_false_r, !orb_false_r. cbn [orb].
    split; [tauto|]. split; [|split; [|tauto]].
    + rewrite andb_true_iff, bool_decide_eq_true.
      split; intros [Hs Hw]; (split; [exact Hs|]).
      * destruct Hw as [w Hw]. congruence.
      * destruct (weatherData m); [eauto|congruence].
    + rewrite andb_true_iff, Nat.ltb_lt.
      split; intros [Hs Hn]; (split; [exact Hs|]).
      * intros E. rewrite E in Hn. cbn in Hn. lia.
      * destruct (calendarEvents m); [congruence|cbn; lia].
Qed.

(** The theorem at work: loaded, enabled, [showTime] only. *)
Lemma getDom_blocks_witness :
  let m := {|
    cfg := {| showWeather := false; showTime := true; showCalendar := false;
              showCompliments := false; displayEnabled := true;
              ready := true; ledIntensity := 50; configPort := 3001;
              debugMode := false |};
    loaded := true; weatherData := None; calendarEvents := [];
    currentTime := {| localeTime := "10:00";
                      localeDate := "Sunday, June 1, 2025" |} |} in
  hasClass "time-display" (getDom Hardware 0 m) = true.
Proof.
  cbv zeta.
  refine (proj2 (proj1 (proj2 (getDom_blocks Hardware 0 _) _ _)) _);
    reflexivity.
Defined.

(** C6 fails as it is worded.  A module that is not loaded yet, with
    [showTime] and [displayEnabled] true: the DOM is the loading notice,
    without the time block. *)
Lemma getDom_not_loaded_has_no_time :
  let m := {|
    cfg := {| showWeather := true; showTime := true; showCalendar := true;
              showCompliments := false; displayEnabled := true;
              ready := false; ledIntensity := 50; configPort := 3001;
              debugMode := false |};
    loaded := false; weatherData := None; calendarEvents := [];
    currentTime := {| localeTime := "10:00";
                      localeDate := "Sunday, June 1, 2025" |} |} in
  showTime (cfg m) = true
  /\ hasClass "time-display" (getDom Hardware 0 m) = false
  /\ hasClass "time-display" (getDom DisplayOnly 0 m) = false.
Proof. cbv zeta. now repeat split. Qed.

End DisplayBlocks.

(** * Further properties *)

(** ** Sensor manager: invariants of a run *)

Section SensorManagerInvariants.
Import SensorManager.

Lemma run_snoc (w : world) (ins : list input) (i : input) :
  run w (ins ++ [i]) = step (run w ins) i.
Proof. unfold run. now rewrite fold_left_app. Qed.

(** An invariant of the manager that every input keeps holds after every
    run. *)
Lemma run_invariant (I : t -> Prop) (w : world) (ins : list input) :
  (forall (w' : world) (i : input), I (sm w') -> I (sm (step w' i))) ->
  I (sm w) -> I (sm (run w ins)).
Proof.
  intros Hstep. revert w. induction ins as [|i ins IH]; intros w H0.
  - exact H0.
  - change (run w (i :: ins)) with (run (step w i) ins). apply IH.
    now apply Hstep.
Qed.

Lemma step_history (w : world) (i : input) :
  distanceHistory (sm (step w i)) = distanceHistory (sm w)
  \/ exists d, i = Reading d
       /\ distanceHistory (sm (step w i))
          = (if (maxHistoryLength <? length (distanceHistory (sm w) ++ [d]))%nat
             then tail (distanceHistory (sm w) ++ [d])
             else distanceHistory (sm w) ++ [d]).
Proof.
  destruct i as [d| |dt| | |d|timeout]; cbn.
  - unfold handleDistanceChange. destruct (_ || _); [now left|]. cbn.
    destruct (distanceSmoothing (cfg (sm w))); [|now left].
    right. exists d. split; [reflexivity|].
    unfold applySmoothingFilter. cbn. now destruct (_ =? 1)%nat.
  - left. unfold checkPresenceLogic. destruct (_ && negb _); [reflexivity|].
    now destruct (_ && _).
  - left. destruct (presenceTimer (sm w)); [|reflexivity].
    now destruct (JS.le _ _).
  - left. unfold forcePresenceDetection. now destruct (negb _).
  - left. unfold forcePresenceTimeout. now destruct (objectPresent _).
  - now left.
  - now left.
Qed.

(** The distance history of a constructed manager never holds more than
    [maxHistoryLength] (5) readings. *)
Theorem distanceHistory_bounded (o : options) (ins : list input) :
  (length (distanceHistory (sm (run (boot o) ins))) <= maxHistoryLength)%nat.
Proof.
  apply (run_invariant
           (fun s => (length (distanceHistory s) <= maxHistoryLength)%nat)).
  - intros w i H.
    destruct (step_history w i) as [->|(d & _ & ->)]; [exact H|].
    destruct (maxHistoryLength <? _)%nat eqn:E.
    + destruct (distanceHistory (sm w) ++ [d]) as [|x l] eqn:El.
      * cbn. unfold maxHistoryLength. lia.
      * apply (f_equal length) in El. rewrite length_app in El.
        cbn in *. lia.
    + now apply Nat.ltb_ge in E.
  - cbn. unfold maxHistoryLength. lia.
Qed.

Lemma run_invariant_world (I : world -> Prop) (w : world)
    (ins : list input) :
  (forall (w' : world) (i : input), I w' -> I (step w' i)) ->
  I w -> I (run w ins).
Proof.
  intros Hstep. revert w. induction ins as [|i ins IH]; intros w H0.
  - exact H0.
  - change (run w (i :: ins)) with (run (step w i) ins). apply IH.
    now apply Hstep.
Qed.

Lemma countEvents_app (p : event -> bool) (a b : list (Q * event)) :
  countEvents p (a ++ b) = (countEvents p a + countEvents p b)%nat.
Proof. unfold countEvents. now rewrite List.filter_app, length_app. Qed.

Lemma handleDistanceChange_events (d : Q) (s : t) :
  snd (handleDistanceChange d s) = []
  \/ exists r sd b, snd (handleDistanceChange d s) = [DistanceUpdate r sd b].
Proof.
  unfold handleDistanceChange. destruct (_ || _); [now left|].
  right. cbn. eauto.
Qed.

Lemma step_presenceBalanced (w : world) (i : input) :
  presenceBalanced w -> presenceBalanced (step w i).
Proof.
  intros [Ht Hc]. unfold presenceBalanced.
  destruct i as [d| |dt| | |d|timeout].
  - destruct (step_reading_presence w d) as (Eo & Et & _ & _).
    rewrite Eo, Et. split; [exact Ht|].
    unfold step, after. cbn [emitted]. rewrite !countEvents_app, Hc.
    destruct (handleDistanceChange_events d (sm w))
      as [->|(r & sd & b & ->)]; cbn; lia.
  - unfold step, after, checkPresenceLogic. cbn [emitted sm].
    destruct (JS.le _ _); destruct (objectPresent (sm w)) eqn:Ep;
      cbn [andb negb fst snd objectPresent presenceTimer
           resetPresenceTimer set_presenceTimer set_objectPresent];
      rewrite ?Ep, !countEvents_app, Hc;
      (split; [try tauto; split; congruence|cbn; lia]).
  - unfold step. destruct (presenceTimer (sm w)) as [tm|] eqn:Etm.
    + destruct (JS.le _ _); cbn [sm emitted].
      * cbn [fst snd presenceTimerFired objectPresent presenceTimer
             set_presenceTimer set_objectPresent].
        split; [split; congruence|].
        assert (Hp : objectPresent (sm w) = true)
          by (apply Ht; congruence).
        rewrite Hp in Hc. rewrite !countEvents_app, Hc. cbn. lia.
      * rewrite Etm. split; assumption.
    + cbn [sm emitted]. rewrite Etm. split; assumption.
  - unfold step, after, forcePresenceDetection. cbn [emitted sm].
    destruct (objectPresent (sm w)) eqn:Ep;
      cbn [negb fst snd objectPresent presenceTimer
           resetPresenceTimer set_presenceTimer set_objectPresent];
      rewrite ?Ep, !countEvents_app, Hc;
      (split; [try tauto; split; congruence|cbn; lia]).
  - unfold step, after, forcePresenceTimeout. cbn [emitted sm].
    destruct (objectPresent (sm w)) eqn:Ep;
      cbn [negb fst snd objectPresent presenceTimer
           set_presenceTimer set_objectPresent];
      rewrite ?Ep, !countEvents_app, Hc;
      (split; [try tauto; split; congruence|cbn; lia]).
  - unfold step, after, setDetectionDistance. cbn [emitted sm fst snd].
    rewrite !countEvents_app, Hc. split; [exact Ht|cbn; lia].
  - unfold step, after, setPresenceTimeout. cbn [emitted sm fst snd].
    rewrite !countEvents_app, Hc. split; [exact Ht|cbn; lia].
Qed.

Lemma run_presenceBalanced (o : options) (ins : list input) :
  presenceBalanced (run (boot o) ins).
Proof.
  apply run_invariant_world; [exact step_presenceBalanced|].
  split; [|reflexivity]. cbn. split; congruence.
Qed.

(** In every run of a constructed manager, [objectPresent] is true exactly
    while the presence timer is armed. *)
Theorem objectPresent_iff_timer_armed (o : options) (ins : list input) :
  let s := sm (run (boot o) ins) in
  objectPresent s = true <-> presenceTimer s <> None.
Proof. apply run_presenceBalanced. Qed.

(** In every run of a constructed manager, [presenceDetected] and
    [presenceTimeout] events keep in step: the detections emitted so far
    are the timeouts emitted so far, plus one while [objectPresent] is
    true.  So no second detection is announced before a timeout. *)
Theorem detections_match_timeouts (o : options) (ins : list input) :
  let w := run (boot o) ins in
  countEvents isPresenceDetected (emitted w)
  = (countEvents isPresenceTimeout (emitted w)
     + if objectPresent (sm w) then 1 else 0)%nat.
Proof. apply run_presenceBalanced. Qed.

End SensorManagerInvariants.

(** ** Sensor manager and GPIO controller: the setters *)

Section Setters.
Import SensorManager.

Lemma clamp_between (lo hi x : Q) :
  lo <= hi ->
  lo <= JS.Math_max lo (JS.Math_min hi x) <= hi
  /\ (lo <= x <= hi -> JS.Math_max lo (JS.Math_min hi x) == x)
  /\ (x <= lo -> JS.Math_max lo (JS.Math_min hi x) == lo)
  /\ (hi <= x -> JS.Math_max lo (JS.Math_min hi x) == hi).
Proof.
  intros Hlh. unfold JS.Math_max, JS.Math_min.
  destruct (Q.max_spec lo (Qmin hi x)) as [[H1 ->]|[H1 ->]];
    destruct (Q.min_spec hi x) as [[H2 H3]|[H2 H3]];
    rewrite ?H3 in *; repeat split; intros; try lra;
    try (rewrite H3; lra).
Qed.

(** [setDetectionDistance] keeps the detection distance within [10, 400]:
    a distance in that range is taken as it is, a smaller one becomes 10, a
    larger one 400.  The GPIO controller's setter stores the same value,
    and the event carries it. *)
Theorem setDetectionDistance_clamps
    (distance : Q) (s : t) (g : GPIOController.t) :
  let s' := fst (setDetectionDistance distance s) in
  let d' := detectionDistance (cfg s') in
  10 <= d' <= 400
  /\ (10 <= distance <= 400 -> d' == distance)
  /\ (distance <= 10 -> d' == 10)
  /\ (400 <= distance -> d' == 400)
  /\ GPIOController.detectionDistance
       (GPIOController.setDetectionDistance distance g) = d'
  /\ snd (setDetectionDistance distance s) = [DetectionDistanceChanged d'].
Proof.
  cbv zeta. cbn.
  destruct (clamp_between 10 400 distance ltac:(lra)) as (H1 & H2 & H3 & H4).
  repeat split; auto; apply H1.
Qed.

Lemma timerDelay_Math_max (timeout : JS.number) :
  (JS.fitsTimer timeout = true ->
   1000 <= JS.timerDelay (JS.Math_max_number 1000 timeout))
  /\ (JS.fitsTimer timeout = false ->
      JS.timerDelay (JS.Math_max_number 1000 timeout) = 1).
Proof.
  destruct timeout as [q|[|]]; cbn [JS.fitsTimer JS.Math_max_number].
  - unfold JS.timerDelay, JS.Math_max.
    pose proof (Q.le_max_l 1000 q) as Hl.
    split; intros Hq.
    + apply le_true_iff in Hq.
      assert (Hm : Qmax 1000 q <= JS.TIMEOUT_MAX)
        by (apply Q.max_lub; [unfold JS.TIMEOUT_MAX; lra|exact Hq]).
      assert (H1 : JS.le 1 (Qmax 1000 q) = true)
        by (apply le_true_iff; lra).
      apply le_true_iff in Hm. rewrite H1, Hm. cbn [andb].
      change 1000 with (inject_Z 1000) at 1. rewrite <- Zle_Qle.
      change 1000%Z with (Qfloor 1000). now apply Qfloor_resp_le.
    + assert (Hm : JS.le (Qmax 1000 q) JS.TIMEOUT_MAX = false).
      { destruct (JS.le (Qmax 1000 q) JS.TIMEOUT_MAX) eqn:E;
          [|reflexivity].
        apply le_true_iff in E.
        assert (Hq' : JS.le q JS.TIMEOUT_MAX = true).
        { apply le_true_iff. pose proof (Q.le_max_r 1000 q). lra. }
        congruence. }
      rewrite Hm. now rewrite andb_false_r.
  - split; [intros _; vm_compute; discriminate|discriminate].
  - split; [discriminate|reflexivity].
Qed.

Lemma run_presenceTimeout (ins : list input) (w : world) :
  keepsPresenceTimeout ins = true ->
  presenceTimeout (cfg (sm (run w ins))) = presenceTimeout (cfg (sm w)).
Proof.
  revert w. induction ins as [|i ins IH]; intros w H; [reflexivity|].
  cbn [keepsPresenceTimeout forallb] in H.
  apply andb_true_iff in H as [Hi H].
  change (run w (i :: ins)) with (run (step w i) ins).
  rewrite (IH _ H). apply step_presenceTimeout.
  intros timeout ->. discriminate.
Qed.

(** Checks less than [P0] ms apart are well paced when the timers armed
    run for at least [P0] ms. *)
Lemma checksWithin_paced (P0 : Q) (ins : list input) (w : world)
    (P since : Q) :
  P0 <= P ->
  P0 <= JS.timerDelay (presenceTimeout (cfg (sm w))) ->
  checksWithin P0 since ins = true ->
  paced P since w ins = true.
Proof.
  revert w P since.
  induction ins as [|i ins IH]; intros w P since HP Hd H; [reflexivity|].
  assert (Hd' : (forall timeout, i <> SetPresenceTimeout timeout) ->
                P0 <= JS.timerDelay (presenceTimeout (cfg (sm (step w i))))).
  { intros Hi. now rewrite step_presenceTimeout. }
  destruct i as [d| |dt| | |d|timeout];
    cbn [checksWithin paced] in *; try discriminate.
  - apply IH; try assumption. apply Hd'. discriminate.
  - apply IH; try assumption. apply Hd'. discriminate.
  - apply andb_true_iff in H as [H Hrest].
    apply andb_true_iff in H as [Hdt Hlt].
    rewrite Hdt. cbn [andb].
    assert (Hlt' : JS.lt (since + dt) P = true).
    { apply lt_true_iff. apply lt_true_iff in Hlt. lra. }
    rewrite Hlt'. cbn [andb]. apply IH; try assumption.
    apply Hd'. discriminate.
Qed.

(** [setPresenceTimeout(timeout)] stores the larger of 1000 and
    [timeout].  When [timeout] is at most 2147483647, every timer armed
    from then on runs for at least 1000 ms; so, whatever comes after the
    call (but no other [setPresenceTimeout]), from the next presence check
    on, checks that find the object within range and come less than
    1000 ms apart keep [objectPresent] true, and no [presenceTimeout] is
    emitted.  A timer armed before the call keeps its delay until that
    check.  When [timeout] is above 2147483647, the timers armed from then
    on run for 1 ms. *)
Theorem setPresenceTimeout_keeps_presence
    (w : world) (timeout : JS.number) :
  let w1 := call (setPresenceTimeout timeout) w in
  presenceTimeout (cfg (sm w1)) = JS.Math_max_number 1000 timeout
  /\ presenceTimer (sm w1) = presenceTimer (sm w)
  /\ (JS.fitsTimer timeout = false ->
      JS.timerDelay (presenceTimeout (cfg (sm w1))) = 1)
  /\ (JS.fitsTimer timeout = true ->
      1000 <= JS.timerDelay (presenceTimeout (cfg (sm w1)))
      /\ forall pre ins : list input,
           let w2 := run w1 pre in
           keepsPresenceTimeout pre = true ->
           staysWithinRange w2 (Check :: ins) = true ->
           checksWithin 1000 0 ins = true ->
           objectPresent (sm (run w2 (Check :: ins))) = true
           /\ exists evs,
                emitted (run w2 (Check :: ins)) = emitted w2 ++ evs
                /\ noPresenceTimeout evs = true).
Proof.
  cbv zeta.
  set (w1 := call (setPresenceTimeout timeout) w).
  assert (HT : presenceTimeout (cfg (sm w1))
               = JS.Math_max_number 1000 timeout) by reflexivity.
  destruct (timerDelay_Math_max timeout) as [Hfit Hover].
  split; [exact HT|]. split; [reflexivity|].
  rewrite HT. split; [exact Hover|].
  intros Hok. specialize (Hfit Hok). split; [exact Hfit|].
  intros pre ins Hpre Hin Hp.
  set (w2 := run w1 pre) in *.
  assert (HP : 1000 <= JS.timerDelay (presenceTimeout (cfg (sm w2)))).
  { unfold w2. rewrite (run_presenceTimeout pre w1 Hpre), HT. exact Hfit. }
  pose proof Hin as Hin0. cbn [staysWithinRange] in Hin0.
  apply andb_true_iff in Hin0 as [Hw Hin'].
  destruct (step_check_in_range w2 Hw) as (Eo & Et & Ec & evs & Ee & Hn).
  change (run w2 (Check :: ins)) with (run (step w2 Check) ins).
  destruct (armedFor_run ins (step w2 Check)
              (JS.timerDelay (presenceTimeout (cfg (sm w2)))) 0)
    as (Ho & evs' & Ee' & Hn'); auto.
  { split; [exact Eo|].
    eexists. split; [exact Et|]. unfold deadline. cbn [armedAt delay].
    rewrite Ec. lra. }
  { apply (checksWithin_paced 1000); auto.
    rewrite step_presenceTimeout by discriminate. exact HP. }
  split; [exact Ho|]. exists (evs ++ evs').
  rewrite Ee', Ee, <- app_assoc. split; [reflexivity|].
  now apply noPresenceTimeout_app.
Qed.

(** The theorem at work: a timeout of 200 ms is asked for while a timer
    runs; a reading comes in, and checks 500 and 900 ms apart keep the
    presence. *)
Lemma setPresenceTimeout_keeps_presence_witness :
  let w := run (boot no_options) [Reading 50; Check; Elapse 100] in
  let w1 := call (setPresenceTimeout (JS.Finite 200)) w in
  presenceTimeout (cfg (sm w1)) = JS.Finite 1000
  /\ objectPresent
       (sm (run w1 [Reading 60; Check; Elapse 500; Check; Elapse 900;
                    Check])) = true.
Proof.
  intros w w1.
  destruct (setPresenceTimeout_keeps_presence w (JS.Finite 200))
    as (HT & _ & _ & Hfit).
  split; [exact HT|].
  destruct (Hfit eq_refl) as (_ & Hrun).
  refine (proj1 (Hrun [Reading 60] [Elapse 500; Check; Elapse 900; Check]
                   _ _ _)); vm_compute; reflexivity.
Defined.

End Setters.

(** ** GPIO controller: echo pulses *)

Section GPIOEcho.
Import GPIOController.

Lemma toCentimetres_ge_2 (td : Z) :
  JS.le 2 (toCentimetres td) = true <-> (117 <= td)%Z.
Proof.
  unfold JS.le. rewrite Qle_bool_iff. unfold toCentimetres, Qdiv.
  change (/ inject_Z (2 * 1000000)) with (1 # 2000000).
  unfold Qle. cbn. lia.
Qed.

Lemma toCentimetres_le_400 (td : Z) :
  JS.le (toCentimetres td) 400 = true <-> (td <= 23323)%Z.
Proof.
  unfold JS.le. rewrite Qle_bool_iff. unfold toCentimetres, Qdiv.
  change (/ inject_Z (2 * 1000000)) with (1 # 2000000).
  unfold Qle. cbn. lia.
Qed.

Lemma in_window_true (td : Z) :
  (117 <= td <= 23323)%Z ->
  JS.le 2 (toCentimetres td) && JS.le (toCentimetres td) 400 = true.
Proof.
  intros [H1 H2]. apply andb_true_iff.
  split; [now apply toCentimetres_ge_2|now apply toCentimetres_le_400].
Qed.

Lemma in_window_false (td : Z) :
  ~ (117 <= td <= 23323)%Z ->
  JS.le 2 (toCentimetres td) && JS.le (toCentimetres td) 400 = false.
Proof.
  intros H. apply andb_false_iff.
  destruct (JS.le 2 (toCentimetres td)) eqn:E1; [|now left].
  destruct (JS.le (toCentimetres td) 400) eqn:E2; [|now right].
  apply toCentimetres_ge_2 in E1. apply toCentimetres_le_400 in E2. lia.
Qed.

(** A rising edge at tick [a] and a falling edge at tick [b], without a
    rollover in between and with neither tick 0: the echo lasted [b - a]
    microseconds.  [distanceChanged] is emitted, with
    [(b - a) * 34300 / 2000000] cm, exactly when the echo lasted between 117
    and 23323 microseconds; otherwise the distance is left as it was.  In
    both cases the two ticks are cleared. *)
Theorem echo_pulse_window (g : t) (a b : Z) :
  a <> 0%Z -> b <> 0%Z -> (a <= b)%Z ->
  let g1 := fst (onEchoInterrupt 1 a g) in
  let r := onEchoInterrupt 0 b g1 in
  ((117 <= b - a <= 23323)%Z ->
   snd r = [DistanceChanged (toCentimetres (b - a))]
   /\ currentDistance (fst r) = toCentimetres (b - a))
  /\ (~ (117 <= b - a <= 23323)%Z ->
      snd r = [] /\ currentDistance (fst r) = currentDistance g)
  /\ startTime (fst r) = 0%Z /\ endTime (fst r) = 0%Z.
Proof.
  intros Ha Hb Hab. cbv zeta.
  change (onEchoInterrupt 1 a g)
    with (set_ticks a (endTime g) g, @nil event).
  cbn [fst]. unfold onEchoInterrupt. cbn [Z.eqb].
  unfold calculateDistance, truthyZ.
  cbn [startTime endTime set_ticks].
  destruct (Z.eqb_spec a 0) as [|_]; [contradiction|].
  destruct (Z.eqb_spec b 0) as [|_]; [contradiction|].
  cbn [negb andb].
  destruct (Z.ltb_spec (b - a) 0) as [Hneg|_]; [lia|].
  split; [|split].
  - intros Hw. rewrite (in_window_true _ Hw). now split.
  - intros Hw. rewrite (in_window_false _ Hw). now split.
  - now destruct (JS.le 2 _ && JS.le _ 400).
Qed.

(** The theorem at work: an echo of 5831 microseconds. *)
Lemma echo_pulse_window_witness :
  let g := {|
    detectionDistance := 100;
    neopixelCount := 30; debugMode := false; initialized := true;
    mockMode := false; currentLedIntensity := 0; currentDistance := 999;
    startTime := 0; endTime := 0; pixels := replicate 30 0%Z;
    rendered := []; renderThrows := false |} in
  snd (onEchoInterrupt 0 1005831 (fst (onEchoInterrupt 1 1000000 g)))
  = [DistanceChanged (toCentimetres 5831)].
Proof.
  cbv zeta.
  refine (proj1 (proj1 (echo_pulse_window _ 1000000 1005831 _ _ _) _));
    lia.
Defined.

(** A measurement that is lost: when the falling edge comes with a tick
    below that of the rising edge (the 32-bit counter has wrapped), or when
    one of the two ticks is 0, no [distanceChanged] is emitted and the
    distance is left as it was. *)
Theorem echo_measurement_lost (g : t) (a b : Z) :
  (b < a)%Z \/ a = 0%Z \/ b = 0%Z ->
  let g1 := fst (onEchoInterrupt 1 a g) in
  let r := onEchoInterrupt 0 b g1 in
  snd r = [] /\ currentDistance (fst r) = currentDistance g.
Proof.
  intros H. cbv zeta.
  change (onEchoInterrupt 1 a g)
    with (set_ticks a (endTime g) g, @nil event).
  cbn [fst]. unfold onEchoInterrupt. cbn [Z.eqb].
  unfold calculateDistance, truthyZ.
  cbn [startTime endTime set_ticks].
  destruct (Z.eqb_spec a 0) as [|Ha]; [now split|].
  destruct (Z.eqb_spec b 0) as [|Hb]; [now split|].
  cbn [negb andb].
  destruct H as [H|[H|H]]; try contradiction.
  destruct (Z.ltb_spec (b - a) 0) as [_|Hpos]; [|lia].
  change (JS.shl 1 32) with 1%Z.
  rewrite in_window_false by lia. now split.
Qed.

(** The theorem at work: the counter wraps between the two edges. *)
Lemma echo_measurement_lost_witness :
  let g := {|
    detectionDistance := 100;
    neopixelCount := 30; debugMode := false; initialized := true;
    mockMode := false; currentLedIntensity := 0; currentDistance := 999;
    startTime := 0; endTime := 0; pixels := replicate 30 0%Z;
    rendered := []; renderThrows := false |} in
  snd (onEchoInterrupt 0 2000 (fst (onEchoInterrupt 1 4294960000 g))) = [].
Proof.
  cbv zeta.
  refine (proj1 (echo_measurement_lost _ 4294960000 2000 _)).
  left. lia.
Defined.

End GPIOEcho.

(** ** GPIO controller: the LED strip *)

Section GPIOStrip.
Import GPIOController.

Lemma ledKeeps_refl (g : t) : ledKeeps g g.
Proof. unfold ledKeeps. tauto. Qed.

Lemma ledKeeps_trans (g1 g2 g3 : t) :
  ledKeeps g1 g2 -> ledKeeps g2 g3 -> ledKeeps g1 g3.
Proof.
  unfold ledKeeps. intros (A1 & A2 & A3 & A4 & A5 & A6)
    (B1 & B2 & B3 & B4 & B5 & B6).
  repeat split; try congruence.
  intros Hr Hs. apply B6; [congruence|]. now apply A6.
Qed.

Lemma stripInSync_rendered (g : t) (px : list Z) :
  stripInSync (set_rendered (rendered g ++ [px]) (set_pixels px g)).
Proof. right. cbn. apply last_snoc. Qed.

Lemma typed_fill_length (c : Z) (n : nat) (px : list Z) :
  length (fold_left (fun px i => typed_set i c px) (seq 0 n) px) = length px.
Proof.
  rewrite typed_fill, length_app, length_replicate, length_drop. lia.
Qed.

Lemma clearAllLEDs_keeps (g : t) : ledKeeps g (clearAllLEDs g).
Proof.
  unfold clearAllLEDs.
  destruct (negb (initialized g) || mockMode g); [apply ledKeeps_refl|].
  unfold render. cbn [renderThrows set_pixels].
  destruct (renderThrows g) eqn:E; unfold ledKeeps; cbn;
    rewrite length_replicate; repeat split; try congruence.
  intros _ _. apply stripInSync_rendered.
Qed.

Lemma setStripColor_keeps (r gr b : Z) (x : Q) (g : t) :
  ledKeeps g (fst (setStripColor r gr b x g)).
Proof.
  unfold setStripColor.
  destruct (negb (initialized g) || mockMode g); [apply ledKeeps_refl|].
  unfold render. cbn [renderThrows set_pixels].
  destruct (renderThrows g) eqn:E; unfold ledKeeps; cbn;
    rewrite typed_fill_length; repeat split; try congruence.
  intros _ _. apply stripInSync_rendered.
Qed.

Lemma set_intensity_keeps (x : Q) (g : t) : ledKeeps g (set_intensity x g).
Proof. unfold ledKeeps. cbn. tauto. Qed.

Lemma setLEDIntensity_keeps (x : Q) (g : t) :
  ledKeeps g (fst (setLEDIntensity x g)).
Proof.
  unfold setLEDIntensity.
  destruct (negb (initialized g)); [apply ledKeeps_refl|].
  set (c := JS.Math_max 0 (JS.Math_min 100 x)).
  apply (ledKeeps_trans _ (set_intensity c g));
    [apply set_intensity_keeps|].
  destruct (mockMode (set_intensity c g)); [apply ledKeeps_refl|].
  destruct (Qeq_bool c 0); [apply clearAllLEDs_keeps|].
  apply setStripColor_keeps.
Qed.

Lemma testLEDs_keeps (x : Q) (g : t) : ledKeeps g (fst (testLEDs x g)).
Proof.
  unfold testLEDs. destruct (mockMode g); [apply ledKeeps_refl|].
  pose proof (setStripColor_keeps 255 0 0 x g) as H1.
  destruct (setStripColor 255 0 0 x g) as [g1 e1].
  pose proof (setStripColor_keeps 0 255 0 x g1) as H2.
  destruct (setStripColor 0 255 0 x g1) as [g2 e2].
  pose proof (setStripColor_keeps 0 0 255 x g2) as H3.
  destruct (setStripColor 0 0 255 x g2) as [g3 e3].
  pose proof (setStripColor_keeps 255 255 255 x g3) as H4.
  destruct (setStripColor 255 255 255 x g3) as [g4 e4].
  cbn [fst] in *.
  eapply ledKeeps_trans; [exact H1|].
  eapply ledKeeps_trans; [exact H2|].
  eapply ledKeeps_trans; [exact H3|].
  eapply ledKeeps_trans; [exact H4|].
  apply clearAllLEDs_keeps.
Qed.

Lemma ledStep_keeps (g : t) (c : ledCall) : ledKeeps g (ledStep g c).
Proof.
  destruct c; cbn [ledStep].
  - apply setLEDIntensity_keeps.
  - apply setStripColor_keeps.
  - apply clearAllLEDs_keeps.
  - apply setLEDIntensity_keeps.
  - apply testLEDs_keeps.
Qed.

Lemma ledRun_ledKeeps (g : t) (cs : list ledCall) :
  ledKeeps g (ledRun g cs).
Proof.
  revert g. induction cs as [|c cs IH]; intros g.
  - apply ledKeeps_refl.
  - change (ledRun g (c :: cs)) with (ledRun (ledStep g c) cs).
    eapply ledKeeps_trans; [apply ledStep_keeps|apply IH].
Qed.

(** Whatever calls drive the strip, in whatever order, the pixel array
    keeps its length, the flags and the pixel count stay as they are, and,
    when rendering does not throw, the strip stays in sync with the array:
    the last frame rendered is the array as it is. *)
Theorem ledRun_keeps (g : t) (cs : list ledCall) :
  let g' := ledRun g cs in
  length (pixels g') = length (pixels g)
  /\ initialized g' = initialized g
  /\ mockMode g' = mockMode g
  /\ neopixelCount g' = neopixelCount g
  /\ (renderThrows g = false -> stripInSync g -> stripInSync g').
Proof.
  cbv zeta. pose proof (ledRun_ledKeeps g cs) as H.
  unfold ledKeeps in H. tauto.
Qed.

(** [initialize()] on a controller that was not initialized: the pixel array
    is created with [neopixelCount] zeros, but nothing is rendered.  The
    [clearAllLEDs()] of [setupNeoPixelStrip] runs while [initialized] is
    still false and returns at its guard, so the strip itself is not
    switched off. *)
Theorem initialize_renders_nothing (g : t) :
  initialized g = false ->
  let g' := initialize g in
  initialized g' = true
  /\ rendered g' = rendered g
  /\ (mockMode g = false ->
      pixels g' = replicate (neopixelCount g) 0%Z /\ stripSetUp g')
  /\ (mockMode g = true -> pixels g' = pixels g).
Proof.
  intros Hi. cbv zeta. unfold initialize, setupNeoPixelStrip, clearAllLEDs.
  cbn [initialized set_pixels mockMode]. rewrite Hi. cbn [negb orb].
  destruct (mockMode g); cbn; repeat split; try discriminate.
  unfold stripSetUp. cbn. apply length_replicate.
Qed.

(** The theorem at work: a strip of three pixels. *)
Lemma initialize_renders_nothing_witness :
  let g := {|
    detectionDistance := 100;
    neopixelCount := 3; debugMode := false; initialized := false;
    mockMode := false; currentLedIntensity := 0; currentDistance := 999;
    startTime := 0; endTime := 0; pixels := [];
    rendered := []; renderThrows := false |} in
  initialized (initialize g) = true
  /\ rendered (initialize g) = []
  /\ pixels (initialize g) = [0; 0; 0]%Z.
Proof.
  cbv zeta.
  match goal with
  | |- initialized (initialize ?g) = _ /\ _ =>
      destruct (initialize_renders_nothing g eq_refl)
        as (H1 & H2 & H3 & _)
  end.
  split; [exact H1|]. split; [exact H2|]. exact (proj1 (H3 eq_refl)).
Defined.




(** After any calls that drive the strip, [turnOffLEDs()] on an
    initialized controller out of mock mode leaves every pixel off and
    the recorded intensity at 0. *)
Theorem turnOffLEDs_after_any_calls (g : t) (cs : list ledCall) :
  initialized g = true -> mockMode g = false ->
  let g' := fst (turnOffLEDs (ledRun g cs)) in
  pixels g' = replicate (length (pixels g)) 0%Z
  /\ currentLedIntensity g' = 0.
Proof.
  intros Hi Hm. cbv zeta.
  destruct (ledRun_ledKeeps g cs) as (Hi' & Hm' & _ & _ & Hl & _).
  rewrite <- Hi' in Hi. rewrite <- Hm' in Hm.
  unfold turnOffLEDs, setLEDIntensity. rewrite Hi. cbn [negb].
  cbn [mockMode set_intensity]. rewrite Hm.
  change (Qeq_bool (JS.Math_max 0 (JS.Math_min 100 0)) 0) with true.
  cbn [fst]. rewrite clearAllLEDs_intensity, clearAllLEDs_pixels by assumption.
  cbn [pixels set_intensity currentLedIntensity]. rewrite Hl.
  now split.
Qed.

(** The theorem at work: lit, recoloured, then switched off. *)
Lemma turnOffLEDs_after_any_calls_witness :
  let g := {|
    detectionDistance := 100;
    neopixelCount := 2; debugMode := false; initialized := true;
    mockMode := false; currentLedIntensity := 0; currentDistance := 999;
    startTime := 0; endTime := 0; pixels := [0; 0]%Z;
    rendered := []; renderThrows := false |} in
  pixels (fst (turnOffLEDs
                 (ledRun g [SetLEDIntensity 80; SetStripColor 255 0 0 40])))
  = [0; 0]%Z.
Proof.
  cbv zeta.
  match goal with
  | |- pixels (fst (turnOffLEDs (ledRun ?g ?cs))) = _ =>
      exact (proj1 (turnOffLEDs_after_any_calls g cs eq_refl eq_refl))
  end.
Defined.

End GPIOStrip.

(** ** The potentiometer *)

Section PotentiometerFacts.
Import JSON Potentiometer.

(** [readPotentiometer()] gives a percentage: with [Math.random()] in
    [0, 1) and an ADC value in [0, 1], what it resolves to lies in
    [0, 100]; it is rejected only with the error of the ADC read. *)
Theorem readPotentiometer_percentage
    (g : GPIOController.t) (random : Q) (adc : option (outcome Q)) :
  0 <= random < 1 ->
  (forall value, adc = Some (Return value) -> 0 <= value <= 1) ->
  match readPotentiometer g random adc with
  | Return p => (0 <= p <= 100)%Z
  | Throw msg =>
      GPIOController.mockMode g = false /\ adc = Some (Throw msg)
  end.
Proof.
  intros [Hr0 Hr1] Hv. unfold readPotentiometer.
  destruct (GPIOController.mockMode g).
  - split.
    + apply (Qfloor_resp_le 0). lra.
    + apply (Qfloor_resp_le _ 100). lra.
  - destruct adc as [[value|msg]|]; [|now split|lia].
    destruct (Hv value eq_refl) as [H0 H1]. unfold JS.Math_round. split.
    + apply (Qfloor_resp_le 0). lra.
    + apply (Qfloor_resp_le _ (100 + (1 # 2))). lra.
Qed.

(** The theorem at work: an ADC value of 0.333. *)
Lemma readPotentiometer_percentage_witness :
  let g := {|
    GPIOController.detectionDistance := 100;
    GPIOController.neopixelCount := 2;
    GPIOController.debugMode := false;
    GPIOController.initialized := true;
    GPIOController.mockMode := false;
    GPIOController.currentLedIntensity := 0;
    GPIOController.currentDistance := 999;
    GPIOController.startTime := 0;
    GPIOController.endTime := 0;
    GPIOController.pixels := [0; 0]%Z;
    GPIOController.rendered := [];
    GPIOController.renderThrows := false |} in
  match readPotentiometer g (1 # 2) (Some (Return (333 # 1000))) with
  | Return p => (0 <= p <= 100)%Z
  | Throw msg =>
      GPIOController.mockMode g = false
      /\ Some (Return (333 # 1000)) = Some (Throw msg)
  end.
Proof.
  cbv zeta. apply readPotentiometer_percentage.
  - split; [discriminate|reflexivity].
  - intros value [= <-]. split; discriminate.
Defined.



(** The Arduino bridge of the Array version.  A line of type
    [potentiometer] with the number [v] announces [v]; after it
    [readPotentiometer()] resolves to [v], unless [v] is 0: a potentiometer
    turned fully down is read as 50, through [this.lastPotValue || 50]. *)
Theorem arduino_zero_reads_as_50
    (a : adc) (message : gmap string json) (v random : Q)
    (python : outcome Q) :
  mockMode a = false -> neopixelMockMode a = false ->
  adcReady a = true -> adcType a = "arduino" ->
  message !! "type" = Some (JStr "potentiometer") ->
  message !! "value" = Some (JNum v) ->
  let a' := fst (handleArduinoData (JsonText (JObj message)) a) in
  snd (handleArduinoData (JsonText (JObj message)) a)
  = [ArduinoPotentiometerChanged (Some (JNum v))]
  /\ (~ v == 0 -> readPotentiometerV2 a' random python = JNum v)
  /\ (v == 0 -> readPotentiometerV2 a' random python = JNum 50).
Proof.
  intros Hm Hn Hr Ht Htype Hval. cbv zeta.
  unfold handleArduinoData, parse, get. cbn [ownProperties].
  rewrite Htype, Hval. cbn [fst snd]. split; [reflexivity|].
  unfold readPotentiometerV2. cbn [mockMode neopixelMockMode adcReady
    adcType lastPotValue]. rewrite Hm, Hn, Hr, Ht. cbn [orb negb].
  change (String.eqb "arduino" "arduino") with true. cbv iota.
  unfold truthy, JS.truthy. split; intros Hv.
  - destruct (Qeq_bool v 0) eqn:E; [|reflexivity].
    now apply Qeq_bool_iff in E.
  - now rewrite (Qeq_eq_bool _ _ Hv).
Qed.

(** The theorem at work: the Arduino reports 0 percent. *)
Lemma arduino_zero_reads_as_50_witness :
  let a := {| mockMode := false; neopixelMockMode := false;
              adcReady := true; adcType := "arduino";
              lastPotValue := Some (JNum 50) |} in
  let message : gmap string json :=
    list_to_map [("type", JStr "potentiometer"); ("value", JNum 0);
                 ("raw", JNum 0)] in
  readPotentiometerV2
    (fst (handleArduinoData (JsonText (JObj message)) a)) 0 (Return 0)
  = JNum 50.
Proof.
  cbv zeta.
  match goal with
  | |- readPotentiometerV2
         (fst (handleArduinoData (JsonText (JObj ?m)) ?a)) _ _ = _ =>
      refine (proj2 (proj2 (arduino_zero_reads_as_50 a m 0 0 (Return 0)
                              eq_refl eq_refl eq_refl eq_refl _ _)) _)
  end; vm_compute; reflexivity.
Defined.

End PotentiometerFacts.

(** ** Configuration server: what a valid configuration is, and what a
       POST does *)

Section ConfigurationPost.
Import JSON NodeHelper.

Lemma hasOwnProperty_false (c : json) (field : string) :
  hasOwnProperty c field = Return false -> get c field = None.
Proof.
  unfold hasOwnProperty, get.
  destruct c as [|b|n|negative|s|l|m]; try discriminate;
    try (intros _; apply lookup_empty).
  - intros [= H]. apply bool_decide_eq_false in H.
    destruct (ownProperties (JArr l) !! field) eqn:E; [|reflexivity].
    exfalso. apply H. eauto.
  - destruct (m !! "hasOwnProperty"); [discriminate|].
    intros [= H]. apply bool_decide_eq_false in H. cbn.
    destruct (m !! field) eqn:E; [|reflexivity].
    exfalso. apply H. eauto.
Qed.

(** A loop over the fields that ran to its end has found every field that
    is present in order. *)
Lemma checkFields_true (ok : json -> bool) (c : json) (fields : list string) :
  checkFields ok c fields = Return true ->
  forall field v, In field fields -> get c field = Some v -> ok v = true.
Proof.
  induction fields as [|f fields IH]; intros H field v Hin Hv;
    [destruct Hin|].
  cbn [checkFields] in H.
  destruct (hasOwnProperty c f) as [[|]|msg] eqn:Eh; try discriminate.
  - destruct (get c f) as [w|] eqn:Ew.
    + destruct (ok w) eqn:Eok; [|discriminate].
      destruct Hin as [<-|Hin]; [congruence|]. now apply (IH H field).
    + destruct Hin as [<-|Hin]; [congruence|]. now apply (IH H field).
  - apply hasOwnProperty_false in Eh.
    destruct Hin as [<-|Hin]; [congruence|]. now apply (IH H field).
Qed.

(** A number that passes a range test is finite and within the range. *)
Lemma outOfRange_false (c : json) (field : string) (lo hi : Q) (v : json) :
  outOfRange c field lo hi = false ->
  get c field = Some v -> isNumber v = true ->
  exists n, v = JNum n /\ lo <= n <= hi.
Proof.
  unfold outOfRange. intros H Hv Hn. rewrite Hv in H.
  destruct v; try discriminate.
  apply orb_false_iff in H as [H1 H2].
  eexists. split; [reflexivity|].
  split; now apply lt_false_iff.
Qed.

(** What a body that has passed validation holds under the three numeric
    names. *)
Lemma validateConfiguration_numbers (c : json) :
  validateConfiguration (Some c) = Return true ->
  (forall field v, In field numericFields -> get c field = Some v ->
     isNumber v = true)
  /\ (forall v, get c "ledIntensity" = Some v ->
        exists n, v = JNum n /\ 0 <= n <= 100)
  /\ (forall v, get c "detectionDistance" = Some v ->
        exists n, v = JNum n /\ 10 <= n <= 400).
Proof.
  unfold validateConfiguration.
  destruct (negb _); [discriminate|].
  destruct (checkFields isBoolean c booleanFields) as [[|]|];
    try discriminate.
  destruct (checkFields isNumber c numericFields) as [[|]|] eqn:En;
    try discriminate.
  destruct (outOfRange c "ledIntensity" 0 100) eqn:El; [discriminate|].
  destruct (outOfRange c "detectionDistance" 10 400) eqn:Ed;
    [discriminate|].
  intros _.
  pose proof (checkFields_true _ _ _ En) as Hnum.
  split; [exact Hnum|]. split.
  - intros v Hv. apply (outOfRange_false _ _ _ _ _ El Hv).
    apply (Hnum "ledIntensity"); [cbn; auto|exact Hv].
  - intros v Hv. apply (outOfRange_false _ _ _ _ _ Ed Hv).
    apply (Hnum "detectionDistance"); [cbn; auto|exact Hv].
Qed.

(** What [validateConfiguration] lets through.  In a body it accepts, each
    of the five display flags that is present is a boolean, each of
    [ledIntensity], [motionTimeout] and [detectionDistance] that is present
    is a number; [ledIntensity] is finite and lies in [0, 100],
    [detectionDistance] is finite and lies in [10, 400].  [motionTimeout]
    is not bounded, and may be infinite. *)
Theorem validateConfiguration_sound (c : json) :
  validateConfiguration (Some c) = Return true ->
  (forall field v, In field booleanFields -> get c field = Some v ->
     exists b, v = JBool b)
  /\ (forall field v, In field numericFields -> get c field = Some v ->
        (exists n, v = JNum n)
        \/ (field = "motionTimeout"
            /\ exists negative, v = JInfinity negative))
  /\ (forall v, get c "ledIntensity" = Some v ->
        exists n, v = JNum n /\ 0 <= n <= 100)
  /\ (forall v, get c "detectionDistance" = Some v ->
        exists n, v = JNum n /\ 10 <= n <= 400).
Proof.
  intros Hvalid.
  destruct (validateConfiguration_numbers c Hvalid) as (Hnum & Hl & Hd).
  revert Hvalid. unfold validateConfiguration.
  destruct (negb _); [discriminate|].
  destruct (checkFields isBoolean c booleanFields) as [[|]|] eqn:Eb;
    try discriminate.
  intros _. split; [|split; [|split]].
  - intros field v Hin Hv.
    pose proof (checkFields_true _ _ _ Eb field v Hin Hv) as H.
    destruct v; try discriminate. eauto.
  - intros field v Hin Hv.
    pose proof (Hnum field v Hin Hv) as H.
    destruct v; try discriminate; [eauto|].
    destruct Hin as [<-|[<-|[<-|[]]]].
    + destruct (Hl _ Hv) as (n & Hn & _). discriminate.
    + right. eauto.
    + destruct (Hd _ Hv) as (n & Hn & _). discriminate.
  - exact Hl.
  - exact Hd.
Qed.

(** The theorem at work: a body with a negative [motionTimeout]. *)
Lemma validateConfiguration_sound_witness :
  let c := JObj (list_to_map [("ledIntensity", JNum 80);
                              ("motionTimeout", JNum (- (5)))]) in
  validateConfiguration (Some c) = Return true
  /\ forall v, get c "ledIntensity" = Some v ->
       exists n, v = JNum n /\ 0 <= n <= 100.
Proof.
  cbv zeta. split; [vm_compute; reflexivity|].
  refine (proj1 (proj2 (proj2 (validateConfiguration_sound _ _)))).
  vm_compute. reflexivity.
Defined.

(** Applying a configuration to the hardware touches neither the disk nor
    the module instances, and only adds notifications. *)
Lemma applyHardwareConfiguration_frame (c : json) (h : t) :
  fs (applyHardwareConfiguration c h) = fs h
  /\ moduleInstances (applyHardwareConfiguration c h) = moduleInstances h
  /\ exists ns, sent (applyHardwareConfiguration c h) = sent h ++ ns.
Proof.
  unfold applyHardwareConfiguration.
  destruct (sensorManager h) as [s|], (gpioController h) as [g|];
    try (repeat split; exists []; now rewrite app_nil_r).
  destruct (get c "detectionDistance") as [[]|];
    destruct (get c "motionTimeout") as [[]|];
    destruct (get c "ledIntensity") as [[]|]; cbn;
    try destruct (objectPresent h); cbn;
    try destruct (GPIOController.setLEDIntensity _ _); cbn;
    (split; [reflexivity|split; [reflexivity|eexists; reflexivity]]).
Qed.

Lemma set_fs_same (h : t) : set_fs (fs h) h = h.
Proof. now destruct h. Qed.

(** What a POST leaves.  The answer is 200, 400 or 500.  With 400 the
    helper is as before.  With 500 the hardware and the notifications sent
    are as before, and so is the file, unless the body had passed
    validation and the write failed after the file was opened: then the
    file is left truncated, and [loadConfiguration] returns the default
    configuration from then on.  With 200 the body had passed validation,
    the file holds its properties as [JSON.stringify] writes them ([null]
    for an infinite number) and the time of the request under
    [lastUpdated], and the last notifications sent are a [CONFIG_UPDATED]
    with the body for every module instance (of which this helper never
    registers one). *)
Theorem postConfig_outcomes (now : string) (body : option json) (h : t) :
  let h' := fst (postConfig now body h) in
  let r := snd (postConfig now body h) in
  (status r = 200%nat \/ status r = 400%nat \/ status r = 500%nat)
  /\ (success r = true <-> status r = 200%nat)
  /\ (status r = 400%nat -> h' = h)
  /\ (status r = 500%nat ->
      h' = set_fs (fs h') h
      /\ (fs h' = fs h
          \/ exists msg,
               validateConfiguration body = Return true
               /\ writeError (fs h) = Some (WriteFails msg)
               /\ message r = msg
               /\ configFile (fs h') = Readable Malformed
               /\ loadConfiguration (fs h') = defaultConfiguration))
  /\ (status r = 200%nat ->
       exists c, body = Some c
         /\ validateConfiguration body = Return true
         /\ get (loadConfiguration (fs h')) "lastUpdated" = Some (JStr now)
         /\ (forall field, field <> "lastUpdated" ->
               get (loadConfiguration (fs h')) field
               = written <$> get c field)
         /\ exists ns,
              sent h' = sent h ++ ns
                        ++ map (CONFIG_UPDATED c) (moduleInstances h)).
Proof.
  cbv zeta. unfold postConfig.
  destruct (validateConfiguration body) as [[|]|msg] eqn:Ev;
    cbn [fst snd status success message].
  - destruct body as [c|]; cbn [fst snd status success message].
    + destruct (saveConfiguration now c (fs h)) as [d [[]|msg]] eqn:Es;
        cbn [fst snd status success message].
      * split; [auto|]. split; [split; reflexivity|].
        split; [discriminate|]. split; [discriminate|]. intros _.
        destruct (applyHardwareConfiguration_frame c (set_fs d h))
          as (Hfs & Hmi & ns & Hns).
        exists c. split; [reflexivity|]. split; [reflexivity|].
        cbn [fs send sent]. rewrite Hfs, Hmi, Hns. cbn [fs set_fs sent
          moduleInstances].
        rewrite (saveConfiguration_saved _ _ _ _ Es). unfold get at 1 2.
        cbn [ownProperties].
        split; [apply lookup_insert_eq|].
        split.
        { intros field Hne. rewrite lookup_insert_ne by congruence.
          apply lookup_fmap. }
        exists ns. now rewrite <- app_assoc.
      * split; [auto|]. split; [split; discriminate|].
        split; [discriminate|]. split; [|discriminate]. intros _.
        cbn [fs set_fs]. split; [reflexivity|].
        revert Es. unfold saveConfiguration, writeFileSync.
        destruct (writeError (fs h)) as [[m|m]|] eqn:Ew;
          try discriminate; intros [= <- <-].
        -- now left.
        -- right. exists m. now repeat split.
    + split; [auto|]. split; [split; discriminate|].
      split; [reflexivity|]. split; discriminate.
  - split; [auto|]. split; [split; discriminate|].
    split; [reflexivity|]. split; discriminate.
  - split; [auto|]. split; [split; discriminate|].
    split; [discriminate|]. split; [|discriminate]. intros _.
    split; [now rewrite set_fs_same|now left].
Qed.

Lemma applyHardwareConfiguration_sensorManager (c : json) (h : t)
    (s : SensorManager.t) (g : GPIOController.t) :
  sensorManager h = Some s -> gpioController h = Some g ->
  sensorManager (applyHardwareConfiguration c h)
  = Some
      (let s1 :=
         match get c "detectionDistance" with
         | Some (JNum d) => fst (SensorManager.setDetectionDistance d s)
         | _ => s
         end in
       match get c "motionTimeout" with
       | Some (JNum ms) =>
           fst (SensorManager.setPresenceTimeout (JS.Finite ms) s1)
       | Some (JInfinity negative) =>
           fst (SensorManager.setPresenceTimeout (JS.Infinite negative) s1)
       | _ => s1
       end).
Proof.
  intros Hs Hg. unfold applyHardwareConfiguration. rewrite Hs, Hg.
  destruct (get c "detectionDistance") as [[]|];
    destruct (get c "motionTimeout") as [[]|];
    destruct (get c "ledIntensity") as [[]|]; cbn;
    try destruct (objectPresent h); cbn;
    try destruct (GPIOController.setLEDIntensity _ _); reflexivity.
Qed.

(** What a successful POST does to the sensor manager.  With the hardware
    present and the file writable, a body that passes validation sets the
    manager's detection distance to the posted [detectionDistance] (which
    validation has put in [10, 400], so that the setter's clamp changes
    nothing), and its presence timeout to the larger of 1000 and the posted
    [motionTimeout].  A finite [motionTimeout] is kept in the file as it
    came: one under 1000 ms is accepted and saved, while the manager runs
    with 1000 ms.  An infinite one (posted as [1e999]) is accepted too: the
    file holds [null] for it, the manager's timeout is infinite, and the
    presence timers armed from then on run for 1 ms. *)
Theorem postConfig_applies_to_hardware (now : string) (c : json) (h : t)
    (s : SensorManager.t) (g : GPIOController.t)
    (Hvalid : validateConfiguration (Some c) = Return true)
    (Hwrite : writeError (fs h) = None)
    (Hs : sensorManager h = Some s)
    (Hg : gpioController h = Some g) :
  let h' := fst (postConfig now (Some c) h) in
  exists s',
    sensorManager h' = Some s'
    /\ (forall d, get c "detectionDistance" = Some (JNum d) ->
          SensorManager.detectionDistance (SensorManager.cfg s') == d)
    /\ (forall ms, get c "motionTimeout" = Some (JNum ms) ->
          SensorManager.presenceTimeout (SensorManager.cfg s')
          = JS.Finite (JS.Math_max 1000 ms)
          /\ get (loadConfiguration (fs h')) "motionTimeout"
             = Some (JNum ms))
    /\ (get c "motionTimeout" = Some (JInfinity false) ->
          SensorManager.presenceTimeout (SensorManager.cfg s')
          = JS.Infinite false
          /\ JS.timerDelay
               (SensorManager.presenceTimeout (SensorManager.cfg s')) = 1
          /\ get (loadConfiguration (fs h')) "motionTimeout" = Some JNull).
Proof.
  cbv zeta. unfold postConfig. rewrite Hvalid.
  destruct (saveConfiguration now c (fs h)) as [d [[]|msg]] eqn:Es.
  2:{ exfalso. revert Es. unfold saveConfiguration, writeFileSync.
      now rewrite Hwrite. }
  cbv zeta. cbn [fst send sensorManager fs].
  destruct (applyHardwareConfiguration_frame c (set_fs d h))
    as (Hfs & _ & _).
  assert (Hfile : forall field, field <> "lastUpdated" ->
            get (loadConfiguration
                   (fs (applyHardwareConfiguration c (set_fs d h)))) field
            = written <$> get c field).
  { intros field Hne. rewrite Hfs. cbn [fs set_fs].
    rewrite (saveConfiguration_saved _ _ _ _ Es). unfold get.
    cbn [ownProperties]. rewrite lookup_insert_ne by congruence.
    apply lookup_fmap. }
  rewrite (applyHardwareConfiguration_sensorManager c (set_fs d h) s g Hs Hg).
  eexists. split; [reflexivity|]. split; [|split].
  - intros x Hx. rewrite Hx.
    destruct (validateConfiguration_numbers c Hvalid) as (_ & _ & Hd).
    destruct (Hd _ Hx) as (n & [= <-] & Hrange).
    destruct (clamp_between 10 400 x ltac:(lra)) as (_ & Hid & _).
    destruct (get c "motionTimeout") as [[]|]; cbn; now apply Hid.
  - intros ms Hms. split.
    + rewrite Hms.
      destruct (get c "detectionDistance") as [[]|]; reflexivity.
    + rewrite Hfile by discriminate. now rewrite Hms.
  - intros Hms. split; [|split].
    + rewrite Hms.
      destruct (get c "detectionDistance") as [[]|]; reflexivity.
    + rewrite Hms.
      destruct (get c "detectionDistance") as [[]|]; reflexivity.
    + rewrite Hfile by discriminate. now rewrite Hms.
Qed.

(** The theorem at work: a timeout of 500 ms is posted. *)
Lemma postConfig_applies_to_hardware_witness :
  let c := JObj (list_to_map [("detectionDistance", JNum 150);
                              ("motionTimeout", JNum 500)]) in
  let s := SensorManager.new SensorManager.no_options in
  let g := {|
    GPIOController.detectionDistance := 100;
    GPIOController.neopixelCount := 2;
    GPIOController.debugMode := false;
    GPIOController.initialized := true;
    GPIOController.mockMode := false;
    GPIOController.currentLedIntensity := 0;
    GPIOController.currentDistance := 999;
    GPIOController.startTime := 0; GPIOController.endTime := 0;
    GPIOController.pixels := [0; 0]%Z;
    GPIOController.rendered := [];
    GPIOController.renderThrows := false |} in
  let h := {| fs := {| configFile := Missing; writeError := None |};
              sensorManager := Some s;
              gpioController := Some g;
              moduleInstances := ["module_1"];
              listenerIdentifier := "module_1";
              objectPresent := false;
              currentLedIntensity := 50;
              sent := [] |} in
  let h' := fst (postConfig "2024-01-01T00:00:00.000Z" (Some c) h) in
  exists s',
    sensorManager h' = Some s'
    /\ SensorManager.presenceTimeout (SensorManager.cfg s')
       = JS.Finite 1000
    /\ get (loadConfiguration (fs h')) "motionTimeout" = Some (JNum 500).
Proof.
  intros c s g h h'.
  destruct (postConfig_applies_to_hardware
              "2024-01-01T00:00:00.000Z" c h s g
              ltac:(vm_compute; reflexivity) eq_refl eq_refl eq_refl)
    as (s' & Hs' & _ & Hms & _).
  exists s'. split; [exact Hs'|].
  destruct (Hms 500 ltac:(vm_compute; reflexivity)) as [H1 H2].
  split; [rewrite H1; reflexivity|exact H2].
Defined.

End ConfigurationPost.

(** ** The presence loop *)

Section PresenceLoopFacts.
Import PresenceLoop.








Lemma updateLEDs_gpio (enabled : bool) (x : Q) (h : NodeHelper.t)
    (g : GPIOController.t) :
  NodeHelper.gpioController h = Some g ->
  NodeHelper.gpioController (updateLEDs enabled x h)
  = Some (fst (if enabled then GPIOController.setLEDIntensity x g
               else GPIOController.turnOffLEDs g))
  /\ NodeHelper.currentLedIntensity (updateLEDs enabled x h)
     = (if enabled then x else 0).
Proof.
  intros Hg. unfold updateLEDs. rewrite Hg.
  destruct (if enabled then _ else _) as [g' evs]. now split.
Qed.

(** Presence lights the mirror.  When the [MOTION_DETECTED] of the
    [presenceDetected] listener reaches a loaded module instance, and the
    helper holds an initialized GPIO controller: if the notification carries
    the instance's identifier, the module shows its content and the
    controller's LED intensity becomes the module's [ledIntensity] clamped
    to [0, 100], while the helper records the intensity as the module sent
    it; if it carries another identifier, neither the module nor the helper
    changes. *)
Theorem motion_detected_lights_up (id identifier : string)
    (distance detection random : Q) (m : InfoMirror.t) (h : NodeHelper.t)
    (g : GPIOController.t)
    (Hg : NodeHelper.gpioController h = Some g)
    (Hi : GPIOController.initialized g = true)
    (Hl : InfoMirror.loaded m = true) :
  let mh := deliver identifier (MOTION_DETECTED id distance detection)
              (m, h) in
  (id = identifier ->
   (exists content,
      InfoMirror.getDom InfoMirror.Hardware random (fst mh)
      = InfoMirror.Element "div" "mmm-infomirror" None [content])
   /\ (exists g',
         NodeHelper.gpioController (snd mh) = Some g'
         /\ GPIOController.currentLedIntensity g'
            = Qmin 100 (Qmax 0 (InfoMirror.ledIntensity (InfoMirror.cfg m))))
   /\ NodeHelper.currentLedIntensity (snd mh)
      = InfoMirror.ledIntensity (InfoMirror.cfg m))
  /\ (id <> identifier -> mh = (m, h)).
Proof.
  cbv zeta. unfold deliver, InfoMirror.socketNotificationReceived.
  cbn [toModule fst snd]. split.
  - intros ->. rewrite String.eqb_refl. cbn [negb fst snd fold_left onRequest].
    destruct (updateLEDs_gpio true
                (InfoMirror.ledIntensity (InfoMirror.cfg m)) h g Hg)
      as [E1 E2].
    split; [|split].
    + unfold InfoMirror.getDom.
      cbn [InfoMirror.loaded InfoMirror.set_cfg InfoMirror.cfg
           InfoMirror.displayEnabled InfoMirror.set_displayEnabled].
      rewrite Hl. cbn [negb]. eexists. reflexivity.
    + eexists. split; [exact E1|].
      apply (setLEDIntensity_native g _ Hi).
    + exact E2.
  - intros Hne. apply String.eqb_neq in Hne. now rewrite Hne.
Qed.

(** The theorem at work: a module at intensity 150 is lit at 100. *)
Lemma motion_detected_lights_up_witness :
  let g := {|
    GPIOController.detectionDistance := 100;
    GPIOController.neopixelCount := 2;
    GPIOController.debugMode := false;
    GPIOController.initialized := true;
    GPIOController.mockMode := false;
    GPIOController.currentLedIntensity := 0;
    GPIOController.currentDistance := 999;
    GPIOController.startTime := 0; GPIOController.endTime := 0;
    GPIOController.pixels := [0; 0]%Z;
    GPIOController.rendered := [];
    GPIOController.renderThrows := false |} in
  let h := {|
    NodeHelper.fs := {| NodeHelper.configFile := NodeHelper.Missing;
                        NodeHelper.writeError := None |};
    NodeHelper.sensorManager := None;
    NodeHelper.gpioController := Some g;
    NodeHelper.moduleInstances := ["module_1"];
    NodeHelper.listenerIdentifier := "module_1";
    NodeHelper.objectPresent := false;
    NodeHelper.currentLedIntensity := 0;
    NodeHelper.sent := [] |} in
  let m := {|
    InfoMirror.cfg := {|
      InfoMirror.showWeather := true; InfoMirror.showTime := true;
      InfoMirror.showCalendar := true; InfoMirror.showCompliments := false;
      InfoMirror.displayEnabled := false; InfoMirror.ready := true;
      InfoMirror.ledIntensity := 150; InfoMirror.configPort := 3001;
      InfoMirror.debugMode := false |};
    InfoMirror.loaded := true;
    InfoMirror.weatherData := None;
    InfoMirror.calendarEvents := [];
    InfoMirror.currentTime := {| InfoMirror.localeTime := "12:00";
                                 InfoMirror.localeDate := "Monday" |} |} in
  NodeHelper.currentLedIntensity
    (snd (deliver "module_1" (MOTION_DETECTED "module_1" 80 100) (m, h)))
  = 150.
Proof.
  intros g h m.
  exact (proj2 (proj2 (proj1
           (motion_detected_lights_up "module_1" "module_1" 80 100 0 m h g
              eq_refl eq_refl eq_refl) eq_refl))).
Defined.

(** The mirror goes dark.  When the [MOTION_TIMEOUT] of the
    [presenceTimeout] listener reaches the module instance it names, and
    the helper holds an initialized GPIO controller, the module's
    [displayEnabled] goes off: a loaded module hides its DOM, a module
    that has not yet received [HARDWARE_READY] keeps showing the loading
    notice.  The controller's LED intensity becomes 0 and, on a strip that
    is set up and not mocked, every pixel is 0; the helper records the
    intensity 0. *)
Theorem motion_timeout_goes_dark (identifier : string) (random : Q)
    (m : InfoMirror.t) (h : NodeHelper.t) (g : GPIOController.t)
    (Hg : NodeHelper.gpioController h = Some g)
    (Hi : GPIOController.initialized g = true) :
  let mh := deliver identifier (MOTION_TIMEOUT identifier) (m, h) in
  InfoMirror.displayEnabled (InfoMirror.cfg (fst mh)) = false
  /\ InfoMirror.getDom InfoMirror.Hardware random (fst mh)
     = (if InfoMirror.loaded m
        then InfoMirror.Element "div" "mmm-infomirror" (Some "none") []
        else InfoMirror.Element "div" "mmm-infomirror" None
               (InfoMirror.loadingMarkup InfoMirror.Hardware))
  /\ (exists g',
        NodeHelper.gpioController (snd mh) = Some g'
        /\ GPIOController.currentLedIntensity g' = 0
        /\ (GPIOController.mockMode g = false ->
            GPIOController.stripSetUp g ->
            GPIOController.pixels g'
            = replicate (GPIOController.neopixelCount g) 0%Z))
  /\ NodeHelper.currentLedIntensity (snd mh) = 0.
Proof.
  cbv zeta. unfold deliver, InfoMirror.socketNotificationReceived.
  cbn [toModule fst snd]. rewrite String.eqb_refl.
  cbn [negb fst snd fold_left onRequest].
  destruct (updateLEDs_gpio false 0 h g Hg) as [E1 E2].
  split; [reflexivity|]. split; [|split].
  - unfold InfoMirror.getDom.
    cbn [InfoMirror.loaded InfoMirror.set_cfg InfoMirror.cfg
         InfoMirror.displayEnabled InfoMirror.set_displayEnabled].
    now destruct (InfoMirror.loaded m).
  - eexists. split; [exact E1|].
    unfold GPIOController.turnOffLEDs.
    destruct (setLEDIntensity_native g 0 Hi) as (Hc & _ & _ & Hp).
    split; [exact Hc|].
    intros Hm Hs. destruct (Hp Hm Hs) as [Hz _]. apply Hz. reflexivity.
  - exact E2.
Qed.

(** The theorem at work: a lit strip of two pixels goes dark. *)
Lemma motion_timeout_goes_dark_witness :
  let g := {|
    GPIOController.detectionDistance := 100;
    GPIOController.neopixelCount := 2;
    GPIOController.debugMode := false;
    GPIOController.initialized := true;
    GPIOController.mockMode := false;
    GPIOController.currentLedIntensity := 50;
    GPIOController.currentDistance := 999;
    GPIOController.startTime := 0; GPIOController.endTime := 0;
    GPIOController.pixels := [8421504; 8421504]%Z;
    GPIOController.rendered := [];
    GPIOController.renderThrows := false |} in
  let h := {|
    NodeHelper.fs := {| NodeHelper.configFile := NodeHelper.Missing;
                        NodeHelper.writeError := None |};
    NodeHelper.sensorManager := None;
    NodeHelper.gpioController := Some g;
    NodeHelper.moduleInstances := ["module_1"];
    NodeHelper.listenerIdentifier := "module_1";
    NodeHelper.objectPresent := true;
    NodeHelper.currentLedIntensity := 50;
    NodeHelper.sent := [] |} in
  let m := {|
    InfoMirror.cfg := {|
      InfoMirror.showWeather := true; InfoMirror.showTime := true;
      InfoMirror.showCalendar := true; InfoMirror.showCompliments := false;
      InfoMirror.displayEnabled := true; InfoMirror.ready := true;
      InfoMirror.ledIntensity := 50; InfoMirror.configPort := 3001;
      InfoMirror.debugMode := false |};
    InfoMirror.loaded := true;
    InfoMirror.weatherData := None;
    InfoMirror.calendarEvents := [];
    InfoMirror.currentTime := {| InfoMirror.localeTime := "12:00";
                                 InfoMirror.localeDate := "Monday" |} |} in
  InfoMirror.getDom InfoMirror.Hardware 0
    (fst (deliver "module_1" (MOTION_TIMEOUT "module_1") (m, h)))
  = InfoMirror.Element "div" "mmm-infomirror" (Some "none") [].
Proof.
  intros g h m.
  exact (proj1 (proj2 (motion_timeout_goes_dark "module_1" 0 m h g
                         eq_refl eq_refl))).
Defined.

End PresenceLoopFacts.

(** ** The module's blocks *)

Section DisplayContents.
Import InfoMirror.

Lemma Qfloor_index (random : Q) (n : Z) :
  (0 < n)%Z -> 0 <= random < 1 ->
  (0 <= Qfloor (random * inject_Z n) < n)%Z.
Proof.
  intros Hn [H0 H1].
  assert (Hn' : 0 < inject_Z n) by (unfold Qlt; cbn; lia).
  pose proof (Qfloor_le (random * inject_Z n)) as Hle.
  pose proof (Qlt_floor (random * inject_Z n)) as Hlt.
  split.
  - assert (H : inject_Z 0 < inject_Z (Qfloor (random * inject_Z n) + 1)).
    { eapply Qle_lt_trans; [|exact Hlt]. change (inject_Z 0) with 0. nra. }
    rewrite <- Zlt_Qlt in H. lia.
  - rewrite Zlt_Qlt. eapply Qle_lt_trans; [exact Hle|]. nra.
Qed.

(** The compliment shown is one of the list: with [Math.random()] in
    [0, 1) the index computed is within the array, so that the block never
    shows [undefined]. *)
Theorem compliment_from_list (v : variant) (random : Q) :
  0 <= random < 1 ->
  exists c,
    In c (compliments v)
    /\ createComplimentsDisplay v random
       = el "div" "compliments-display" [el "div" "compliment" [txt c]].
Proof.
  intros Hr. unfold createComplimentsDisplay. cbv zeta.
  set (n := length (compliments v)).
  assert (Hn : (0 < Z.of_nat n)%Z) by (subst n; destruct v; cbn; lia).
  destruct (Qfloor_index random (Z.of_nat n) Hn Hr) as [H0 H1].
  destruct (lookup_lt_is_Some_2 (compliments v)
              (Z.to_nat (Qfloor (random * inject_Z (Z.of_nat n)))))
    as [c Hc]; [fold n; lia|].
  exists c. split.
  - apply list_elem_of_In. eapply list_elem_of_lookup_2. exact Hc.
  - now rewrite Hc.
Qed.

(** The theorem at work: [Math.random()] returns 0.99. *)
Lemma compliment_from_list_witness :
  exists c,
    In c (compliments Hardware)
    /\ createComplimentsDisplay Hardware (99 # 100)
       = el "div" "compliments-display" [el "div" "compliment" [txt c]].
Proof.
  apply (compliment_from_list Hardware (99 # 100)). lra.
Defined.





End DisplayContents.

(** ** The configuration server of the Python version *)

Section PythonConfigurationPost.
Import JSON PythonServer.

Lemma merge_get (current newConfig : json) (field : string) :
  get (merge current newConfig) field
  = match get newConfig field with
    | Some v => Some v
    | None => get current field
    end.
Proof.
  unfold merge, get. cbn [ownProperties].
  destruct (ownProperties newConfig !! field) as [v|] eqn:E.
  - now apply lookup_union_Some_l.
  - now rewrite lookup_union_r.
Qed.

Lemma python_loadConfiguration_saved (path now : string) (c : json)
    (d d' : NodeHelper.disk) :
  NodeHelper.saveConfiguration now c d = (d', Return tt) ->
  loadConfiguration path d'
  = JObj (<["lastUpdated" := JStr now]> (written <$> ownProperties c)).
Proof.
  unfold NodeHelper.saveConfiguration, NodeHelper.writeFileSync.
  destruct (NodeHelper.writeError d) as [[m|m]|]; try discriminate.
  intros [= <-]. cbn. now rewrite fmap_insert.
Qed.

(** A POST to the Python version merges.  When it is answered with 200,
    the helper's current configuration has, under every name, the posted
    value if the body has one and else the value it had before; the file
    holds that merged configuration as [JSON.stringify] writes it ([null]
    for an infinite number, as a posted [1e999] is) and the time of the
    write under [lastUpdated]; every module instance is sent the body as
    posted; and a ready Python process whose pipe takes the write is sent
    the posted body, not the merged configuration. *)
Theorem python_postConfig_merges (savedAt sentAt path : string)
    (body : option json) (h : t)
    (Hcurrent : forall s, currentConfig h <> JStr s)
    (Hok : NodeHelper.status (snd (postConfig savedAt sentAt body h))
           = 200%nat) :
  let h' := fst (postConfig savedAt sentAt body h) in
  exists c,
    body = Some c
    /\ (forall field,
          get (currentConfig h') field
          = match get c field with
            | Some v => Some v
            | None => get (currentConfig h) field
            end)
    /\ get (loadConfiguration path (fs h')) "lastUpdated"
       = Some (JStr savedAt)
    /\ (forall field, field <> "lastUpdated" ->
          get (loadConfiguration path (fs h')) field
          = written <$> get (currentConfig h') field)
    /\ sent h' = sent h ++ map (CONFIG_UPDATED c) (moduleInstances h)
    /\ (forall p,
          PythonHelper.pythonProcess (helper h) = Some p ->
          PythonHelper.pythonAppReady (helper h) = true ->
          PythonHelper.writeThrows p = false ->
          exists p',
            PythonHelper.pythonProcess (helper h') = Some p'
            /\ PythonHelper.stdin p'
               = PythonHelper.stdin p
                 ++ [PythonHelper.Line
                       (stringify
                          (PythonHelper.configUpdate sentAt (Some c)))]).
Proof.
  cbv zeta. revert Hok. unfold postConfig.
  destruct (NodeHelper.validateConfiguration body) as [[|]|msg];
    try discriminate.
  destruct body as [c|]; [|discriminate].
  cbv zeta. cbn [currentConfig set_currentConfig fs].
  destruct (NodeHelper.saveConfiguration savedAt
              (merge (currentConfig h) c) (fs h)) as [d [[]|msg]] eqn:Es;
    [|discriminate].
  intros _. exists c. split; [reflexivity|].
  apply (python_loadConfiguration_saved path) in Es.
  cbn [fst helper set_fs set_currentConfig].
  assert (Hframe :
    forall h3 : t,
      currentConfig h3 = merge (currentConfig h) c -> fs h3 = d ->
      moduleInstances h3 = moduleInstances h -> sent h3 = sent h ->
      (forall field,
         get (currentConfig
                (send (map (CONFIG_UPDATED c) (moduleInstances h3)) h3))
           field
         = match get c field with
           | Some v => Some v
           | None => get (currentConfig h) field
           end)
      /\ get (loadConfiguration path
                (fs (send (map (CONFIG_UPDATED c) (moduleInstances h3)) h3)))
           "lastUpdated" = Some (JStr savedAt)
      /\ (forall field, field <> "lastUpdated" ->
            get (loadConfiguration path
                   (fs (send (map (CONFIG_UPDATED c) (moduleInstances h3))
                          h3))) field
            = written
              <$> get (currentConfig
                         (send (map (CONFIG_UPDATED c) (moduleInstances h3))
                            h3))
                    field)
      /\ sent (send (map (CONFIG_UPDATED c) (moduleInstances h3)) h3)
         = sent h ++ map (CONFIG_UPDATED c) (moduleInstances h)).
  { intros h3 Hc Hf Hm Hs. cbn [currentConfig fs sent send].
    rewrite Hc, Hf, Hm, Hs, Es. split; [apply merge_get|].
    split; [apply lookup_insert_eq|].
    split; [|reflexivity].
    intros field Hne. unfold get. cbn [ownProperties].
    rewrite lookup_insert_ne by congruence. apply lookup_fmap. }
  destruct (PythonHelper.pythonAppReady (helper h)) eqn:Er.
  - destruct (Hframe
                (set_helper
                   (fst (PythonHelper.sendConfigurationToPython sentAt
                           (Some c) (helper h)))
                   (set_fs d
                      (set_currentConfig (merge (currentConfig h) c) h)))
                eq_refl eq_refl eq_refl eq_refl) as (H1 & H2 & H3 & H4).
    split; [exact H1|]. split; [exact H2|]. split; [exact H3|].
    split; [exact H4|].
    intros p Hp _ Hw. cbn [helper send set_helper].
    unfold PythonHelper.sendConfigurationToPython.
    rewrite Hp, Er, Hw. cbn. eexists. split; reflexivity.
  - destruct (Hframe
                (set_fs d
                   (set_currentConfig (merge (currentConfig h) c) h))
                eq_refl eq_refl eq_refl eq_refl) as (H1 & H2 & H3 & H4).
    split; [exact H1|]. split; [exact H2|]. split; [exact H3|].
    split; [exact H4|].
    intros p _ Hr. discriminate.
Qed.

(** The theorem at work: an intensity is posted to a helper that holds its
    default configuration and no Python process. *)
Lemma python_postConfig_merges_witness :
  let path := "/opt/mirror/python_app.py" in
  let h := {|
    helper := {| PythonHelper.pythonProcess := None;
                 PythonHelper.pythonAppReady := false |};
    currentConfig := defaultConfiguration path;
    fs := {| NodeHelper.configFile := NodeHelper.Missing;
             NodeHelper.writeError := None |};
    moduleInstances := ["module_1"];
    sent := [] |} in
  let body := Some (JObj (list_to_map [("ledIntensity", JNum 80)])) in
  let h' := fst (postConfig "t1" "t2" body h) in
  get (loadConfiguration path (fs h')) "ledIntensity" = Some (JNum 80)
  /\ get (loadConfiguration path (fs h')) "arduinoPort"
     = Some (JStr "/dev/ttyACM0").
Proof.
  intros path h body h'.
  destruct (python_postConfig_merges "t1" "t2" path body h
              ltac:(intros s; discriminate) eq_refl)
    as (c & Hc & Hcur & _ & Hfile & _).
  injection Hc as <-. unfold h'.
  split.
  - rewrite (Hfile "ledIntensity") by discriminate.
    rewrite (Hcur "ledIntensity"). reflexivity.
  - rewrite (Hfile "arduinoPort") by discriminate.
    rewrite (Hcur "arduinoPort"). reflexivity.
Defined.

(** A POST to the Python version is not all-or-nothing.  When the body
    passes validation and the write of the file fails, the answer is 500
    with the error's message, the Python process and the notifications are
    as before, and yet [currentConfig] is the merged configuration: what
    [GET /api/config] returns from then on is not what the file holds.
    The file is as it was when the write failed at opening it; when it
    failed later, the file is left truncated, and the next
    [loadConfiguration] returns the default configuration. *)
Theorem python_postConfig_failed_write (savedAt sentAt path : string)
    (c : json) (h : t) (failure : NodeHelper.writeFailure)
    (Hcurrent : forall s, currentConfig h <> JStr s)
    (Hvalid : NodeHelper.validateConfiguration (Some c) = Return true)
    (Hwrite : NodeHelper.writeError (fs h) = Some failure) :
  let h' := fst (postConfig savedAt sentAt (Some c) h) in
  let r := snd (postConfig savedAt sentAt (Some c) h) in
  NodeHelper.status r = 500%nat
  /\ helper h' = helper h /\ sent h' = sent h
  /\ currentConfig h' = merge (currentConfig h) c
  /\ match failure with
     | NodeHelper.OpenFails msg =>
         NodeHelper.message r = msg /\ fs h' = fs h
     | NodeHelper.WriteFails msg =>
         NodeHelper.message r = msg
         /\ NodeHelper.configFile (fs h')
            = NodeHelper.Readable Malformed
         /\ loadConfiguration path (fs h') = defaultConfiguration path
     end.
Proof.
  cbv zeta. unfold postConfig. rewrite Hvalid. cbv zeta.
  unfold NodeHelper.saveConfiguration, NodeHelper.writeFileSync.
  cbn [fs set_currentConfig]. rewrite Hwrite.
  destruct failure as [msg|msg]; cbn; repeat split.
Qed.

(** The theorem at work: the disk is full. *)
Lemma python_postConfig_failed_write_witness :
  let path := "/opt/mirror/python_app.py" in
  let h := {|
    helper := {| PythonHelper.pythonProcess := None;
                 PythonHelper.pythonAppReady := false |};
    currentConfig := defaultConfiguration path;
    fs := {| NodeHelper.configFile :=
               NodeHelper.Readable
                 (JsonText (JObj (list_to_map [("ledIntensity", JNum 20)])));
             NodeHelper.writeError :=
               Some (NodeHelper.WriteFails
                       "ENOSPC: no space left on device") |};
    moduleInstances := ["module_1"];
    sent := [] |} in
  let c := JObj (list_to_map [("ledIntensity", JNum 80)]) in
  let h' := fst (postConfig "t1" "t2" (Some c) h) in
  get (currentConfig h') "ledIntensity" = Some (JNum 80)
  /\ get (loadConfiguration path (fs h')) "ledIntensity" = Some (JNum 50).
Proof.
  intros path h c h'.
  destruct (python_postConfig_failed_write "t1" "t2" path c h _
              ltac:(intros s; discriminate) eq_refl eq_refl)
    as (_ & _ & _ & Hcur & _ & _ & Hload).
  unfold h'. rewrite Hcur, Hload. split; reflexivity.
Defined.

End PythonConfigurationPost.
